(** * DICOM viewer front end: window/level transform, state store, grid
      viewers and playback, embedded from the TypeScript sources.

    Conventions of the embedding.
    - A JavaScript [number] that the code uses as an index or a count
      (frame index, grid size, cell index, sample of a
      [Uint8ClampedArray]) is a [Z].
    - A JavaScript [number] that the stores carry as a window width, a
      window level or a play speed is a rational [Q] (a finite number); the
      stores compare, clamp and copy these numbers. The timer period and
      the upload percentages are computed over the rationals.
    - The arithmetic of the window/level transform is double-precision
      arithmetic: module [Double] embeds the binary64 numbers with NaN, the
      infinities and the signed zeros, every operation rounding to nearest.
    - [null] and [undefined] are [None]; a JavaScript object used as a map
      from cell index to a value is a [gmap Z _].
    - Asynchronous code is split at its suspension points: what runs before
      the [await] (or before [onload] fires) and what runs after are
      separate transitions of an explicit state. *)

From Stdlib Require Import ZArith QArith Qround Qminmax Qpower Lia Lqa.
From stdpp Require Import gmap strings list sorting pretty.

Local Open Scope Z_scope.

(** ** Numbers *)

(** [Math.round]: the nearest integer, halves rounded towards +infinity. *)
Definition Math_round (x : Q) : Z := Qfloor (x + (1 # 2)).

(** Storing an integer into a [Uint8ClampedArray] slot clamps it to 0..255. *)
Definition toUint8Clamped (v : Z) : Z := Z.max 0 (Z.min 255 v).

(** [xs[k]] on a JavaScript array: [undefined] outside the array. *)
Definition js_index {A : Type} (xs : list A) (k : Z) : option A :=
  if k <? 0 then None else xs !! Z.to_nat k.

(** [a % b] on integers: the remainder has the sign of the dividend. *)
Definition js_rem (a b : Z) : Z := Z.rem a b.

(** ** Window/level transform ([applyWindowLevel], Viewer2D and GridViewer) *)

(** *** The formulas of the transform in exact arithmetic

    The transform read over the rationals, with no rounding. The code
    computes in doubles ([Double] below) and can differ from these
    formulas, in the value written or in the arm taken when a bound is
    rounded; the two agree on the full-range window of width 255 and level
    127.5. *)

Definition windowMin (windowWidth windowLevel : Q) : Q :=
  (windowLevel - windowWidth / 2)%Q.

Definition windowMax (windowWidth windowLevel : Q) : Q :=
  (windowLevel + windowWidth / 2)%Q.

(** The three arms of the [if]/[else if]/[else] in the loop body. *)
Inductive WindowBranch : Set := Below | Above | Linear.

Definition windowBranch (windowWidth windowLevel : Q) (gray : Z) : WindowBranch :=
  if Qle_bool (inject_Z gray) (windowMin windowWidth windowLevel) then Below
  else if Qle_bool (windowMax windowWidth windowLevel) (inject_Z gray) then Above
  else Linear.

(** The operand of [Math.round] in the [else] arm. *)
Definition linearMapping (windowWidth windowLevel : Q) (gray : Z) : Q :=
  ((inject_Z gray - windowMin windowWidth windowLevel)
   / (windowMax windowWidth windowLevel - windowMin windowWidth windowLevel)
   * 255)%Q.

(** [newValue] of the loop body, for one gray sample. *)
Definition newValue (windowWidth windowLevel : Q) (gray : Z) : Z :=
  match windowBranch windowWidth windowLevel gray with
  | Below => 0
  | Above => 255
  | Linear => Math_round (linearMapping windowWidth windowLevel gray)
  end.

(** The loop [for (i = 0; i < data.length; i += 4)]: the red sample of each
    pixel decides the value written to red, green and blue; alpha is kept.
    A write past the end of a typed array is dropped, which gives the three
    short cases (an [ImageData] buffer always has a length divisible by 4). *)
Fixpoint applyWindowLevel (data : list Z) (windowWidth windowLevel : Q) : list Z :=
  match data with
  | [] => []
  | r :: rest =>
      let v := toUint8Clamped (newValue windowWidth windowLevel r) in
      match rest with
      | [] => [v]
      | [_] => [v; v]
      | [_; _] => [v; v; v]
      | _ :: _ :: a :: rest' => v :: v :: v :: a :: applyWindowLevel rest' windowWidth windowLevel
      end
  end.

(** A raster sample: an integer in 0..255. *)
Definition isSample (g : Z) : Prop := 0 <= g <= 255.

(** ** The window/level transform in double precision

    A JavaScript [number] is an IEEE 754 binary64 value, and every
    operation of [applyWindowLevel] rounds its exact result to the nearest
    double, ties to even. [Double] embeds these numbers: NaN, the two
    infinities, the two zeros, and the other finite values by the rational
    they denote. The operations follow the standard case by case; a finite
    result is the exact result rounded by [ofQ]. *)

Module Double.

Inductive double : Type :=
| NaN
| Infinity (negative : bool)
| Zero (negative : bool)
| Finite (q : Q).

(** [2^e], for any integer [e]. *)
Definition pow2 (e : Z) : Q := Qpower 2 e.

(** [floor (log2 a)] for a positive rational: the quotient of the bit
    lengths of numerator and denominator, corrected by one comparison. *)
Definition magnitude (a : Q) : Z :=
  let k := Z.log2 (Qnum a) - Z.log2 (Zpos (Qden a)) in
  if Qle_bool (pow2 k) a then k else k - 1.

(** The nearest integer, a half going to the even neighbour. *)
Definition roundHalfEven (q : Q) : Z :=
  let f := Qfloor q in
  match (q - inject_Z f ?= 1 # 2)%Q with
  | Lt => f
  | Gt => f + 1
  | Eq => if Z.even f then f else f + 1
  end.

(** The exponent of the unit in the last place of the doubles around [a]:
    53 significant bits, and no exponent below -1074 (subnormal numbers). *)
Definition exponent (a : Q) : Z := Z.max (-1074) (magnitude a - 52).

(** A positive rational rounded to a multiple of its unit in the last
    place. *)
Definition roundPositive (a : Q) : Q :=
  (inject_Z (roundHalfEven (a / pow2 (exponent a))) * pow2 (exponent a))%Q.

(** Round to nearest, ties to even: the double denoted by a rational. A
    result of 2^1024 or more overflows to an infinity; a result that
    underflows to zero keeps the sign. *)
Definition ofQ (q : Q) : double :=
  match (q ?= 0)%Q with
  | Eq => Zero false
  | Gt => let v := roundPositive q in
          if Qeq_bool v 0 then Zero false
          else if Qle_bool (pow2 1024) v then Infinity false
          else Finite (Qred v)
  | Lt => let v := roundPositive (- q) in
          if Qeq_bool v 0 then Zero true
          else if Qle_bool (pow2 1024) v then Infinity true
          else Finite (Qred (- v))
  end.

(** An integer as a number (exact up to 2^53, so for every sample). *)
Definition ofZ (n : Z) : double := ofQ (inject_Z n).

Definition value (x : double) : Q :=
  match x with
  | Finite q => q
  | _ => 0%Q
  end.

(** The sign bit. *)
Definition negative (x : double) : bool :=
  match x with
  | NaN => false
  | Infinity s | Zero s => s
  | Finite q => match (q ?= 0)%Q with Lt => true | _ => false end
  end.

Definition isZero (x : double) : bool :=
  match x with
  | Zero _ => true
  | Finite q => Qeq_bool q 0
  | _ => false
  end.

Definition isNaN (x : double) : bool :=
  match x with
  | NaN => true
  | _ => false
  end.

Definition isFinite (x : double) : bool :=
  match x with
  | Zero _ | Finite _ => true
  | _ => false
  end.

(** [- x] *)
Definition neg (x : double) : double :=
  match x with
  | NaN => NaN
  | Infinity s => Infinity (negb s)
  | Zero s => Zero (negb s)
  | Finite q => Finite (- q)
  end.

(** [x + y] *)
Definition add (x y : double) : double :=
  match x, y with
  | NaN, _ | _, NaN => NaN
  | Infinity a, Infinity b => if Bool.eqb a b then Infinity a else NaN
  | Infinity a, _ => Infinity a
  | _, Infinity b => Infinity b
  | Zero a, Zero b => Zero (a && b)
  | _, _ => ofQ (value x + value y)
  end.

(** [x - y] *)
Definition sub (x y : double) : double := add x (neg y).

(** [x * y] *)
Definition mul (x y : double) : double :=
  match x, y with
  | NaN, _ | _, NaN => NaN
  | Infinity a, Infinity b => Infinity (xorb a b)
  | Infinity a, _ => if isZero y then NaN else Infinity (xorb a (negative y))
  | _, Infinity b => if isZero x then NaN else Infinity (xorb (negative x) b)
  | _, _ => if isZero x || isZero y then Zero (xorb (negative x) (negative y))
            else ofQ (value x * value y)
  end.

(** [x / y]: a division by a zero yields an infinity, or NaN for [0 / 0];
    it does not throw. *)
Definition div (x y : double) : double :=
  match x, y with
  | NaN, _ | _, NaN => NaN
  | Infinity a, Infinity b => NaN
  | Infinity a, _ => Infinity (xorb a (negative y))
  | _, Infinity b => Zero (xorb (negative x) b)
  | _, _ => if isZero y then
              if isZero x then NaN else Infinity (xorb (negative x) (negative y))
            else if isZero x then Zero (xorb (negative x) (negative y))
            else ofQ (value x / value y)
  end.

(** The comparison of two numbers; NaN is unordered, the two zeros are
    equal. *)
Definition compare (x y : double) : option comparison :=
  match x, y with
  | NaN, _ | _, NaN => None
  | Infinity a, Infinity b =>
      Some (if a then if b then Eq else Lt else if b then Gt else Eq)
  | Infinity a, _ => Some (if a then Lt else Gt)
  | _, Infinity b => Some (if b then Gt else Lt)
  | _, _ => Some (value x ?= value y)%Q
  end.

(** [x <= y], [x < y] and [x >= y]: false when an operand is NaN. *)
Definition le (x y : double) : bool :=
  match compare x y with
  | Some Lt | Some Eq => true
  | _ => false
  end.

Definition lt (x y : double) : bool :=
  match compare x y with
  | Some Lt => true
  | _ => false
  end.

Definition ge (x y : double) : bool := le y x.

(** [Math.round]: the nearest integer, halves towards +Infinity; NaN, the
    infinities and the zeros are returned as they are. *)
Definition Math_round (x : double) : double :=
  match x with
  | Finite q =>
      let n := Qfloor (q + (1 # 2)) in
      if n =? 0 then Zero (negative x) else Finite (inject_Z n)
  | _ => x
  end.

(** Storing a number into a [Uint8ClampedArray] slot: NaN becomes 0, the
    others are clamped to 0..255 and rounded, halves to even. *)
Definition toUint8Clamp (x : double) : Z :=
  match x with
  | NaN => 0
  | Infinity s => if s then 0 else 255
  | Zero _ => 0
  | Finite q => Z.max 0 (Z.min 255 (roundHalfEven q))
  end.

(** [const windowMin = windowLevel - windowWidth / 2] *)
Definition windowMin (windowWidth windowLevel : double) : double :=
  sub windowLevel (div windowWidth (ofZ 2)).

(** [const windowMax = windowLevel + windowWidth / 2] *)
Definition windowMax (windowWidth windowLevel : double) : double :=
  add windowLevel (div windowWidth (ofZ 2)).

(** [newValue] of the loop body, for the gray sample [data[i]]. *)
Definition newValue (windowWidth windowLevel : double) (gray : Z) : double :=
  let windowMin := windowMin windowWidth windowLevel in
  let windowMax := windowMax windowWidth windowLevel in
  if le (ofZ gray) windowMin then ofZ 0
  else if ge (ofZ gray) windowMax then ofZ 255
  else Math_round (mul (div (sub (ofZ gray) windowMin) (sub windowMax windowMin)) (ofZ 255)).

(** The sample read back from [data[i]] after [data[i] = newValue]. *)
Definition written (windowWidth windowLevel : double) (gray : Z) : Z :=
  toUint8Clamp (newValue windowWidth windowLevel gray).

(** The loop [for (i = 0; i < data.length; i += 4)]: the red sample of each
    pixel decides the value written to red, green and blue; alpha is kept.
    A write past the end of a typed array is dropped, which gives the three
    short cases (an [ImageData] buffer always has a length divisible by 4). *)
Fixpoint applyWindowLevel (data : list Z) (windowWidth windowLevel : double) : list Z :=
  match data with
  | [] => []
  | r :: rest =>
      let v := written windowWidth windowLevel r in
      match rest with
      | [] => [v]
      | [_] => [v; v]
      | [_; _] => [v; v; v]
      | _ :: _ :: a :: rest' => v :: v :: v :: a :: applyWindowLevel rest' windowWidth windowLevel
      end
  end.

(** The same computation with the division made partial: a division by a
    zero yields [None]. *)
Definition checkedDiv (x y : double) : option double :=
  if isZero y then None else Some (div x y).

Definition newValueChecked (windowWidth windowLevel : double) (gray : Z) : option double :=
  let windowMin := windowMin windowWidth windowLevel in
  let windowMax := windowMax windowWidth windowLevel in
  if le (ofZ gray) windowMin then Some (ofZ 0)
  else if ge (ofZ gray) windowMax then Some (ofZ 255)
  else
    match checkedDiv (sub (ofZ gray) windowMin) (sub windowMax windowMin) with
    | Some q => Some (Math_round (mul q (ofZ 255)))
    | None => None
    end.

(** Where a number stands among the others: below every finite number,
    among them, or above. *)
Definition level (x : double) : Z :=
  match x with
  | Infinity true => -1
  | Infinity false => 1
  | _ => 0
  end.

(** Two numbers that compare alike with every number (they may differ in
    the sign of a zero). *)
Definition same (x y : double) : Prop :=
  isNaN x = isNaN y /\ level x = level y /\ (value x == value y)%Q.

(** A multiple of the smallest positive double, 2^-1074. *)
Definition onGrid (q : Q) : Prop := exists k : Z, (q == inject_Z k * pow2 (-1074))%Q.

(** Structural equality of two numbers. *)
Definition eqb (x y : double) : bool :=
  match x, y with
  | NaN, NaN => true
  | Infinity a, Infinity b | Zero a, Zero b => Bool.eqb a b
  | Finite p, Finite q => (Qnum p =? Qnum q) && (Qden p =? Qden q)%positive
  | _, _ => false
  end.

(** The samples 0..255. *)
Definition samples : list Z := List.map Z.of_nat (List.seq 0 256).

End Double.

(** ** Data model ([DICOMContext.tsx]) *)

Record DICOMSeries : Type := {
  uid : string;
  series_desc : string;
  modality : string;
  patient_name : string;
  patient_id : string;
  study_desc : string;
  frame_count : Z;
  examples : list string
}.

Record DICOMFrame : Type := {
  index : Z;
  data : string;
  width : Z;
  height : Z
}.

Record DICOMSession : Type := {
  session_id : string;
  series : list DICOMSeries;
  invalid_files : list string;
  total_series : Z
}.

(** [frames.length] as a JavaScript number. *)
Definition jsLength {A : Type} (xs : list A) : Z := Z.of_nat (length xs).

(** ** The single-select store ([fe/src/context/DICOMContext.tsx]) *)

Module SingleStore.

Record DICOMState : Type := {
  session : option DICOMSession;
  selectedSeries : option DICOMSeries;
  frames : list DICOMFrame;
  currentFrameIndex : Z;
  isLoading : bool;
  error : option string;
  windowWidth : Q;
  windowLevel : Q;
  gridSize : Z;
  isPlaying : bool;
  playSpeed : Q
}.

Inductive DICOMAction : Type :=
| SET_LOADING (payload : bool)
| SET_ERROR (payload : option string)
| SET_SESSION (payload : DICOMSession)
| SET_SELECTED_SERIES (payload : DICOMSeries)
| SET_FRAMES (payload : list DICOMFrame)
| SET_CURRENT_FRAME (payload : Z)
| SET_WINDOW_WIDTH (payload : Q)
| SET_WINDOW_LEVEL (payload : Q)
| SET_GRID_SIZE (payload : Z)
| SET_PLAYING (payload : bool)
| SET_PLAY_SPEED (payload : Q)
| NEXT_FRAME
| PREV_FRAME
| RESET_VIEW.

Definition initialState : DICOMState := {|
  session := None;
  selectedSeries := None;
  frames := [];
  currentFrameIndex := 0;
  isLoading := false;
  error := None;
  windowWidth := 1;
  windowLevel := 1;
  gridSize := 1;
  isPlaying := false;
  playSpeed := 1
|}.

(** [{ ...state, currentFrameIndex: v }] *)
Definition with_currentFrameIndex (v : Z) (state : DICOMState) : DICOMState :=
  {| session := session state; selectedSeries := selectedSeries state;
     frames := frames state; currentFrameIndex := v;
     isLoading := isLoading state; error := error state;
     windowWidth := windowWidth state; windowLevel := windowLevel state;
     gridSize := gridSize state; isPlaying := isPlaying state;
     playSpeed := playSpeed state |}.

Definition dicomReducer (state : DICOMState) (action : DICOMAction) : DICOMState :=
  match action with
  | SET_LOADING payload =>
      {| session := session state; selectedSeries := selectedSeries state;
         frames := frames state; currentFrameIndex := currentFrameIndex state;
         isLoading := payload; error := error state;
         windowWidth := windowWidth state; windowLevel := windowLevel state;
         gridSize := gridSize state; isPlaying := isPlaying state;
         playSpeed := playSpeed state |}
  | SET_ERROR payload =>
      {| session := session state; selectedSeries := selectedSeries state;
         frames := frames state; currentFrameIndex := currentFrameIndex state;
         isLoading := false; error := payload;
         windowWidth := windowWidth state; windowLevel := windowLevel state;
         gridSize := gridSize state; isPlaying := isPlaying state;
         playSpeed := playSpeed state |}
  | SET_SESSION payload =>
      {| session := Some payload; selectedSeries := selectedSeries state;
         frames := frames state; currentFrameIndex := currentFrameIndex state;
         isLoading := isLoading state; error := None;
         windowWidth := windowWidth state; windowLevel := windowLevel state;
         gridSize := gridSize state; isPlaying := isPlaying state;
         playSpeed := playSpeed state |}
  | SET_SELECTED_SERIES payload =>
      {| session := session state; selectedSeries := Some payload;
         frames := frames state; currentFrameIndex := currentFrameIndex state;
         isLoading := isLoading state; error := error state;
         windowWidth := windowWidth state; windowLevel := windowLevel state;
         gridSize := gridSize state; isPlaying := isPlaying state;
         playSpeed := playSpeed state |}
  | SET_FRAMES payload =>
      {| session := session state; selectedSeries := selectedSeries state;
         frames := payload; currentFrameIndex := 0;
         isLoading := isLoading state; error := error state;
         windowWidth := windowWidth state; windowLevel := windowLevel state;
         gridSize := gridSize state; isPlaying := isPlaying state;
         playSpeed := playSpeed state |}
  | SET_CURRENT_FRAME payload =>
      with_currentFrameIndex
        (Z.max 0 (Z.min payload (jsLength (frames state) - 1))) state
  | SET_WINDOW_WIDTH payload =>
      {| session := session state; selectedSeries := selectedSeries state;
         frames := frames state; currentFrameIndex := currentFrameIndex state;
         isLoading := isLoading state; error := error state;
         windowWidth := payload; windowLevel := windowLevel state;
         gridSize := gridSize state; isPlaying := isPlaying state;
         playSpeed := playSpeed state |}
  | SET_WINDOW_LEVEL payload =>
      {| session := session state; selectedSeries := selectedSeries state;
         frames := frames state; currentFrameIndex := currentFrameIndex state;
         isLoading := isLoading state; error := error state;
         windowWidth := windowWidth state; windowLevel := payload;
         gridSize := gridSize state; isPlaying := isPlaying state;
         playSpeed := playSpeed state |}
  | SET_GRID_SIZE payload =>
      {| session := session state; selectedSeries := selectedSeries state;
         frames := frames state; currentFrameIndex := currentFrameIndex state;
         isLoading := isLoading state; error := error state;
         windowWidth := windowWidth state; windowLevel := windowLevel state;
         gridSize := Z.max 1 (Z.min 4 payload); isPlaying := isPlaying state;
         playSpeed := playSpeed state |}
  | SET_PLAYING payload =>
      {| session := session state; selectedSeries := selectedSeries state;
         frames := frames state; currentFrameIndex := currentFrameIndex state;
         isLoading := isLoading state; error := error state;
         windowWidth := windowWidth state; windowLevel := windowLevel state;
         gridSize := gridSize state; isPlaying := payload;
         playSpeed := playSpeed state |}
  | SET_PLAY_SPEED payload =>
      {| session := session state; selectedSeries := selectedSeries state;
         frames := frames state; currentFrameIndex := currentFrameIndex state;
         isLoading := isLoading state; error := error state;
         windowWidth := windowWidth state; windowLevel := windowLevel state;
         gridSize := gridSize state; isPlaying := isPlaying state;
         playSpeed := Qmax (1 # 10) (Qmin 5 payload) |}
  | NEXT_FRAME =>
      with_currentFrameIndex
        (Z.min (currentFrameIndex state + 1) (jsLength (frames state) - 1)) state
  | PREV_FRAME =>
      with_currentFrameIndex (Z.max (currentFrameIndex state - 1) 0) state
  | RESET_VIEW =>
      {| session := session state; selectedSeries := selectedSeries state;
         frames := frames state; currentFrameIndex := currentFrameIndex state;
         isLoading := isLoading state; error := error state;
         windowWidth := 1; windowLevel := 1;
         gridSize := gridSize state; isPlaying := isPlaying state;
         playSpeed := playSpeed state |}
  end.

(** The states the store can be in: [useReducer (dicomReducer, initialState)]
    followed by any dispatches. *)
Inductive reachable : DICOMState -> Prop :=
| reachable_init : reachable initialState
| reachable_dispatch state action :
    reachable state -> reachable (dicomReducer state action).

(** [currentFrameIndex] within the bounds of the frame list (0 for an empty
    list). *)
Definition frameIndexInBounds (state : DICOMState) : Prop :=
  0 <= currentFrameIndex state /\
  (frames state <> [] -> currentFrameIndex state <= jsLength (frames state) - 1) /\
  (frames state = [] -> currentFrameIndex state = 0).

(** *** Playback ([Controls], the auto-play effect) *)

(** What [setInterval] is given: the period in milliseconds, and the index
    the callback hands to [onFrameChange]. *)
Record Interval : Type := {
  period : Q;
  nextIndex : Z
}.

(** The effect body: no timer unless playing with at least one frame. *)
Definition autoPlayEffect (isPlaying : bool) (frames : list DICOMFrame)
    (currentFrameIndex : Z) (playSpeed : Q) : option Interval :=
  if negb isPlaying || (jsLength frames =? 0) then None
  else Some {| period := (1000 / playSpeed)%Q;
               nextIndex := js_rem (currentFrameIndex + 1) (jsLength frames) |}.

(** One timer tick with [ViewerPage]'s wiring
    [onFrameChange = index => dispatch (SET_CURRENT_FRAME index)]; with no
    timer running nothing is dispatched. *)
Definition playbackTick (state : DICOMState) : DICOMState :=
  match autoPlayEffect (isPlaying state) (frames state)
                       (currentFrameIndex state) (playSpeed state) with
  | Some timer => dicomReducer state (SET_CURRENT_FRAME (nextIndex timer))
  | None => state
  end.

End SingleStore.

(** ** The per-cell store (the [DICOMContext] variant with
       [selectedSeriesForCells], [cellWindowLevels] and [cellFrames]).
    A later revision of this variant adds an [uploadProgress] field with its
    [SET_UPLOAD_PROGRESS] action and no longer clears [isLoading] in
    [SET_ERROR]; the cases modelled here are the same in both. *)

Module CellStore.

Record CellSeries : Type := {
  seriesUid : string;
  frameIndex : Z
}.

Record CellWindowLevel : Type := {
  cellWindowWidth : Q;
  cellWindowLevel : Q
}.

Record DICOMState : Type := {
  session : option DICOMSession;
  selectedSeries : option DICOMSeries;
  frames : list DICOMFrame;
  currentFrameIndex : Z;
  isLoading : bool;
  error : option string;
  windowWidth : Q;
  windowLevel : Q;
  gridSize : Z;
  selectedSeriesForCells : gmap Z CellSeries;
  cellWindowLevels : gmap Z CellWindowLevel;
  cellFrames : gmap Z (list DICOMFrame)
}.

Inductive DICOMAction : Type :=
| SET_LOADING (payload : bool)
| SET_ERROR (payload : option string)
| SET_SESSION (payload : DICOMSession)
| SET_SELECTED_SERIES (payload : DICOMSeries)
| SET_FRAMES (payload : list DICOMFrame)
| SET_CURRENT_FRAME (payload : Z)
| SET_WINDOW_WIDTH (payload : Q)
| SET_WINDOW_LEVEL (payload : Q)
| SET_GRID_SIZE (payload : Z)
| SET_CELL_SERIES (cellIndex : Z) (seriesUid : string) (frameIndex : Z)
| SET_CELL_WINDOW_LEVEL (cellIndex : Z) (windowWidth windowLevel : Q)
| SET_CELL_FRAMES (cellIndex : Z) (frames : list DICOMFrame)
| NEXT_FRAME
| PREV_FRAME
| RESET_VIEW.

Definition defaultCellWindowLevel : CellWindowLevel :=
  {| cellWindowWidth := 400; cellWindowLevel := 50 |}.

(** The object literal [{ 0: v, 1: v, 2: v, 3: v }]. *)
Definition fourCells {A : Type} (v : A) : gmap Z A :=
  <[0 := v]> (<[1 := v]> (<[2 := v]> (<[3 := v]> ∅))).

Definition initialState : DICOMState := {|
  session := None;
  selectedSeries := None;
  frames := [];
  currentFrameIndex := 0;
  isLoading := false;
  error := None;
  windowWidth := 400;
  windowLevel := 50;
  gridSize := 1;
  selectedSeriesForCells := fourCells {| seriesUid := ""; frameIndex := 0 |};
  cellWindowLevels := fourCells defaultCellWindowLevel;
  cellFrames := fourCells []
|}.

(** [{ ...state, currentFrameIndex: v }] *)
Definition with_currentFrameIndex (v : Z) (state : DICOMState) : DICOMState :=
  {| session := session state; selectedSeries := selectedSeries state;
     frames := frames state; currentFrameIndex := v;
     isLoading := isLoading state; error := error state;
     windowWidth := windowWidth state; windowLevel := windowLevel state;
     gridSize := gridSize state;
     selectedSeriesForCells := selectedSeriesForCells state;
     cellWindowLevels := cellWindowLevels state;
     cellFrames := cellFrames state |}.

Definition dicomReducer (state : DICOMState) (action : DICOMAction) : DICOMState :=
  match action with
  | SET_LOADING payload =>
      {| session := session state; selectedSeries := selectedSeries state;
         frames := frames state; currentFrameIndex := currentFrameIndex state;
         isLoading := payload; error := error state;
         windowWidth := windowWidth state; windowLevel := windowLevel state;
         gridSize := gridSize state;
         selectedSeriesForCells := selectedSeriesForCells state;
         cellWindowLevels := cellWindowLevels state;
         cellFrames := cellFrames state |}
  | SET_ERROR payload =>
      {| session := session state; selectedSeries := selectedSeries state;
         frames := frames state; currentFrameIndex := currentFrameIndex state;
         isLoading := false; error := payload;
         windowWidth := windowWidth state; windowLevel := windowLevel state;
         gridSize := gridSize state;
         selectedSeriesForCells := selectedSeriesForCells state;
         cellWindowLevels := cellWindowLevels state;
         cellFrames := cellFrames state |}
  | SET_SESSION payload =>
      {| session := Some payload; selectedSeries := selectedSeries state;
         frames := frames state; currentFrameIndex := currentFrameIndex state;
         isLoading := isLoading state; error := None;
         windowWidth := windowWidth state; windowLevel := windowLevel state;
         gridSize := gridSize state;
         selectedSeriesForCells := selectedSeriesForCells state;
         cellWindowLevels := cellWindowLevels state;
         cellFrames := cellFrames state |}
  | SET_SELECTED_SERIES payload =>
      {| session := session state; selectedSeries := Some payload;
         frames := frames state; currentFrameIndex := currentFrameIndex state;
         isLoading := isLoading state; error := error state;
         windowWidth := windowWidth state; windowLevel := windowLevel state;
         gridSize := gridSize state;
         selectedSeriesForCells := selectedSeriesForCells state;
         cellWindowLevels := cellWindowLevels state;
         cellFrames := cellFrames state |}
  | SET_FRAMES payload =>
      {| session := session state; selectedSeries := selectedSeries state;
         frames := payload; currentFrameIndex := 0;
         isLoading := isLoading state; error := error state;
         windowWidth := windowWidth state; windowLevel := windowLevel state;
         gridSize := gridSize state;
         selectedSeriesForCells := selectedSeriesForCells state;
         cellWindowLevels := cellWindowLevels state;
         cellFrames := cellFrames state |}
  | SET_CURRENT_FRAME payload =>
      with_currentFrameIndex
        (Z.max 0 (Z.min payload (jsLength (frames state) - 1))) state
  | SET_WINDOW_WIDTH payload =>
      {| session := session state; selectedSeries := selectedSeries state;
         frames := frames state; currentFrameIndex := currentFrameIndex state;
         isLoading := isLoading state; error := error state;
         windowWidth := payload; windowLevel := windowLevel state;
         gridSize := gridSize state;
         selectedSeriesForCells := selectedSeriesForCells state;
         cellWindowLevels := cellWindowLevels state;
         cellFrames := cellFrames state |}
  | SET_WINDOW_LEVEL payload =>
      {| session := session state; selectedSeries := selectedSeries state;
         frames := frames state; currentFrameIndex := currentFrameIndex state;
         isLoading := isLoading state; error := error state;
         windowWidth := windowWidth state; windowLevel := payload;
         gridSize := gridSize state;
         selectedSeriesForCells := selectedSeriesForCells state;
         cellWindowLevels := cellWindowLevels state;
         cellFrames := cellFrames state |}
  | SET_GRID_SIZE payload =>
      {| session := session state; selectedSeries := selectedSeries state;
         frames := frames state; currentFrameIndex := currentFrameIndex state;
         isLoading := isLoading state; error := error state;
         windowWidth := windowWidth state; windowLevel := windowLevel state;
         gridSize := Z.max 1 (Z.min 2 payload);
         selectedSeriesForCells := selectedSeriesForCells state;
         cellWindowLevels := cellWindowLevels state;
         cellFrames := cellFrames state |}
  | SET_CELL_SERIES cellIndex uid fi =>
      {| session := session state; selectedSeries := selectedSeries state;
         frames := frames state; currentFrameIndex := currentFrameIndex state;
         isLoading := isLoading state; error := error state;
         windowWidth := windowWidth state; windowLevel := windowLevel state;
         gridSize := gridSize state;
         selectedSeriesForCells :=
           <[cellIndex := {| seriesUid := uid; frameIndex := fi |}]>
             (selectedSeriesForCells state);
         cellWindowLevels := cellWindowLevels state;
         cellFrames := cellFrames state |}
  | SET_CELL_WINDOW_LEVEL cellIndex ww wl =>
      {| session := session state; selectedSeries := selectedSeries state;
         frames := frames state; currentFrameIndex := currentFrameIndex state;
         isLoading := isLoading state; error := error state;
         windowWidth := windowWidth state; windowLevel := windowLevel state;
         gridSize := gridSize state;
         selectedSeriesForCells := selectedSeriesForCells state;
         cellWindowLevels :=
           <[cellIndex := {| cellWindowWidth := ww; cellWindowLevel := wl |}]>
             (cellWindowLevels state);
         cellFrames := cellFrames state |}
  | SET_CELL_FRAMES cellIndex fs =>
      {| session := session state; selectedSeries := selectedSeries state;
         frames := frames state; currentFrameIndex := currentFrameIndex state;
         isLoading := isLoading state; error := error state;
         windowWidth := windowWidth state; windowLevel := windowLevel state;
         gridSize := gridSize state;
         selectedSeriesForCells := selectedSeriesForCells state;
         cellWindowLevels := cellWindowLevels state;
         cellFrames := <[cellIndex := fs]> (cellFrames state) |}
  | NEXT_FRAME =>
      with_currentFrameIndex
        (Z.min (currentFrameIndex state + 1) (jsLength (frames state) - 1)) state
  | PREV_FRAME =>
      with_currentFrameIndex (Z.max (currentFrameIndex state - 1) 0) state
  | RESET_VIEW =>
      {| session := session state; selectedSeries := selectedSeries state;
         frames := frames state; currentFrameIndex := currentFrameIndex state;
         isLoading := isLoading state; error := error state;
         windowWidth := 400; windowLevel := 50;
         gridSize := gridSize state;
         selectedSeriesForCells := selectedSeriesForCells state;
         cellWindowLevels := fourCells defaultCellWindowLevel;
         cellFrames := cellFrames state |}
  end.

Inductive reachable : DICOMState -> Prop :=
| reachable_init : reachable initialState
| reachable_dispatch state action :
    reachable state -> reachable (dicomReducer state action).

Definition frameIndexInBounds (state : DICOMState) : Prop :=
  0 <= currentFrameIndex state /\
  (frames state <> [] -> currentFrameIndex state <= jsLength (frames state) - 1) /\
  (frames state = [] -> currentFrameIndex state = 0).

End CellStore.

(** ** Shared pieces of the grid viewers *)

(** A string in a condition: the empty string is falsy. *)
Definition truthyString (s : string) : bool :=
  match s with
  | EmptyString => false
  | String _ _ => true
  end.

(** A number in a condition: 0 is falsy (and so is a missing argument). *)
Definition truthyNumber (x : Q) : bool := negb (Qeq_bool x 0).

(** [`data:image/png;base64,${frame.data}`] *)
Definition imageDataUrlOf (frame : DICOMFrame) : string :=
  "data:image/png;base64," +:+ data frame.

(** The arguments of one call [loadAndDisplayImage (imageDataUrl, canvas, ww, wl)]
    of a grid viewer; the canvas is that of the cell the call is made for. *)
Record Composite : Type := {
  imageDataUrl : string;
  ww : Q;
  wl : Q
}.

(** The cell indices [0 .. gridSize * gridSize - 1] of the loops
    [for (let i = 0; i < totalCells; i++)] and of [Array.from ({ length })]. *)
Definition cellIndices (gridSize : Z) : list Z :=
  Z.of_nat <$> seq 0 (Z.to_nat (gridSize * gridSize)).

(** ** The uniform grid viewer ([GridViewer] with one frame list and one
       window/level) *)

Module GridViewer.

(** The [imageIds] state once the effect on [frames] has run. *)
Definition imageIdsOf (frames : list DICOMFrame) : list string :=
  imageDataUrlOf <$> frames.

(** The render: cell [i] gets a canvas (and its frame label) only if
    [frames[currentFrameIndex + i]] is defined. *)
Definition renderedFrame (frames : list DICOMFrame) (currentFrameIndex i : Z)
  : option DICOMFrame :=
  js_index frames (currentFrameIndex + i).

Definition canvasRef (frames : list DICOMFrame) (currentFrameIndex i : Z) : bool :=
  match renderedFrame frames currentFrameIndex i with
  | Some _ => true
  | None => false
  end.

(** One iteration of the loop of [loadGridImages]. *)
Definition loadGridCell (frames : list DICOMFrame) (imageIds : list string)
    (currentFrameIndex : Z) (windowWidth windowLevel : Q) (i : Z) : option Composite :=
  let frameIndex := currentFrameIndex + i in
  if (frameIndex <? jsLength frames) && canvasRef frames currentFrameIndex i then
    match js_index imageIds frameIndex with
    | Some url =>
        if truthyString url
        then Some {| imageDataUrl := url; ww := windowWidth; wl := windowLevel |}
        else None
    | None => None
    end
  else None.

(** The effect that loads the grid: the composites it issues, each with the
    cell it is issued for. *)
Definition loadGridImages (frames : list DICOMFrame) (imageIds : list string)
    (currentFrameIndex gridSize : Z) (windowWidth windowLevel : Q)
  : list (Z * Composite) :=
  if (jsLength imageIds =? 0) || (jsLength frames =? 0) then []
  else
    omap (fun i => pair i <$> loadGridCell frames imageIds currentFrameIndex
                                           windowWidth windowLevel i)
         (cellIndices gridSize).


End GridViewer.

(** ** The per-cell grid viewer and [loadSeriesForCell] *)

Module CellGrid.
Import CellStore.

(** [cellSeries?.frameIndex || 0] *)
Definition frameIndexOf (cellSeries : option CellSeries) : Z :=
  match cellSeries with
  | Some c => if frameIndex c =? 0 then 0 else frameIndex c
  | None => 0
  end.

(** [cellSeries?.seriesUid] as a condition. *)
Definition hasSeries (cellSeries : option CellSeries) : bool :=
  match cellSeries with
  | Some c => truthyString (seriesUid c)
  | None => false
  end.

(** The render of cell [i]: the frame it gets a canvas for, if any. *)
Definition renderedFrame (state : DICOMState) (i : Z) : option DICOMFrame :=
  let cellSeries := selectedSeriesForCells state !! i in
  let cellFrameData := default [] (cellFrames state !! i) in
  let fi := frameIndexOf cellSeries in
  let frame := if fi <? jsLength cellFrameData then js_index cellFrameData fi else None in
  if hasSeries cellSeries then frame else None.

(** One iteration of the loop of [loadGridImages]: the composite issued for
    cell [i]. *)
Definition loadGridCell (state : DICOMState) (i : Z) : option Composite :=
  let cellSeries := selectedSeriesForCells state !! i in
  let cellFrameData := default [] (cellFrames state !! i) in
  match renderedFrame state i with
  | Some _ =>
      if hasSeries cellSeries && (0 <? jsLength cellFrameData) then
        let fi := frameIndexOf cellSeries in
        if fi <? jsLength cellFrameData then
          match js_index cellFrameData fi with
          | Some frame =>
              let cellWL := default defaultCellWindowLevel (cellWindowLevels state !! i) in
              Some {| imageDataUrl := imageDataUrlOf frame;
                      ww := cellWindowWidth cellWL; wl := cellWindowLevel cellWL |}
          | None => None
          end
        else None
      else None
  | None => None
  end.


(** A call of [loadSeriesForCell] suspended at its [await axios.get (url)]. *)
Record PendingLoad : Type := {
  pendingCell : Z;
  pendingSeriesUid : string;
  pendingFrameIndex : Z;
  pendingUrl : string
}.

(** The provider: the store and the calls whose fetch has not settled. *)
Record Provider : Type := {
  store : DICOMState;
  pending : list PendingLoad
}.

Inductive Event : Type :=
| LoadSeriesForCell (cellIndex : Z) (seriesUid : string) (frameIndex : Z)
| FetchResolved (k : nat) (frames : list DICOMFrame)
| FetchRejected (k : nat)
| Dispatch (action : DICOMAction).

Section WithApi.

(** [API_BASE_URL], read from the environment. *)
Variable API_BASE_URL : string.

Definition seriesUrl (sessionId seriesUid : string) : string :=
  API_BASE_URL +:+ "/api/series/" +:+ sessionId +:+ "/" +:+ seriesUid.

(** [loadSeriesForCell] up to the [await]: nothing without a session,
    otherwise the GET is sent; no action is dispatched. *)
Definition loadSeriesForCell_start (p : Provider) (cellIndex : Z)
    (seriesUid : string) (frameIndex : Z) : Provider :=
  match session (store p) with
  | None => p
  | Some s =>
      {| store := store p;
         pending := pending p ++
           [{| pendingCell := cellIndex; pendingSeriesUid := seriesUid;
               pendingFrameIndex := frameIndex;
               pendingUrl := seriesUrl (session_id s) seriesUid |}] |}
  end.

(** [loadSeriesForCell] after the [await]: the two dispatches. *)
Definition loadSeriesForCell_resume (state : DICOMState) (l : PendingLoad)
    (frames : list DICOMFrame) : DICOMState :=
  dicomReducer
    (dicomReducer state
       (SET_CELL_SERIES (pendingCell l) (pendingSeriesUid l) (pendingFrameIndex l)))
    (SET_CELL_FRAMES (pendingCell l) frames).

Definition step (p : Provider) (e : Event) : Provider :=
  match e with
  | LoadSeriesForCell cellIndex seriesUid frameIndex =>
      loadSeriesForCell_start p cellIndex seriesUid frameIndex
  | FetchResolved k frames =>
      match pending p !! k with
      | Some l => {| store := loadSeriesForCell_resume (store p) l frames;
                     pending := delete k (pending p) |}
      | None => p
      end
  | FetchRejected k =>
      {| store := store p; pending := delete k (pending p) |}
  | Dispatch action =>
      {| store := dicomReducer (store p) action; pending := pending p |}
  end.

Definition run (p : Provider) (events : list Event) : Provider :=
  foldl step p events.

End WithApi.

End CellGrid.

(** ** The single viewer's compositor ([Viewer2D.loadAndDisplayImage]) *)

Module Viewer2D.

(** The arguments of a call [loadAndDisplayImage (imageDataUrl, ww, wl)];
    [ww] and [wl] are optional. *)
Record Request : Type := {
  requestUrl : string;
  requestWW : option Q;
  requestWL : option Q
}.

(** What a completed [onload] leaves on the canvas: the image, letterboxed
    on black, and the window applied to it, if any. Each [onload] repaints
    the whole canvas. *)
Record Drawn : Type := {
  drawnImage : string;
  drawnWindow : option (Q * Q)
}.

(** [if (ww && wl)]: both given and both non-zero. *)
Definition draw (r : Request) : Drawn :=
  {| drawnImage := requestUrl r;
     drawnWindow :=
       match requestWW r, requestWL r with
       | Some w, Some l =>
           if truthyNumber w && truthyNumber l then Some (w, l) else None
       | _, _ => None
       end |}.

Record Viewer : Type := {
  canvasMounted : bool;
  canvas : option Drawn;
  error : option string;
  currentImage : option string;
  decoding : list Request
}.

(** The callbacks of the event loop: a call of [loadAndDisplayImage], and the
    [onload] or [onerror] of the [k]-th image still decoding. [error] holds
    what [onerror] last set; the effect that sets up the viewport and clears
    it is not part of this loop, and nothing below reads the field. *)
Inductive Event : Type :=
| LoadAndDisplayImage (r : Request)
| OnLoad (k : nat)
| OnError (k : nat).

Definition step (v : Viewer) (e : Event) : Viewer :=
  match e with
  | LoadAndDisplayImage r =>
      if canvasMounted v then
        {| canvasMounted := canvasMounted v; canvas := canvas v; error := error v;
           currentImage := currentImage v; decoding := decoding v ++ [r] |}
      else v
  | OnLoad k =>
      match decoding v !! k with
      | Some r =>
          {| canvasMounted := canvasMounted v; canvas := Some (draw r);
             error := error v; currentImage := Some (requestUrl r);
             decoding := delete k (decoding v) |}
      | None => v
      end
  | OnError k =>
      match decoding v !! k with
      | Some _ =>
          {| canvasMounted := canvasMounted v; canvas := canvas v;
             error := Some "Failed to load image";
             currentImage := currentImage v; decoding := delete k (decoding v) |}
      | None => v
      end
  end.

Definition run (v : Viewer) (events : list Event) : Viewer :=
  foldl step v events.

End Viewer2D.

(** ** Sample data *)

Definition sampleFrame (i : Z) (payload : string) : DICOMFrame :=
  {| index := i; data := payload; width := 512; height := 512 |}.

Definition tenFrames : list DICOMFrame :=
  (fun i => sampleFrame (Z.of_nat i) "iVBORw0KGgo=") <$> seq 0 10.

Definition fiveFrames : list DICOMFrame := take 5 tenFrames.

Definition sampleSession : DICOMSession :=
  {| session_id := "s1"; series := []; invalid_files := []; total_series := 2 |}.

(** A per-cell store with a session, whose cell 0 shows frame 2 of series "A". *)
Definition cellAssignedState : CellStore.DICOMState :=
  CellStore.dicomReducer
    (CellStore.dicomReducer
       (CellStore.dicomReducer CellStore.initialState (CellStore.SET_SESSION sampleSession))
       (CellStore.SET_CELL_SERIES 0 "A" 2))
    (CellStore.SET_CELL_FRAMES 0 fiveFrames).

Definition cellAssignedProvider : CellGrid.Provider :=
  {| CellGrid.store := cellAssignedState; CellGrid.pending := [] |}.


(** A mounted single viewer with nothing drawn and nothing decoding. *)
Definition idleViewer : Viewer2D.Viewer :=
  {| Viewer2D.canvasMounted := true; Viewer2D.canvas := None;
     Viewer2D.error := None; Viewer2D.currentImage := None;
     Viewer2D.decoding := [] |}.

Definition request_400_50 : Viewer2D.Request :=
  {| Viewer2D.requestUrl := "data:image/png;base64,iVBORw0KGgo=";
     Viewer2D.requestWW := Some 400%Q; Viewer2D.requestWL := Some 50%Q |}.

Definition request_200_30 : Viewer2D.Request :=
  {| Viewer2D.requestUrl := "data:image/png;base64,iVBORw0KGgo=";
     Viewer2D.requestWW := Some 200%Q; Viewer2D.requestWL := Some 30%Q |}.

(** ** The frame slider of [Controls] *)

Module Controls.

(** [max={Math.max(0, frames.length - 1)}] of the frame slider, whose [min]
    is 0; its [onChange] hands the chosen value to [onFrameChange]. *)
Definition frameSliderMax (frames : list DICOMFrame) : Z :=
  Z.max 0 (jsLength frames - 1).

End Controls.

(** ** The uniform grid viewer: the update path *)

Module GridViewerUpdates.

(** One iteration of the loop of [updateAllImages (ww, wl)]. *)
Definition updateCell (frames : list DICOMFrame) (imageIds : list string)
    (currentFrameIndex : Z) (w l : Q) (i : Z) : option Composite :=
  let frameIndex := currentFrameIndex + i in
  if (frameIndex <? jsLength frames) && GridViewer.canvasRef frames currentFrameIndex i then
    match js_index imageIds frameIndex with
    | Some url =>
        if truthyString url
        then Some {| imageDataUrl := url; ww := w; wl := l |}
        else None
    | None => None
    end
  else None.

(** [updateAllImages (ww, wl)]: the composites it issues; unlike the loading
    effect it has no early return. *)
Definition updateAllImages (frames : list DICOMFrame) (imageIds : list string)
    (currentFrameIndex gridSize : Z) (w l : Q) : list (Z * Composite) :=
  omap (fun i => pair i <$> updateCell frames imageIds currentFrameIndex w l i)
       (cellIndices gridSize).

(** The effect on [windowWidth, windowLevel]:
    [if (windowWidth && windowLevel) updateAllImages (windowWidth, windowLevel)]. *)
Definition windowLevelEffect (frames : list DICOMFrame) (imageIds : list string)
    (currentFrameIndex gridSize : Z) (windowWidth windowLevel : Q)
  : list (Z * Composite) :=
  if truthyNumber windowWidth && truthyNumber windowLevel
  then updateAllImages frames imageIds currentFrameIndex gridSize windowWidth windowLevel
  else [].

(** [loadAndDisplayImage]'s [if (ww && wl)]: the window applied to the drawn
    image, if any. *)
Definition appliedWindow (c : Composite) : option (Q * Q) :=
  if truthyNumber (ww c) && truthyNumber (wl c) then Some (ww c, wl c) else None.

End GridViewerUpdates.


(** ** The provider of the single-select store: [uploadFiles], [loadSeries]
       and [loadFrame] *)

(** [xs[k] = v] on a copy of a JavaScript array, for the writes that keep it
    dense: an index within the array replaces the element, the index
    [xs.length] appends. A write further out would leave holes and a negative
    index would set a property that is no element; a list cannot hold either
    ([None]), so the embedding follows the code only for indices in
    [0 .. xs.length], where [loadFrame] is stated. *)
Definition jsArraySet {A : Type} (xs : list A) (k : Z) (v : A) : option (list A) :=
  if k <? 0 then None
  else if k <? jsLength xs then Some (<[Z.to_nat k := v]> xs)
  else if k =? jsLength xs then Some (xs ++ [v])
  else None.

Module SingleProvider.
Import SingleStore.

(** The HTTP requests of the provider, by the parts their URL is made of. *)
Inductive Request : Type :=
| PostUpload (files : list string)
| GetSeries (sessionId seriesUid : string)
| GetFrame (sessionId seriesUid : string) (frameIndex : Z).

(** A call suspended at its [await]: the request it sent and the [state] its
    closure holds, the store's state when the call was made. *)
Record PendingCall : Type := {
  request : Request;
  closure : DICOMState
}.

Record Provider : Type := {
  store : DICOMState;
  pending : list PendingCall
}.

(** A rejection carries [error.message] when it is an [Error]. *)
Inductive Event : Type :=
| UploadFiles (files : list string)
| LoadSeries (seriesUid : string)
| LoadFrame (frameIndex : Z)
| UploadResolved (k : nat) (data : DICOMSession)
| SeriesResolved (k : nat) (frames : list DICOMFrame)
| FrameResolved (k : nat) (data : DICOMFrame)
| Rejected (k : nat) (message : option string)
| Dispatch (action : DICOMAction).

Definition dispatchAll (state : DICOMState) (actions : list DICOMAction) : DICOMState :=
  foldl dicomReducer state actions.

(** [state.session.series.find (s => s.uid === seriesUid)] *)
Definition findSeries (s : DICOMSession) (seriesUid : string) : option DICOMSeries :=
  List.find (fun x => bool_decide (uid x = seriesUid)) (series s).

Definition uploadFiles_start (p : Provider) (files : list string) : Provider :=
  {| store := dispatchAll (store p) [SET_LOADING true; SET_ERROR None];
     pending := pending p ++ [{| request := PostUpload files; closure := store p |}] |}.

Definition loadSeries_start (p : Provider) (seriesUid : string) : Provider :=
  match session (store p) with
  | None => p
  | Some s =>
      {| store := dispatchAll (store p) [SET_LOADING true; SET_ERROR None];
         pending := pending p ++
           [{| request := GetSeries (session_id s) seriesUid; closure := store p |}] |}
  end.

Definition loadFrame_start (p : Provider) (frameIndex : Z) : Provider :=
  match session (store p), selectedSeries (store p) with
  | Some s, Some sel =>
      {| store := store p;
         pending := pending p ++
           [{| request := GetFrame (session_id s) (uid sel) frameIndex;
               closure := store p |}] |}
  | _, _ => p
  end.

(** The actions [loadSeries] dispatches after its [await]. *)
Definition loadSeries_resolved (c : PendingCall) (seriesUid : string)
    (frames : list DICOMFrame) : list DICOMAction :=
  match session (closure c) with
  | Some s =>
      match findSeries s seriesUid with
      | Some found => [SET_SELECTED_SERIES found; SET_FRAMES frames]
      | None => [SET_FRAMES frames]
      end
  | None => [SET_FRAMES frames]
  end.

(** The action [loadFrame] dispatches after its [await]: the copy of the
    frames its closure holds, with the fetched frame written at [frameIndex]. *)
Definition loadFrame_resolved (c : PendingCall) (frameIndex : Z) (data : DICOMFrame)
  : option DICOMAction :=
  SET_FRAMES <$> jsArraySet (frames (closure c)) frameIndex data.

(** What the [catch] of the call dispatches. *)
Definition rejected (c : PendingCall) (message : option string) : list DICOMAction :=
  match request c with
  | PostUpload _ => [SET_ERROR (Some (default "Failed to upload files" message))]
  | GetSeries _ _ => [SET_ERROR (Some (default "Failed to load series" message))]
  | GetFrame _ _ _ => []
  end.

Definition settle (p : Provider) (k : nat) (actions : list DICOMAction) : Provider :=
  {| store := dispatchAll (store p) actions; pending := delete k (pending p) |}.

(** One callback of the event loop. A resolution that does not fit the
    [k]-th pending call, or a frame write a list cannot hold, is not a
    transition of this model and leaves the provider as it is. *)
Definition step (p : Provider) (e : Event) : Provider :=
  match e with
  | UploadFiles files => uploadFiles_start p files
  | LoadSeries seriesUid => loadSeries_start p seriesUid
  | LoadFrame frameIndex => loadFrame_start p frameIndex
  | UploadResolved k data =>
      match pending p !! k with
      | Some {| request := PostUpload _ |} => settle p k [SET_SESSION data]
      | _ => p
      end
  | SeriesResolved k frames =>
      match pending p !! k with
      | Some c =>
          match request c with
          | GetSeries _ seriesUid => settle p k (loadSeries_resolved c seriesUid frames)
          | _ => p
          end
      | None => p
      end
  | FrameResolved k data =>
      match pending p !! k with
      | Some c =>
          match request c with
          | GetFrame _ _ frameIndex =>
              match loadFrame_resolved c frameIndex data with
              | Some action => settle p k [action]
              | None => p
              end
          | _ => p
          end
      | None => p
      end
  | Rejected k message =>
      match pending p !! k with
      | Some c => settle p k (rejected c message)
      | None => p
      end
  | Dispatch action =>
      {| store := dicomReducer (store p) action; pending := pending p |}
  end.

Definition run (p : Provider) (events : list Event) : Provider :=
  foldl step p events.

End SingleProvider.

(** ** [GridControls]: the per-cell controls *)

(** [Object.values (m)] for an object whose keys are array indices
    (non-negative integers): the values in ascending order of their keys.
    JavaScript lists any other key after these, in insertion order, which a
    [gmap] does not record; the cell maps are only read at the keys 0..3. *)
Definition objectValues {A : Type} (m : gmap Z A) : list A :=
  omap (fun k => m !! k) (merge_sort Z.le (elements (dom m))).

Module GridControls.
Import CellStore.

(** [handleFrameChange (cellIndex, value)]; [parsed] is [parseInt (value)],
    [None] for NaN. The prop [onSeriesChange] is a parameter; nothing is
    called for a cell without an entry. *)
Definition handleFrameChange {R : Type} (selectedSeriesForCells : gmap Z CellSeries)
    (onSeriesChange : Z -> string -> Z -> R) (cellIndex : Z) (parsed : option Z)
  : option R :=
  let frameIndex := Z.max 0 (default 0 parsed) in
  match selectedSeriesForCells !! cellIndex with
  | Some currentSeries =>
      Some (onSeriesChange cellIndex (seriesUid currentSeries) frameIndex)
  | None => None
  end.

Inductive WindowField : Set := FieldWindowWidth | FieldWindowLevel.

(** [handleWindowLevelChange (cellIndex, type, value)]; [parsed] is
    [parseFloat (value)], [None] for NaN. *)
Definition handleWindowLevelChange {R : Type} (cellWindowLevels : gmap Z CellWindowLevel)
    (onWindowLevelChange : Z -> Q -> Q -> R) (cellIndex : Z) (type : WindowField)
    (parsed : option Q) : R :=
  let numValue := default 0%Q parsed in
  let current := default defaultCellWindowLevel (cellWindowLevels !! cellIndex) in
  match type with
  | FieldWindowWidth => onWindowLevelChange cellIndex numValue (cellWindowLevel current)
  | FieldWindowLevel => onWindowLevelChange cellIndex (cellWindowWidth current) numValue
  end.

(** The uids other cells have chosen:
    [Object.values (selectedSeriesForCells).map (cell => cell.seriesUid)
       .filter ((uid, index) => index !== currentCellIndex && uid)]. *)
Definition selectedSeriesUids (selectedSeriesForCells : gmap Z CellSeries)
    (currentCellIndex : Z) : list string :=
  omap (fun entry : nat * string =>
          if bool_decide (Z.of_nat (fst entry) <> currentCellIndex)
             && truthyString (snd entry)
          then Some (snd entry) else None)
       (imap pair (seriesUid <$> objectValues selectedSeriesForCells)).

(** [getAvailableSeries (currentCellIndex)]: the series offered in the
    select box of a cell. *)
Definition getAvailableSeries (session : option DICOMSession)
    (selectedSeriesForCells : gmap Z CellSeries) (currentCellIndex : Z)
  : list DICOMSeries :=
  match session with
  | None => []
  | Some s =>
      filter (fun x => uid x ∉ selectedSeriesUids selectedSeriesForCells currentCellIndex)
             (series s)
  end.

End GridControls.

(** ** [MetadataPanel]: the example files of a series *)

Module MetadataPanel.

(** The rows of the "Example Files" section: [examples.slice (0, 5)], and the
    count of the line "... and N more files", shown when there are more than
    five; no section for an empty list. *)
Definition exampleFiles (examples : list string) : option (list string * option Z) :=
  if 0 <? jsLength examples then
    Some (take 5 examples,
          if 5 <? jsLength examples then Some (jsLength examples - 5) else None)
  else None.

End MetadataPanel.

(** ** The single viewer's effects and resize handler *)

Module Viewer2DEffects.
Import Viewer2D.

(** The effect "update window/level when props change". *)
Definition windowLevelEffect (frames : list DICOMFrame) (imageIds : list string)
    (currentFrameIndex : Z) (windowWidth windowLevel : Q) : option Request :=
  if (0 <=? currentFrameIndex) && (currentFrameIndex <? jsLength frames)
     && (0 <? jsLength imageIds) && truthyNumber windowWidth && truthyNumber windowLevel
  then
    match js_index imageIds currentFrameIndex with
    | Some url =>
        if truthyString url
        then Some {| requestUrl := url; requestWW := Some windowWidth;
                     requestWL := Some windowLevel |}
        else None
    | None => None
    end
  else None.


(** [handleResize]: the last image whose decode completed is drawn again,
    with the window/level props of the current render. *)
Definition handleResize (v : Viewer) (windowWidth windowLevel : Q) : Viewer :=
  match currentImage v with
  | Some image =>
      if canvasMounted v then
        {| canvasMounted := canvasMounted v;
           canvas := Some {| drawnImage := image;
                             drawnWindow :=
                               if truthyNumber windowWidth && truthyNumber windowLevel
                               then Some (windowWidth, windowLevel) else None |};
           error := error v; currentImage := currentImage v;
           decoding := decoding v |}
      else v
  | None => v
  end.

End Viewer2DEffects.

(** ** Upload progress (the store variant with [uploadProgress]) *)

Module UploadProgress.

(** [Math.round ((progressEvent.loaded * 100) / progressEvent.total)] *)
Definition percentCompleted (loaded total : Z) : Z :=
  Math_round (inject_Z (loaded * 100) / inject_Z total).

(** [Math.min (Math.round ((progressEvent.loaded / 1000000) * 10), 90)] *)
Definition estimatedProgress (loaded : Z) : Z :=
  Z.min (Math_round (inject_Z loaded / 1000000 * 10)) 90.

(** [onUploadProgress]: the payload of the [SET_UPLOAD_PROGRESS] it
    dispatches, if it dispatches one; [total] is [None] when the event has no
    total. *)
Definition onUploadProgress (loaded : Z) (total : option Z) : option Z :=
  match total with
  | Some t =>
      if t =? 0
      then (if 0 <? loaded then Some (estimatedProgress loaded) else None)
      else Some (percentCompleted loaded t)
  | None => if 0 <? loaded then Some (estimatedProgress loaded) else None
  end.

End UploadProgress.

(** ** The store variant with upload progress (the later revision of the
       per-cell [DICOMContext]) *)

(** [hay.includes (needle)] *)
Fixpoint includes (needle hay : string) : bool :=
  String.prefix needle hay ||
  match hay with
  | EmptyString => false
  | String _ rest => includes needle rest
  end.

Module ProgressStore.

Record DICOMState : Type := {
  session : option DICOMSession;
  selectedSeries : option DICOMSeries;
  frames : list DICOMFrame;
  currentFrameIndex : Z;
  isLoading : bool;
  error : option string;
  uploadProgress : Z;
  windowWidth : Q;
  windowLevel : Q;
  gridSize : Z;
  selectedSeriesForCells : gmap Z CellStore.CellSeries;
  cellWindowLevels : gmap Z CellStore.CellWindowLevel;
  cellFrames : gmap Z (list DICOMFrame)
}.

Inductive DICOMAction : Type :=
| SET_LOADING (payload : bool)
| SET_ERROR (payload : option string)
| SET_SESSION (payload : DICOMSession)
| SET_SELECTED_SERIES (payload : DICOMSeries)
| SET_FRAMES (payload : list DICOMFrame)
| SET_CURRENT_FRAME (payload : Z)
| SET_WINDOW_WIDTH (payload : Q)
| SET_WINDOW_LEVEL (payload : Q)
| SET_GRID_SIZE (payload : Z)
| SET_CELL_SERIES (cellIndex : Z) (seriesUid : string) (frameIndex : Z)
| SET_CELL_WINDOW_LEVEL (cellIndex : Z) (windowWidth windowLevel : Q)
| SET_CELL_FRAMES (cellIndex : Z) (frames : list DICOMFrame)
| SET_UPLOAD_PROGRESS (payload : Z)
| NEXT_FRAME
| PREV_FRAME
| RESET_VIEW.

Definition initialState : DICOMState := {|
  session := None;
  selectedSeries := None;
  frames := [];
  currentFrameIndex := 0;
  isLoading := false;
  error := None;
  uploadProgress := 0;
  windowWidth := 400;
  windowLevel := 50;
  gridSize := 1;
  selectedSeriesForCells :=
    CellStore.fourCells {| CellStore.seriesUid := ""; CellStore.frameIndex := 0 |};
  cellWindowLevels := CellStore.fourCells CellStore.defaultCellWindowLevel;
  cellFrames := CellStore.fourCells []
|}.

Definition dicomReducer (state : DICOMState) (action : DICOMAction) : DICOMState :=
  match action with
  | SET_LOADING payload =>
      {| session := session state; selectedSeries := selectedSeries state;
         frames := frames state; currentFrameIndex := currentFrameIndex state;
         isLoading := payload; error := error state;
         uploadProgress := uploadProgress state;
         windowWidth := windowWidth state; windowLevel := windowLevel state;
         gridSize := gridSize state;
         selectedSeriesForCells := selectedSeriesForCells state;
         cellWindowLevels := cellWindowLevels state;
         cellFrames := cellFrames state |}
  | SET_ERROR payload =>
      {| session := session state; selectedSeries := selectedSeries state;
         frames := frames state; currentFrameIndex := currentFrameIndex state;
         isLoading := isLoading state; error := payload;
         uploadProgress := uploadProgress state;
         windowWidth := windowWidth state; windowLevel := windowLevel state;
         gridSize := gridSize state;
         selectedSeriesForCells := selectedSeriesForCells state;
         cellWindowLevels := cellWindowLevels state;
         cellFrames := cellFrames state |}
  | SET_SESSION payload =>
      {| session := Some payload; selectedSeries := selectedSeries state;
         frames := frames state; currentFrameIndex := currentFrameIndex state;
         isLoading := isLoading state; error := None;
         uploadProgress := uploadProgress state;
         windowWidth := windowWidth state; windowLevel := windowLevel state;
         gridSize := gridSize state;
         selectedSeriesForCells := selectedSeriesForCells state;
         cellWindowLevels := cellWindowLevels state;
         cellFrames := cellFrames state |}
  | SET_SELECTED_SERIES payload =>
      {| session := session state; selectedSeries := Some payload;
         frames := frames state; currentFrameIndex := currentFrameIndex state;
         isLoading := isLoading state; error := error state;
         uploadProgress := uploadProgress state;
         windowWidth := windowWidth state; windowLevel := windowLevel state;
         gridSize := gridSize state;
         selectedSeriesForCells := selectedSeriesForCells state;
         cellWindowLevels := cellWindowLevels state;
         cellFrames := cellFrames state |}
  | SET_FRAMES payload =>
      {| session := session state; selectedSeries := selectedSeries state;
         frames := payload; currentFrameIndex := 0;
         isLoading := isLoading state; error := error state;
         uploadProgress := uploadProgress state;
         windowWidth := windowWidth state; windowLevel := windowLevel state;
         gridSize := gridSize state;
         selectedSeriesForCells := selectedSeriesForCells state;
         cellWindowLevels := cellWindowLevels state;
         cellFrames := cellFrames state |}
  | SET_CURRENT_FRAME payload =>
      {| session := session state; selectedSeries := selectedSeries state;
         frames := frames state;
         currentFrameIndex := Z.max 0 (Z.min payload (jsLength (frames state) - 1));
         isLoading := isLoading state; error := error state;
         uploadProgress := uploadProgress state;
         windowWidth := windowWidth state; windowLevel := windowLevel state;
         gridSize := gridSize state;
         selectedSeriesForCells := selectedSeriesForCells state;
         cellWindowLevels := cellWindowLevels state;
         cellFrames := cellFrames state |}
  | SET_WINDOW_WIDTH payload =>
      {| session := session state; selectedSeries := selectedSeries state;
         frames := frames state; currentFrameIndex := currentFrameIndex state;
         isLoading := isLoading state; error := error state;
         uploadProgress := uploadProgress state;
         windowWidth := payload; windowLevel := windowLevel state;
         gridSize := gridSize state;
         selectedSeriesForCells := selectedSeriesForCells state;
         cellWindowLevels := cellWindowLevels state;
         cellFrames := cellFrames state |}
  | SET_WINDOW_LEVEL payload =>
      {| session := session state; selectedSeries := selectedSeries state;
         frames := frames state; currentFrameIndex := currentFrameIndex state;
         isLoading := isLoading state; error := error state;
         uploadProgress := uploadProgress state;
         windowWidth := windowWidth state; windowLevel := payload;
         gridSize := gridSize state;
         selectedSeriesForCells := selectedSeriesForCells state;
         cellWindowLevels := cellWindowLevels state;
         cellFrames := cellFrames state |}
  | SET_GRID_SIZE payload =>
      {| session := session state; selectedSeries := selectedSeries state;
         frames := frames state; currentFrameIndex := currentFrameIndex state;
         isLoading := isLoading state; error := error state;
         uploadProgress := uploadProgress state;
         windowWidth := windowWidth state; windowLevel := windowLevel state;
         gridSize := Z.max 1 (Z.min 2 payload);
         selectedSeriesForCells := selectedSeriesForCells state;
         cellWindowLevels := cellWindowLevels state;
         cellFrames := cellFrames state |}
  | SET_CELL_SERIES cellIndex uid fi =>
      {| session := session state; selectedSeries := selectedSeries state;
         frames := frames state; currentFrameIndex := currentFrameIndex state;
         isLoading := isLoading state; error := error state;
         uploadProgress := uploadProgress state;
         windowWidth := windowWidth state; windowLevel := windowLevel state;
         gridSize := gridSize state;
         selectedSeriesForCells :=
           <[cellIndex := {| CellStore.seriesUid := uid; CellStore.frameIndex := fi |}]>
             (selectedSeriesForCells state);
         cellWindowLevels := cellWindowLevels state;
         cellFrames := cellFrames state |}
  | SET_CELL_WINDOW_LEVEL cellIndex ww wl =>
      {| session := session state; selectedSeries := selectedSeries state;
         frames := frames state; currentFrameIndex := currentFrameIndex state;
         isLoading := isLoading state; error := error state;
         uploadProgress := uploadProgress state;
         windowWidth := windowWidth state; windowLevel := windowLevel state;
         gridSize := gridSize state;
         selectedSeriesForCells := selectedSeriesForCells state;
         cellWindowLevels :=
           <[cellIndex := {| CellStore.cellWindowWidth := ww;
                             CellStore.cellWindowLevel := wl |}]>
             (cellWindowLevels state);
         cellFrames := cellFrames state |}
  | SET_CELL_FRAMES cellIndex fs =>
      {| session := session state; selectedSeries := selectedSeries state;
         frames := frames state; currentFrameIndex := currentFrameIndex state;
         isLoading := isLoading state; error := error state;
         uploadProgress := uploadProgress state;
         windowWidth := windowWidth state; windowLevel := windowLevel state;
         gridSize := gridSize state;
         selectedSeriesForCells := selectedSeriesForCells state;
         cellWindowLevels := cellWindowLevels state;
         cellFrames := <[cellIndex := fs]> (cellFrames state) |}
  | SET_UPLOAD_PROGRESS payload =>
      {| session := session state; selectedSeries := selectedSeries state;
         frames := frames state; currentFrameIndex := currentFrameIndex state;
         isLoading := isLoading state; error := error state;
         uploadProgress := payload;
         windowWidth := windowWidth state; windowLevel := windowLevel state;
         gridSize := gridSize state;
         selectedSeriesForCells := selectedSeriesForCells state;
         cellWindowLevels := cellWindowLevels state;
         cellFrames := cellFrames state |}
  | NEXT_FRAME =>
      {| session := session state; selectedSeries := selectedSeries state;
         frames := frames state;
         currentFrameIndex :=
           Z.min (currentFrameIndex state + 1) (jsLength (frames state) - 1);
         isLoading := isLoading state; error := error state;
         uploadProgress := uploadProgress state;
         windowWidth := windowWidth state; windowLevel := windowLevel state;
         gridSize := gridSize state;
         selectedSeriesForCells := selectedSeriesForCells state;
         cellWindowLevels := cellWindowLevels state;
         cellFrames := cellFrames state |}
  | PREV_FRAME =>
      {| session := session state; selectedSeries := selectedSeries state;
         frames := frames state;
         currentFrameIndex := Z.max (currentFrameIndex state - 1) 0;
         isLoading := isLoading state; error := error state;
         uploadProgress := uploadProgress state;
         windowWidth := windowWidth state; windowLevel := windowLevel state;
         gridSize := gridSize state;
         selectedSeriesForCells := selectedSeriesForCells state;
         cellWindowLevels := cellWindowLevels state;
         cellFrames := cellFrames state |}
  | RESET_VIEW =>
      {| session := session state; selectedSeries := selectedSeries state;
         frames := frames state; currentFrameIndex := currentFrameIndex state;
         isLoading := isLoading state; error := error state;
         uploadProgress := uploadProgress state;
         windowWidth := 400; windowLevel := 50;
         gridSize := gridSize state;
         selectedSeriesForCells := selectedSeriesForCells state;
         cellWindowLevels := CellStore.fourCells CellStore.defaultCellWindowLevel;
         cellFrames := cellFrames state |}
  end.

Definition dispatchAll (state : DICOMState) (actions : list DICOMAction) : DICOMState :=
  foldl dicomReducer state actions.

(** What the [catch] of [uploadFiles] is handed: an axios error with its
    [code], [message], [response.status], [response.data.message] and
    whether it has a [request]; another [Error] with its message; or
    anything else. *)
Inductive UploadError : Type :=
| AxiosError (code : option string) (message : string) (status : option Z)
    (dataMessage : option string) (hasRequest : bool)
| OtherError (message : string)
| NotAnError.

(** The [errorMessage] computed in the [catch] of [uploadFiles]. *)
Definition uploadErrorMessage (e : UploadError) : string :=
  match e with
  | AxiosError code message status dataMessage hasRequest =>
      if bool_decide (code = Some "ECONNABORTED") || includes "timeout" message then
        "Upload timed out. Please try again with smaller files or check your connection."
      else if bool_decide (status = Some 524) then
        "Upload timed out on server. Please try again or contact support."
      else
        match status with
        | Some n =>
            if n =? 0 then
              (if hasRequest
               then "No response from server. Please check your connection and try again."
               else "Failed to upload files")
            else
              "Upload failed with status " +:+ pretty n +:+ ": " +:+
              (match dataMessage with
               | Some m => if truthyString m then m else message
               | None => message
               end)
        | None =>
            if hasRequest
            then "No response from server. Please check your connection and try again."
            else "Failed to upload files"
        end
  | OtherError message => message
  | NotAnError => "Failed to upload files"
  end.

(** The calls suspended at an [await], with the state their closure holds. *)
Inductive PendingCall : Type :=
| PendingUpload
| PendingSeries (closure : DICOMState) (seriesUid : string).

(** The provider: the store, the pending calls, and the number of
    [setTimeout (..., 500)] callbacks not yet run. *)
Record Provider : Type := {
  store : DICOMState;
  pending : list PendingCall;
  timers : nat
}.

Inductive Event : Type :=
| UploadFiles
| UploadProgressed (k : nat) (loaded : Z) (total : option Z)
| UploadResolved (k : nat) (data : DICOMSession)
| UploadRejected (k : nat) (e : UploadError)
| TimerFired
| LoadSeries (seriesUid : string)
| SeriesResolved (k : nat) (frames : list DICOMFrame)
| SeriesRejected (k : nat) (message : option string).

Definition findSeries (s : DICOMSession) (seriesUid : string) : option DICOMSeries :=
  List.find (fun x => bool_decide (uid x = seriesUid)) (series s).

Definition step (p : Provider) (e : Event) : Provider :=
  match e with
  | UploadFiles =>
      {| store := dispatchAll (store p)
                    [SET_LOADING true; SET_ERROR None; SET_UPLOAD_PROGRESS 0];
         pending := pending p ++ [PendingUpload]; timers := timers p |}
  | UploadProgressed k loaded total =>
      match pending p !! k with
      | Some PendingUpload =>
          match UploadProgress.onUploadProgress loaded total with
          | Some percent =>
              {| store := dicomReducer (store p) (SET_UPLOAD_PROGRESS percent);
                 pending := pending p; timers := timers p |}
          | None => p
          end
      | _ => p
      end
  | UploadResolved k data =>
      match pending p !! k with
      | Some PendingUpload =>
          {| store := dispatchAll (store p) [SET_SESSION data; SET_UPLOAD_PROGRESS 100];
             pending := delete k (pending p); timers := S (timers p) |}
      | _ => p
      end
  | UploadRejected k e =>
      match pending p !! k with
      | Some PendingUpload =>
          {| store := dispatchAll (store p)
                        [SET_ERROR (Some (uploadErrorMessage e)); SET_LOADING false];
             pending := delete k (pending p); timers := timers p |}
      | _ => p
      end
  | TimerFired =>
      match timers p with
      | O => p
      | S n => {| store := dicomReducer (store p) (SET_LOADING false);
                  pending := pending p; timers := n |}
      end
  | LoadSeries seriesUid =>
      match session (store p) with
      | None => p
      | Some _ =>
          {| store := dispatchAll (store p) [SET_LOADING true; SET_ERROR None];
             pending := pending p ++ [PendingSeries (store p) seriesUid];
             timers := timers p |}
      end
  | SeriesResolved k fetched =>
      match pending p !! k with
      | Some (PendingSeries closure seriesUid) =>
          {| store :=
               dispatchAll (store p)
                 (match session closure with
                  | Some s =>
                      match findSeries s seriesUid with
                      | Some found => [SET_SELECTED_SERIES found; SET_FRAMES fetched]
                      | None => [SET_FRAMES fetched]
                      end
                  | None => [SET_FRAMES fetched]
                  end);
             pending := delete k (pending p); timers := timers p |}
      | _ => p
      end
  | SeriesRejected k message =>
      match pending p !! k with
      | Some (PendingSeries _ _) =>
          {| store := dicomReducer (store p)
                        (SET_ERROR (Some (default "Failed to load series" message)));
             pending := delete k (pending p); timers := timers p |}
      | _ => p
      end
  end.

Definition run (p : Provider) (events : list Event) : Provider :=
  foldl step p events.

End ProgressStore.

(** ** The canvases of the grid viewers

    Both grid viewers keep one [<canvas>] per cell that has a frame
    ([canvasRefs.current[i]]) and paint it only from [img.onload] inside
    [loadAndDisplayImage (imageDataUrl, canvas, ww, wl)]: the call captures
    the canvas element, and when the decode of its image completes it clears
    that element and draws the image with its window. No call is ever
    cancelled and no [onload] checks that it is still the latest. *)

Module GridCanvas.

(** A canvas element, named by the cell it is mounted in and the render
    that mounted it. *)
Definition Element : Type := (Z * nat)%type.

Record Grid : Type := {
  (** [canvasRefs.current]: the element mounted in each cell that has one *)
  canvasRefs : gmap Z nat;
  (** what the last [onload] on an element drew; nothing for a blank one *)
  painted : gmap Element Composite;
  (** the renders committed so far *)
  renders : nat;
  (** the calls whose image is still decoding, with the element captured *)
  decoding : list (Element * Composite)
}.


(** A render is committed: of the cells [0 .. totalCells - 1], a cell with
    a frame keeps the canvas it has or mounts a new, blank one; a cell
    without a frame, or beyond the grid, has none. *)
Definition commit (hasFrame : Z -> bool) (cells : list Z) (g : Grid) : Grid :=
  {| canvasRefs :=
       list_to_map
         ((fun i => (i, default (renders g) (canvasRefs g !! i)))
            <$> filter (fun i => hasFrame i = true) cells);
     painted := painted g;
     renders := S (renders g);
     decoding := decoding g |}.

(** A loading loop runs: each composite of the list is handed to
    [loadAndDisplayImage] with the canvas of its cell; a cell whose
    [canvasRefs.current[i]] is null is skipped. *)
Definition issue (composites : list (Z * Composite)) (g : Grid) : Grid :=
  {| canvasRefs := canvasRefs g;
     painted := painted g;
     renders := renders g;
     decoding :=
       decoding g ++
       omap (fun ic : Z * Composite =>
               (fun n => ((fst ic, n), snd ic)) <$> canvasRefs g !! fst ic)
            composites |}.





(** Every decode in flight paints its element with the composite [target]
    gives for it, and an element with a target has either such a decode in
    flight or that composite on it. *)
Definition settlesTo (target : Element -> option Composite) (g : Grid) : Prop :=
  (forall e c, (e, c) ∈ decoding g -> target e = Some c) /\
  (forall e c, target e = Some c ->
     (exists c', (e, c') ∈ decoding g) \/ painted g !! e = Some c).

End GridCanvas.

(** *** The uniform grid viewer on its canvases *)

Module GridViewerCanvas.

(** The render with the given props is committed. *)
Definition render (frames : list DICOMFrame) (currentFrameIndex gridSize : Z)
    (g : GridCanvas.Grid) : GridCanvas.Grid :=
  GridCanvas.commit (GridViewer.canvasRef frames currentFrameIndex) (cellIndices gridSize) g.

(** The effects that follow a change of the props: the window/level effect
    issues its composites at once, the loading effect after its 100 ms
    wait. *)
Definition effects (frames : list DICOMFrame) (imageIds : list string)
    (currentFrameIndex gridSize : Z) (windowWidth windowLevel : Q)
    (g : GridCanvas.Grid) : GridCanvas.Grid :=
  GridCanvas.issue
    (GridViewer.loadGridImages frames imageIds currentFrameIndex gridSize
                               windowWidth windowLevel)
    (GridCanvas.issue
       (GridViewerUpdates.windowLevelEffect frames imageIds currentFrameIndex gridSize
                                            windowWidth windowLevel)
       g).

(** A change of the props, with [imageIds] in step with [frames]: the
    render, then the effects. *)
Definition propsChange (frames : list DICOMFrame) (currentFrameIndex gridSize : Z)
    (windowWidth windowLevel : Q) (g : GridCanvas.Grid) : GridCanvas.Grid :=
  effects frames (GridViewer.imageIdsOf frames) currentFrameIndex gridSize
          windowWidth windowLevel
          (render frames currentFrameIndex gridSize g).


End GridViewerCanvas.

(** *** The per-cell grid viewer on its canvases *)

Module CellGridCanvas.

(** [frame && cellSeries?.seriesUid] of the render. *)
Definition hasCanvas (state : CellStore.DICOMState) (i : Z) : bool :=
  match CellGrid.renderedFrame state i with
  | Some _ => true
  | None => false
  end.

(** The loop shared by [updateAllImages] and [loadGridImages]: the
    composites issued, each with its cell. The viewer reads the three maps
    of cells and [gridSize] from its props. *)
Definition loadGridImages (state : CellStore.DICOMState) (gridSize : Z)
  : list (Z * Composite) :=
  omap (fun i => pair i <$> CellGrid.loadGridCell state i) (cellIndices gridSize).

Definition render (state : CellStore.DICOMState) (gridSize : Z) (g : GridCanvas.Grid)
  : GridCanvas.Grid :=
  GridCanvas.commit (hasCanvas state) (cellIndices gridSize) g.

(** The effects that follow a change of the props: [updateAllImages] at
    once, [loadGridImages] after its 100 ms wait. *)
Definition effects (state : CellStore.DICOMState) (gridSize : Z) (g : GridCanvas.Grid)
  : GridCanvas.Grid :=
  GridCanvas.issue (loadGridImages state gridSize)
                   (GridCanvas.issue (loadGridImages state gridSize) g).

(** A change of the props reaches the viewer: the render, then the
    effects. *)
Definition propsChange (state : CellStore.DICOMState) (gridSize : Z) (g : GridCanvas.Grid)
  : GridCanvas.Grid :=
  effects state gridSize (render state gridSize g).

End CellGridCanvas.



(** * Properties *)

(** ** Window/level transform: the formulas in exact arithmetic *)

Section WindowLevelFacts.

Variables windowWidth windowLevel : Q.

Let lo := windowMin windowWidth windowLevel.
Let hi := windowMax windowWidth windowLevel.

Lemma windowBranch_Below (gray : Z) :
  windowBranch windowWidth windowLevel gray = Below <-> (inject_Z gray <= lo)%Q.
Proof.
  unfold windowBranch. fold lo hi.
  destruct (Qle_bool (inject_Z gray) lo) eqn:E1.
  - apply Qle_bool_iff in E1. split; auto.
  - split.
    + destruct (Qle_bool hi (inject_Z gray)); discriminate.
    + intros H. apply Qle_bool_iff in H. congruence.
Qed.

Lemma windowBranch_Above (gray : Z) :
  windowBranch windowWidth windowLevel gray = Above <->
  (lo < inject_Z gray)%Q /\ (hi <= inject_Z gray)%Q.
Proof.
  unfold windowBranch. fold lo hi.
  destruct (Qle_bool (inject_Z gray) lo) eqn:E1.
  - apply Qle_bool_iff in E1. split; [discriminate|].
    intros [H _]. exfalso. apply (Qlt_not_le _ _ H E1).
  - assert (L : (lo < inject_Z gray)%Q).
    { apply Qnot_le_lt. intros H. apply Qle_bool_iff in H. congruence. }
    destruct (Qle_bool hi (inject_Z gray)) eqn:E2.
    + apply Qle_bool_iff in E2. tauto.
    + split; [discriminate|]. intros [_ H]. apply Qle_bool_iff in H. congruence.
Qed.

End WindowLevelFacts.

Lemma Math_round_mono (x y : Q) : (x <= y)%Q -> Math_round x <= Math_round y.
Proof. intros H. unfold Math_round. apply Qfloor_resp_le. lra. Qed.

Lemma toUint8Clamped_id (v : Z) : 0 <= v <= 255 -> toUint8Clamped v = v.
Proof. unfold toUint8Clamped. lia. Qed.

(** Induction over a raster, four samples (one pixel) at a time. *)
Lemma raster_ind (P : list Z -> Prop) :
  P [] -> (forall r, P [r]) -> (forall r g, P [r; g]) -> (forall r g b, P [r; g; b]) ->
  (forall r g b a rest, P rest -> P (r :: g :: b :: a :: rest)) ->
  forall data, P data.
Proof.
  intros H0 H1 H2 H3 H4 data.
  assert (K : P data /\ (forall a, P (a :: data)) /\ (forall b a, P (b :: a :: data))
              /\ (forall g b a, P (g :: b :: a :: data))).
  { induction data as [|x data IH].
    - repeat split; auto.
    - destruct IH as (I0 & I1 & I2 & I3). repeat split; auto. }
  apply K.
Qed.

Lemma applyWindowLevel_length (ww wl : Q) (data : list Z) :
  length (applyWindowLevel data ww wl) = length data.
Proof.
  induction data as [| | | |r g b a rest IH] using raster_ind; try reflexivity.
  simpl. rewrite IH. reflexivity.
Qed.

Local Ltac short_raster :=
  match goal with
  | |- applyWindowLevel ?d ?ww ?wl !! ?i = _ =>
      rewrite (lookup_ge_None_2 (applyWindowLevel d ww wl) i)
        by (rewrite applyWindowLevel_length; simpl; lia);
      rewrite (lookup_ge_None_2 d i) by (simpl; lia);
      destruct (i mod 4 =? 3)%nat; reflexivity
  end.

(** Sample [i] of the result: alpha slots (i = 3 mod 4) are copied, every
    other slot holds the transformed red sample of its pixel. *)
Lemma applyWindowLevel_lookup (ww wl : Q) (data : list Z) (i : nat) :
  applyWindowLevel data ww wl !! i =
  if (i mod 4 =? 3)%nat then data !! i
  else match data !! i with
       | Some _ => (fun r => toUint8Clamped (newValue ww wl r)) <$> data !! (i - i mod 4)%nat
       | None => None
       end.
Proof.
  revert i.
  induction data as [|r|r g|r g b|r g b a rest IH] using raster_ind; intros i.
  - rewrite !lookup_nil. destruct (i mod 4 =? 3)%nat; reflexivity.
  - destruct i as [|i]; [reflexivity|]. short_raster.
  - destruct i as [|[|i]]; [reflexivity..|]. short_raster.
  - destruct i as [|[|[|i]]]; [reflexivity..|]. short_raster.
  - destruct i as [|[|[|[|i]]]]; [reflexivity..|].
    change (applyWindowLevel (r :: g :: b :: a :: rest) ww wl !! S (S (S (S i))))
      with (applyWindowLevel rest ww wl !! i).
    rewrite IH.
    assert (M : (S (S (S (S i))) mod 4 = i mod 4)%nat).
    { change (S (S (S (S i)))) with (4 + i)%nat.
      rewrite <- (Nat.Div0.add_mod_idemp_l 4 i 4). reflexivity. }
    rewrite M.
    assert (L : forall j, (r :: g :: b :: a :: rest) !! S (S (S (S j))) = rest !! j)
      by reflexivity.
    rewrite L.
    assert (D : (S (S (S (S i))) - i mod 4 = S (S (S (S (i - i mod 4)))))%nat).
    { pose proof (Nat.Div0.mod_le i 4). lia. }
    rewrite D, L. reflexivity.
Qed.

(** ** Window/level transform: the code's double arithmetic *)

Module DoubleFacts.
Import Double.

Lemma pow2_pos (e : Z) : (0 < pow2 e)%Q.
Proof. apply Qpower_0_lt. reflexivity. Qed.

Lemma pow2_add (a b : Z) : (pow2 (a + b) == pow2 a * pow2 b)%Q.
Proof. apply Qpower_plus. discriminate. Qed.

Lemma pow2_le (a b : Z) : a <= b -> (pow2 a <= pow2 b)%Q.
Proof. intros H. apply Qpower_le_compat_l; [exact H | discriminate]. Qed.

Lemma pow2_lt_inv (a b : Z) : (pow2 a < pow2 b)%Q -> a < b.
Proof. intros H. apply (Qpower_lt_compat_l_inv 2); [exact H | reflexivity]. Qed.

Lemma pow2_Z (n : Z) : 0 <= n -> (inject_Z (2 ^ n) == pow2 n)%Q.
Proof. intros H. apply (Zpower_Qpower 2 n H). Qed.

(** A positive integer lies between two consecutive powers of two. *)
Lemma log2_bounds (n : Z) :
  0 < n -> (pow2 (Z.log2 n) <= inject_Z n)%Q /\ (inject_Z n < pow2 (Z.log2 n + 1))%Q.
Proof.
  intros H. pose proof (Z.log2_spec n H) as [L U].
  pose proof (Z.log2_nonneg n) as N.
  split.
  - rewrite <- pow2_Z by exact N. rewrite <- Zle_Qle. exact L.
  - rewrite <- pow2_Z by lia. rewrite <- Zlt_Qlt.
    replace (Z.log2 n + 1) with (Z.succ (Z.log2 n)) by lia. exact U.
Qed.

Lemma magnitude_spec (a : Q) :
  (0 < a)%Q -> (pow2 (magnitude a) <= a)%Q /\ (a < pow2 (magnitude a + 1))%Q.
Proof.
  intros Ha. unfold magnitude.
  destruct a as [n d]. cbn [Qnum Qden].
  assert (Hn : 0 < n).
  { unfold Qlt in Ha. cbn in Ha. lia. }
  destruct (log2_bounds n Hn) as [Ln Un].
  destruct (log2_bounds (Zpos d) eq_refl) as [Ld Ud].
  set (ln := Z.log2 n) in *. set (ld := Z.log2 (Zpos d)) in *.
  assert (Hd : (0 < inject_Z (Zpos d))%Q) by reflexivity.
  assert (E : (n # d == inject_Z n / inject_Z (Zpos d))%Q) by apply Qmake_Qdiv.
  assert (Up : (n # d < pow2 (ln - ld + 1))%Q).
  { rewrite E. apply Qlt_shift_div_r; [exact Hd|].
    apply Qlt_le_trans with (pow2 (ln + 1)); [exact Un|].
    replace (ln + 1) with ((ln - ld + 1) + ld) by lia.
    rewrite pow2_add. apply Qmult_le_l; [apply pow2_pos | exact Ld]. }
  assert (Lo : (pow2 (ln - ld - 1) <= n # d)%Q).
  { rewrite E. apply Qle_shift_div_l; [exact Hd|].
    apply Qle_trans with (pow2 ln); [|exact Ln].
    replace ln with ((ln - ld - 1) + (ld + 1)) at 2 by lia.
    rewrite pow2_add. apply Qmult_le_l; [apply pow2_pos | apply Qlt_le_weak, Ud]. }
  destruct (Qle_bool (pow2 (ln - ld)) (n # d)) eqn:B.
  - apply Qle_bool_iff in B. split; [exact B | exact Up].
  - split; [exact Lo|].
    replace (ln - ld - 1 + 1) with (ln - ld) by lia.
    apply Qnot_le_lt. intros C. apply Qle_bool_iff in C. congruence.
Qed.

Lemma magnitude_mono (a b : Q) : (0 < a)%Q -> (a <= b)%Q -> magnitude a <= magnitude b.
Proof.
  intros Ha Hab.
  destruct (magnitude_spec a Ha) as [La _].
  destruct (magnitude_spec b) as [_ Ub]; [lra|].
  assert (pow2 (magnitude a) < pow2 (magnitude b + 1))%Q by lra.
  apply pow2_lt_inv in H. lia.
Qed.

Lemma exponent_mono (a b : Q) : (0 < a)%Q -> (a <= b)%Q -> exponent a <= exponent b.
Proof. intros Ha Hab. unfold exponent. pose proof (magnitude_mono a b Ha Hab). lia. Qed.

Lemma exponent_min (a : Q) : -1074 <= exponent a.
Proof. unfold exponent. lia. Qed.

(** *** Rounding to the nearest integer, halves to even *)

Lemma roundHalfEven_cases (q : Q) :
  roundHalfEven q = Qfloor q \/ roundHalfEven q = Qfloor q + 1.
Proof.
  unfold roundHalfEven.
  destruct (q - inject_Z (Qfloor q) ?= 1 # 2)%Q; [destruct (Z.even (Qfloor q))|..]; auto.
Qed.

Lemma roundHalfEven_mono (p q : Q) : (p <= q)%Q -> roundHalfEven p <= roundHalfEven q.
Proof.
  intros H. pose proof (Qfloor_resp_le p q H) as F.
  destruct (Z.eq_dec (Qfloor p) (Qfloor q)) as [E|N].
  - unfold roundHalfEven. rewrite E.
    destruct (Qcompare_spec (p - inject_Z (Qfloor q)) (1 # 2)) as [C1|C1|C1];
      destruct (Qcompare_spec (q - inject_Z (Qfloor q)) (1 # 2)) as [C2|C2|C2];
      try (destruct (Z.even (Qfloor q))); try lia; exfalso; try lra.
  - destruct (roundHalfEven_cases p) as [-> | ->];
      destruct (roundHalfEven_cases q) as [-> | ->]; lia.
Qed.

Lemma roundHalfEven_Z (n : Z) : roundHalfEven (inject_Z n) = n.
Proof.
  unfold roundHalfEven. rewrite Qfloor_Z.
  destruct (Qcompare_spec (inject_Z n - inject_Z n) (1 # 2)) as [C|C|C]; try reflexivity;
    exfalso; lra.
Qed.

Lemma roundHalfEven_lower (n : Z) (q : Q) : (inject_Z n <= q)%Q -> n <= roundHalfEven q.
Proof. intros H. rewrite <- (roundHalfEven_Z n). apply roundHalfEven_mono, H. Qed.

Lemma roundHalfEven_upper (n : Z) (q : Q) : (q <= inject_Z n)%Q -> roundHalfEven q <= n.
Proof. intros H. rewrite <- (roundHalfEven_Z n). apply roundHalfEven_mono, H. Qed.

(** *** Rounding a positive rational to a double *)

Lemma scaled_lt (a : Q) : (0 < a)%Q -> (a / pow2 (exponent a) < inject_Z (2 ^ 53))%Q.
Proof.
  intros Ha. destruct (magnitude_spec a Ha) as [_ U].
  apply Qlt_shift_div_r; [apply pow2_pos|].
  rewrite pow2_Z by lia. rewrite <- pow2_add.
  apply Qlt_le_trans with (pow2 (magnitude a + 1)); [exact U|].
  apply pow2_le. unfold exponent. lia.
Qed.

Lemma scaled_ge (a : Q) :
  (0 < a)%Q -> -1074 < exponent a -> (inject_Z (2 ^ 52) <= a / pow2 (exponent a))%Q.
Proof.
  intros Ha He. destruct (magnitude_spec a Ha) as [L _].
  apply Qle_shift_div_l; [apply pow2_pos|].
  rewrite pow2_Z by lia. rewrite <- pow2_add.
  replace (52 + exponent a) with (magnitude a) by (unfold exponent in *; lia).
  exact L.
Qed.

Lemma roundPositive_nonneg (a : Q) : (0 < a)%Q -> (0 <= roundPositive a)%Q.
Proof.
  intros Ha. unfold roundPositive.
  apply Qmult_le_0_compat; [|apply Qlt_le_weak, pow2_pos].
  change 0%Q with (inject_Z 0). rewrite <- Zle_Qle. apply roundHalfEven_lower.
  apply Qle_shift_div_l; [apply pow2_pos|]. change (inject_Z 0) with 0%Q. lra.
Qed.

Lemma roundPositive_mono (a b : Q) :
  (0 < a)%Q -> (a <= b)%Q -> (roundPositive a <= roundPositive b)%Q.
Proof.
  intros Ha Hab. assert (Hb : (0 < b)%Q) by lra.
  pose proof (exponent_mono a b Ha Hab) as He.
  unfold roundPositive.
  destruct (Z.eq_dec (exponent a) (exponent b)) as [E|N].
  - rewrite E. apply Qmult_le_r; [apply pow2_pos|].
    rewrite <- Zle_Qle. apply roundHalfEven_mono.
    unfold Qdiv. apply Qmult_le_r; [apply Qinv_lt_0_compat, pow2_pos | exact Hab].
  - apply Qle_trans with (pow2 (exponent a + 53)).
    + replace (exponent a + 53) with (53 + exponent a) by lia.
      rewrite pow2_add. apply Qmult_le_r; [apply pow2_pos|].
      rewrite <- (pow2_Z 53) by lia. rewrite <- Zle_Qle.
      apply roundHalfEven_upper, Qlt_le_weak, scaled_lt, Ha.
    + apply Qle_trans with (pow2 (52 + exponent b)); [apply pow2_le; lia|].
      rewrite pow2_add. apply Qmult_le_r; [apply pow2_pos|].
      rewrite <- (pow2_Z 52) by lia. rewrite <- Zle_Qle.
      apply roundHalfEven_lower, scaled_ge; [exact Hb | pose proof (exponent_min a); lia].
Qed.

(** A positive rational of at least 2^-1074 does not round to zero. *)
Lemma roundPositive_pos (a : Q) : (pow2 (-1074) <= a)%Q -> (0 < roundPositive a)%Q.
Proof.
  intros H. assert (Ha : (0 < a)%Q) by (pose proof (pow2_pos (-1074)); lra).
  unfold roundPositive.
  apply Qmult_lt_0_compat; [|apply pow2_pos].
  change 0%Q with (inject_Z 0). rewrite <- Zlt_Qlt.
  assert (1 <= roundHalfEven (a / pow2 (exponent a))); [|lia].
  apply roundHalfEven_lower.
  destruct (Z.eq_dec (exponent a) (-1074)) as [E|N].
  - rewrite E. apply Qle_shift_div_l; [apply pow2_pos|].
    change (inject_Z 1) with 1%Q. lra.
  - apply Qle_trans with (inject_Z (2 ^ 52)); [rewrite <- Zle_Qle; lia|].
    apply scaled_ge; [exact Ha | pose proof (exponent_min a); lia].
Qed.

Lemma le_spec (x y : double) :
  le x y = true <->
  isNaN x = false /\ isNaN y = false /\
  (level x < level y \/ (level x = level y /\ (value x <= value y)%Q)).
Proof.
  unfold le, compare.
  destruct x as [|[|]|a|p]; destruct y as [|[|]|b|q]; cbn [isNaN level value];
    try (split; [discriminate | intros (? & ? & ?); discriminate]);
    try (split; [intros _; repeat split; lia | reflexivity]);
    try (split; [discriminate | intros (_ & _ & [?|[? _]]); lia]);
    try (split; [intros _; repeat split; right; split; [reflexivity | apply Qle_refl]
                | reflexivity]).
  all: match goal with
       | |- context [(?a ?= ?b)%Q] => destruct (Qcompare_spec a b) as [C|C|C]
       end.
  all: split;
    [ first [discriminate | intros _; repeat split; right; split; [reflexivity | lra]]
    | first [reflexivity | intros (_ & _ & [?|[_ ?]]); [lia | lra]] ].
Qed.

Lemma lt_spec (x y : double) :
  lt x y = true <->
  isNaN x = false /\ isNaN y = false /\
  (level x < level y \/ (level x = level y /\ (value x < value y)%Q)).
Proof.
  unfold lt, compare.
  destruct x as [|[|]|a|p]; destruct y as [|[|]|b|q]; cbn [isNaN level value];
    try (split; [discriminate | intros (? & ? & ?); discriminate]);
    try (split; [intros _; repeat split; lia | reflexivity]);
    try (split; [discriminate | intros (_ & _ & [?|[? ?]]); first [lia | lra]]).
  all: match goal with
       | |- context [(?a ?= ?b)%Q] => destruct (Qcompare_spec a b) as [C|C|C]
       end.
  all: split;
    [ first [discriminate | intros _; repeat split; right; split; [reflexivity | lra]]
    | first [reflexivity | intros (_ & _ & [?|[_ ?]]); [lia | lra]] ].
Qed.

Lemma le_trans (x y z : double) : le x y = true -> le y z = true -> le x z = true.
Proof.
  rewrite !le_spec. intros (Nx & Ny & H1) (_ & Nz & H2).
  repeat split; try assumption.
  destruct H1 as [H1|[H1 V1]]; destruct H2 as [H2|[H2 V2]]; try (left; lia).
  right. split; [lia | lra].
Qed.

Lemma le_refl (x : double) : isNaN x = false -> le x x = true.
Proof. intros N. apply le_spec. repeat split; try assumption. right. split; [reflexivity | lra]. Qed.

(** Two numbers that are not NaN are comparable. *)
Lemma le_false (x y : double) :
  isNaN x = false -> isNaN y = false -> le x y = false -> lt y x = true.
Proof.
  intros Nx Ny H. apply lt_spec. repeat split; try assumption.
  destruct (Z_lt_le_dec (level y) (level x)) as [L|L]; [left; exact L|].
  destruct (Z.eq_dec (level x) (level y)) as [E|E].
  - right. split; [lia|]. apply Qnot_le_lt. intros C.
    assert (le x y = true); [|congruence].
    apply le_spec. repeat split; try assumption. right. split; assumption.
  - assert (le x y = true); [|congruence].
    apply le_spec. repeat split; try assumption. left. lia.
Qed.

Lemma lt_le (x y : double) : lt x y = true -> le x y = true.
Proof.
  rewrite lt_spec, le_spec. intros (Nx & Ny & [H|[H V]]); repeat split; auto.
  right. split; [exact H | lra].
Qed.

Lemma lt_le_trans (x y z : double) : lt x y = true -> le y z = true -> lt x z = true.
Proof.
  rewrite !lt_spec, le_spec. intros (Nx & Ny & H1) (_ & Nz & H2).
  repeat split; try assumption.
  destruct H1 as [H1|[H1 V1]]; destruct H2 as [H2|[H2 V2]]; try (left; lia).
  right. split; [lia | lra].
Qed.

Lemma lt_not_le (x y : double) : lt x y = true -> le y x = false.
Proof.
  rewrite lt_spec. intros (Nx & Ny & H).
  destruct (le y x) eqn:E; [|reflexivity].
  apply le_spec in E. destruct E as (_ & _ & E).
  destruct H as [H|[H V]]; destruct E as [E|[E W]]; try lia. lra.
Qed.

(** *** Rounding a rational to a double *)

Lemma ofQ_zero (q : Q) : (q == 0)%Q -> ofQ q = Zero false.
Proof.
  intros H. unfold ofQ.
  destruct (Qcompare_spec q 0) as [C|C|C]; [reflexivity | exfalso; lra | exfalso; lra].
Qed.

Lemma ofQ_pos (q : Q) :
  (0 < q)%Q ->
  isNaN (ofQ q) = false /\
  ((level (ofQ q) = 1 /\ (pow2 1024 <= roundPositive q)%Q /\ value (ofQ q) = 0%Q) \/
   (level (ofQ q) = 0 /\ (value (ofQ q) == roundPositive q)%Q /\
    (roundPositive q < pow2 1024)%Q)).
Proof.
  intros H. unfold ofQ.
  destruct (Qcompare_spec q 0) as [S|S|S]; [exfalso; lra | exfalso; lra |]. cbv zeta.
  destruct (Qeq_bool (roundPositive q) 0) eqn:E0.
  - apply Qeq_bool_iff in E0. split; [reflexivity|]. right. cbn [level value].
    split; [reflexivity|]. split; [symmetry; exact E0|]. rewrite E0. apply pow2_pos.
  - destruct (Qle_bool (pow2 1024) (roundPositive q)) eqn:E1.
    + apply Qle_bool_iff in E1. split; [reflexivity|]. left. auto.
    + split; [reflexivity|]. right. cbn [level value].
      split; [reflexivity|]. split; [apply Qred_correct|].
      apply Qnot_le_lt. intros C. apply Qle_bool_iff in C. congruence.
Qed.

Lemma ofQ_neg (q : Q) :
  (q < 0)%Q ->
  isNaN (ofQ q) = false /\
  ((level (ofQ q) = -1 /\ (pow2 1024 <= roundPositive (- q))%Q /\ value (ofQ q) = 0%Q) \/
   (level (ofQ q) = 0 /\ (value (ofQ q) == - roundPositive (- q))%Q /\
    (roundPositive (- q) < pow2 1024)%Q)).
Proof.
  intros H. unfold ofQ.
  destruct (Qcompare_spec q 0) as [S|S|S]; [exfalso; lra | | exfalso; lra]. cbv zeta.
  destruct (Qeq_bool (roundPositive (- q)) 0) eqn:E0.
  - apply Qeq_bool_iff in E0. split; [reflexivity|]. right. cbn [level value].
    split; [reflexivity|]. split; [rewrite E0; reflexivity|]. rewrite E0. apply pow2_pos.
  - destruct (Qle_bool (pow2 1024) (roundPositive (- q))) eqn:E1.
    + apply Qle_bool_iff in E1. split; [reflexivity|]. left. auto.
    + split; [reflexivity|]. right. cbn [level value].
      split; [reflexivity|]. split; [apply Qred_correct|].
      apply Qnot_le_lt. intros C. apply Qle_bool_iff in C. congruence.
Qed.

Lemma ofQ_isNaN (q : Q) : isNaN (ofQ q) = false.
Proof.
  destruct (Qcompare_spec q 0) as [C|C|C].
  - rewrite ofQ_zero by exact C. reflexivity.
  - apply ofQ_neg, C.
  - apply ofQ_pos, C.
Qed.

(** Rounding is monotonic. *)
Lemma ofQ_mono (p q : Q) : (p <= q)%Q -> le (ofQ p) (ofQ q) = true.
Proof.
  intros H. apply le_spec. split; [apply ofQ_isNaN|]. split; [apply ofQ_isNaN|].
  destruct (Qcompare_spec p 0) as [Cp|Cp|Cp]; destruct (Qcompare_spec q 0) as [Cq|Cq|Cq];
    try (exfalso; lra).
  - rewrite !ofQ_zero by assumption. right. split; [reflexivity | apply Qle_refl].
  - rewrite (ofQ_zero p) by assumption. cbn [level value].
    destruct (ofQ_pos q Cq) as (_ & [(L & _ & _)|(L & V & _)]); [left; lia|].
    right. split; [lia|]. rewrite V. apply roundPositive_nonneg, Cq.
  - rewrite (ofQ_zero q) by assumption. cbn [level value].
    destruct (ofQ_neg p Cp) as (_ & [(L & _ & _)|(L & V & _)]); [left; lia|].
    right. split; [lia|]. rewrite V.
    assert (0 <= roundPositive (- p))%Q by (apply roundPositive_nonneg; lra). lra.
  - assert (M : (roundPositive (- q) <= roundPositive (- p))%Q)
      by (apply roundPositive_mono; lra).
    destruct (ofQ_neg p Cp) as (_ & [(Lp & Bp & Vp)|(Lp & Vp & Bp)]);
      destruct (ofQ_neg q Cq) as (_ & [(Lq & Bq & Vq)|(Lq & Vq & Bq)]).
    + right. split; [lia|]. rewrite Vp, Vq. apply Qle_refl.
    + left. lia.
    + exfalso. lra.
    + right. split; [lia|]. rewrite Vp, Vq. lra.
  - destruct (ofQ_neg p Cp) as (_ & [(Lp & _ & _)|(Lp & Vp & _)]);
      destruct (ofQ_pos q Cq) as (_ & [(Lq & _ & _)|(Lq & Vq & _)]); try (left; lia).
    right. split; [lia|]. rewrite Vp, Vq.
    assert (0 <= roundPositive (- p))%Q by (apply roundPositive_nonneg; lra).
    assert (0 <= roundPositive q)%Q by (apply roundPositive_nonneg; lra). lra.
  - assert (M : (roundPositive p <= roundPositive q)%Q)
      by (apply roundPositive_mono; lra).
    destruct (ofQ_pos p Cp) as (_ & [(Lp & Bp & Vp)|(Lp & Vp & Bp)]);
      destruct (ofQ_pos q Cq) as (_ & [(Lq & Bq & Vq)|(Lq & Vq & Bq)]).
    + right. split; [lia|]. rewrite Vp, Vq. apply Qle_refl.
    + exfalso. lra.
    + left. lia.
    + right. split; [lia|]. rewrite Vp, Vq. lra.
Qed.

(** A finite result of rounding is a multiple of 2^-1074. *)
Lemma roundPositive_onGrid (a : Q) : onGrid (roundPositive a).
Proof.
  unfold roundPositive.
  exists (roundHalfEven (a / pow2 (exponent a)) * 2 ^ (exponent a + 1074)).
  rewrite inject_Z_mult, pow2_Z by (pose proof (exponent_min a); lia).
  rewrite <- Qmult_assoc, <- pow2_add.
  replace (exponent a + 1074 + -1074) with (exponent a) by lia. reflexivity.
Qed.

Lemma onGrid_0 : onGrid 0.
Proof. exists 0. reflexivity. Qed.

Lemma ofQ_onGrid (q : Q) : onGrid (value (ofQ q)).
Proof.
  destruct (Qcompare_spec q 0) as [C|C|C].
  - rewrite ofQ_zero by exact C. apply onGrid_0.
  - destruct (ofQ_neg q C) as (_ & [(_ & _ & V)|(_ & V & _)]).
    + rewrite V. apply onGrid_0.
    + destruct (roundPositive_onGrid (- q)) as [k E]. exists (- k).
      rewrite V, E, inject_Z_opp. ring.
  - destruct (ofQ_pos q C) as (_ & [(_ & _ & V)|(_ & V & _)]).
    + rewrite V. apply onGrid_0.
    + destruct (roundPositive_onGrid q) as [k E]. exists k. rewrite V. exact E.
Qed.

Lemma same_le (x x' y y' : double) :
  same x x' -> same y y' -> le x' y' = true -> le x y = true.
Proof.
  intros (N1 & L1 & V1) (N2 & L2 & V2). rewrite !le_spec.
  rewrite N1, N2, L1, L2, V1, V2. tauto.
Qed.

Lemma same_refl (x : double) : same x x.
Proof. repeat split. Qed.

Lemma onGrid_plus (p q : Q) : onGrid p -> onGrid q -> onGrid (p + q).
Proof.
  intros [k Ek] [j Ej]. exists (k + j). rewrite Ek, Ej, inject_Z_plus. ring.
Qed.

Lemma ofQ_grid_pos (r : Q) :
  onGrid r -> (0 < r)%Q ->
  isNaN (ofQ r) = false /\
  (level (ofQ r) = 1 \/ (level (ofQ r) = 0 /\ (0 < value (ofQ r))%Q)).
Proof.
  intros G P.
  assert (E : (r == r - 0)%Q) by ring.
  destruct G as [k Ek].
  assert (B : (pow2 (-1074) <= r)%Q).
  { rewrite Ek. rewrite Ek in P.
    assert (0 < k).
    { destruct (Z_lt_le_dec 0 k) as [L|L]; [exact L|exfalso].
      assert (inject_Z k <= 0)%Q
        by (change 0%Q with (inject_Z 0); rewrite <- Zle_Qle; exact L).
      pose proof (pow2_pos (-1074)).
      assert (inject_Z k * pow2 (-1074) <= 0 * pow2 (-1074))%Q
        by (apply Qmult_le_r; assumption).
      lra. }
    rewrite <- (Qmult_1_l (pow2 (-1074))) at 1.
    apply Qmult_le_r; [apply pow2_pos|].
    change 1%Q with (inject_Z 1). rewrite <- Zle_Qle. lia. }
  destruct (ofQ_pos _ P) as (N & [(L & _ & _)|(L & V & _)]); split; auto.
  right. split; [exact L|]. rewrite V. apply roundPositive_pos, B.
Qed.

(** *** The operations on finite numbers round the exact result *)

Lemma value_neg (x : double) : (value (neg x) == - value x)%Q.
Proof. destruct x; cbn; try reflexivity. Qed.

Lemma isFinite_neg (x : double) : isFinite (neg x) = isFinite x.
Proof. destruct x; reflexivity. Qed.

Lemma isNaN_neg (x : double) : isNaN (neg x) = isNaN x.
Proof. destruct x; reflexivity. Qed.

Lemma finite_level (x : double) : isFinite x = true -> level x = 0 /\ isNaN x = false.
Proof. destruct x; try discriminate; auto. Qed.

Lemma level_0_finite (x : double) : isNaN x = false -> level x = 0 -> isFinite x = true.
Proof. destruct x as [|[|]| |]; try discriminate; auto. Qed.

Lemma add_finite (x y : double) :
  isFinite x = true -> isFinite y = true -> same (add x y) (ofQ (value x + value y)).
Proof.
  destruct x as [| |a|p]; destruct y as [| |b|q]; try discriminate; intros _ _;
    try apply same_refl.
  cbn [add value]. rewrite ofQ_zero by reflexivity. repeat split.
Qed.

Lemma sub_finite (x y : double) :
  isFinite x = true -> isFinite y = true -> same (sub x y) (ofQ (value x + value (neg y))).
Proof. intros Hx Hy. apply add_finite; [exact Hx | rewrite isFinite_neg; exact Hy]. Qed.

Lemma add_onGrid (x y : double) : onGrid (value (add x y)).
Proof.
  destruct x as [|[|]|a|p]; destruct y as [|[|]|b|q]; cbn [add value Bool.eqb negb];
    try apply onGrid_0; apply ofQ_onGrid.
Qed.

Lemma isZero_false (x : double) :
  isFinite x = true -> ~ (value x == 0)%Q -> isZero x = false.
Proof.
  destruct x as [| |a|p]; try discriminate; intros _ H; cbn [value isZero] in *.
  - exfalso. apply H. reflexivity.
  - destruct (Qeq_bool p 0) eqn:E; [|reflexivity].
    apply Qeq_bool_iff in E. contradiction.
Qed.

Lemma isZero_true (x : double) : isZero x = true -> (value x == 0)%Q.
Proof.
  destruct x as [| |a|p]; try discriminate; intros H; cbn [value isZero] in *; [reflexivity|].
  apply Qeq_bool_iff, H.
Qed.

Lemma negative_false (x : double) :
  isFinite x = true -> (0 < value x)%Q -> negative x = false.
Proof.
  destruct x as [| |a|p]; try discriminate; intros _ H; cbn [value negative] in *.
  destruct (Qcompare_spec p 0) as [C|C|C]; try reflexivity. exfalso. lra.
Qed.

Lemma div_finite (x y : double) :
  isFinite x = true -> isFinite y = true -> ~ (value y == 0)%Q ->
  same (div x y) (ofQ (value x / value y)).
Proof.
  intros Hx Hy Hv. pose proof (isZero_false y Hy Hv) as Zy.
  assert (E : div x y = if isZero x then Zero (xorb (negative x) (negative y))
                        else ofQ (value x / value y)).
  { destruct x as [| |a|p]; destruct y as [| |b|q]; try discriminate;
      cbn [div]; rewrite Zy; reflexivity. }
  rewrite E. destruct (isZero x) eqn:Zx; [|apply same_refl].
  apply isZero_true in Zx. rewrite ofQ_zero; [repeat split|].
  rewrite Zx. unfold Qdiv. ring.
Qed.

Lemma mul_finite (x y : double) :
  isFinite x = true -> isFinite y = true ->
  same (mul x y) (ofQ (value x * value y)).
Proof.
  intros Hx Hy.
  assert (E : mul x y = if isZero x || isZero y then Zero (xorb (negative x) (negative y))
                        else ofQ (value x * value y)).
  { destruct x as [| |a|p]; destruct y as [| |b|q]; try discriminate; reflexivity. }
  rewrite E. destruct (isZero x) eqn:Zx; [|destruct (isZero y) eqn:Zy; [|apply same_refl]];
    cbn [orb].
  - apply isZero_true in Zx. rewrite ofQ_zero; [repeat split|]. rewrite Zx. ring.
  - apply isZero_true in Zy. rewrite ofQ_zero; [repeat split|]. rewrite Zy. ring.
Qed.

Lemma le_values (x y : double) :
  isFinite x = true -> isFinite y = true -> le x y = true -> (value x <= value y)%Q.
Proof.
  intros Hx Hy H. apply le_spec in H. destruct H as (_ & _ & [H|[_ H]]); [|exact H].
  apply finite_level in Hx. apply finite_level in Hy. lia.
Qed.

Lemma ofQ_mono_same (x y : double) (p q : Q) :
  same x (ofQ p) -> same y (ofQ q) -> (p <= q)%Q -> le x y = true.
Proof. intros Sx Sy H. apply (same_le _ _ _ _ Sx Sy), ofQ_mono, H. Qed.

(** *** Monotonicity of the operations of the transform *)

Lemma sub_mono_l (x1 x2 m : double) :
  isFinite x1 = true -> isFinite x2 = true -> isNaN m = false -> le x1 x2 = true ->
  le (sub x1 m) (sub x2 m) = true.
Proof.
  intros H1 H2 Nm H. pose proof (le_values _ _ H1 H2 H) as V.
  destruct (isFinite m) eqn:Fm.
  - apply (ofQ_mono_same _ _ _ _ (sub_finite _ _ H1 Fm) (sub_finite _ _ H2 Fm)). lra.
  - destruct m as [|s| |]; try discriminate.
    destruct x1 as [| | |]; destruct x2 as [| | |]; try discriminate; destruct s; reflexivity.
Qed.

Lemma le_Infinity (z : double) : isNaN z = false -> le z (Infinity false) = true.
Proof. destruct z as [|[|]| |]; try discriminate; reflexivity. Qed.

Lemma Infinity_le (z : double) : isNaN z = false -> le (Infinity true) z = true.
Proof. destruct z as [|[|]| |]; try discriminate; reflexivity. Qed.

Lemma add_Infinity_r (x : double) (s : bool) :
  isFinite x = true -> add x (Infinity s) = Infinity s.
Proof. destruct x; try discriminate; reflexivity. Qed.

Lemma add_isNaN (x y : double) :
  isFinite x = true -> isNaN y = false -> isNaN (add x y) = false.
Proof.
  intros Hx Ny. destruct (isFinite y) eqn:Fy.
  - destruct (add_finite x y Hx Fy) as (N & _). rewrite N. apply ofQ_isNaN.
  - destruct y as [|s| |]; try discriminate. rewrite add_Infinity_r by exact Hx. reflexivity.
Qed.

Lemma le_isNaN (x y : double) : le x y = true -> isNaN x = false /\ isNaN y = false.
Proof. rewrite le_spec. tauto. Qed.

Lemma add_mono_r (x y1 y2 : double) :
  isFinite x = true -> le y1 y2 = true -> le (add x y1) (add x y2) = true.
Proof.
  intros Hx H. destruct (le_isNaN _ _ H) as [N1 N2].
  destruct (isFinite y1) eqn:F1; destruct (isFinite y2) eqn:F2.
  - pose proof (le_values _ _ F1 F2 H) as V.
    apply (ofQ_mono_same _ _ _ _ (add_finite _ _ Hx F1) (add_finite _ _ Hx F2)). lra.
  - destruct y2 as [|[|]| |]; try discriminate.
    + destruct y1 as [| | |]; discriminate.
    + rewrite (add_Infinity_r x false) by exact Hx. apply le_Infinity, add_isNaN; assumption.
  - destruct y1 as [|[|]| |]; try discriminate.
    + rewrite (add_Infinity_r x true) by exact Hx. apply Infinity_le, add_isNaN; assumption.
    + destruct y2 as [| | |]; discriminate.
  - destruct y1 as [|[|]| |]; try discriminate;
      destruct y2 as [|[|]| |]; try discriminate;
      rewrite !add_Infinity_r by exact Hx; reflexivity.
Qed.

Lemma div_Infinity_l (s : bool) (d : double) :
  isFinite d = true -> (0 < value d)%Q -> div (Infinity s) d = Infinity s.
Proof.
  intros Hd Hv. pose proof (negative_false d Hd Hv) as N.
  destruct d as [| | |q]; try discriminate; cbn [div]; rewrite N;
    destruct s; reflexivity.
Qed.

Lemma div_isNaN (n d : double) :
  isNaN n = false -> isFinite d = true -> (0 < value d)%Q -> isNaN (div n d) = false.
Proof.
  intros Nn Hd Hv. destruct (isFinite n) eqn:Fn.
  - destruct (div_finite n d Fn Hd) as (N & _); [lra|]. rewrite N. apply ofQ_isNaN.
  - destruct n as [|s| |]; try discriminate. rewrite div_Infinity_l by assumption. reflexivity.
Qed.

Lemma div_mono_l (n1 n2 d : double) :
  isFinite d = true -> (0 < value d)%Q -> le n1 n2 = true ->
  le (div n1 d) (div n2 d) = true.
Proof.
  intros Hd Hv H. destruct (le_isNaN _ _ H) as [N1 N2].
  assert (Hz : ~ (value d == 0)%Q) by lra.
  destruct (isFinite n1) eqn:F1; destruct (isFinite n2) eqn:F2.
  - pose proof (le_values _ _ F1 F2 H) as V.
    apply (ofQ_mono_same _ _ _ _ (div_finite _ _ F1 Hd Hz) (div_finite _ _ F2 Hd Hz)).
    unfold Qdiv. apply Qmult_le_r; [apply Qinv_lt_0_compat, Hv | exact V].
  - destruct n2 as [|[|]| |]; try discriminate.
    + destruct n1 as [| | |]; discriminate.
    + rewrite (div_Infinity_l false) by assumption. apply le_Infinity, div_isNaN; assumption.
  - destruct n1 as [|[|]| |]; try discriminate.
    + rewrite (div_Infinity_l true) by assumption. apply Infinity_le, div_isNaN; assumption.
    + destruct n2 as [| | |]; discriminate.
  - destruct n1 as [|[|]| |]; try discriminate;
      destruct n2 as [|[|]| |]; try discriminate;
      rewrite !div_Infinity_l by assumption; reflexivity.
Qed.

Lemma mul_Infinity_l (s : bool) (c : double) :
  isFinite c = true -> (0 < value c)%Q -> mul (Infinity s) c = Infinity s.
Proof.
  intros Hc Hv. pose proof (negative_false c Hc Hv) as N.
  assert (Z : isZero c = false) by (apply isZero_false; [exact Hc | lra]).
  destruct c as [| | |q]; try discriminate; cbn [mul]; rewrite Z, N;
    destruct s; reflexivity.
Qed.

Lemma mul_isNaN (x c : double) :
  isNaN x = false -> isFinite c = true -> (0 < value c)%Q -> isNaN (mul x c) = false.
Proof.
  intros Nx Hc Hv. destruct (isFinite x) eqn:Fx.
  - destruct (mul_finite x c Fx Hc) as (N & _). rewrite N. apply ofQ_isNaN.
  - destruct x as [|s| |]; try discriminate. rewrite mul_Infinity_l by assumption. reflexivity.
Qed.

Lemma mul_mono_l (x1 x2 c : double) :
  isFinite c = true -> (0 < value c)%Q -> le x1 x2 = true ->
  le (mul x1 c) (mul x2 c) = true.
Proof.
  intros Hc Hv H. destruct (le_isNaN _ _ H) as [N1 N2].
  destruct (isFinite x1) eqn:F1; destruct (isFinite x2) eqn:F2.
  - pose proof (le_values _ _ F1 F2 H) as V.
    apply (ofQ_mono_same _ _ _ _ (mul_finite _ _ F1 Hc) (mul_finite _ _ F2 Hc)).
    apply Qmult_le_r; assumption.
  - destruct x2 as [|[|]| |]; try discriminate.
    + destruct x1 as [| | |]; discriminate.
    + rewrite (mul_Infinity_l false) by assumption. apply le_Infinity, mul_isNaN; assumption.
  - destruct x1 as [|[|]| |]; try discriminate.
    + rewrite (mul_Infinity_l true) by assumption. apply Infinity_le, mul_isNaN; assumption.
    + destruct x2 as [| | |]; discriminate.
  - destruct x1 as [|[|]| |]; try discriminate;
      destruct x2 as [|[|]| |]; try discriminate;
      rewrite !mul_Infinity_l by assumption; reflexivity.
Qed.

Lemma Math_round_class (x : double) :
  isNaN (Math_round x) = isNaN x /\ level (Math_round x) = level x /\
  (value (Math_round x) == inject_Z (Qfloor (value x + (1 # 2))))%Q.
Proof.
  destruct x as [|s|s|q]; cbn [Math_round isNaN level value]; try (repeat split; fail).
  destruct (Z.eqb_spec (Qfloor (q + (1 # 2))) 0) as [E|E]; cbn [isNaN level value].
  - rewrite E. repeat split.
  - repeat split.
Qed.

Lemma Math_round_monotone (x y : double) :
  le x y = true -> le (Math_round x) (Math_round y) = true.
Proof.
  rewrite !le_spec. intros (Nx & Ny & H).
  destruct (Math_round_class x) as (N1 & L1 & V1).
  destruct (Math_round_class y) as (N2 & L2 & V2).
  rewrite N1, N2, L1, L2, V1, V2. repeat split; try assumption.
  destruct H as [H|[H V]]; [left; exact H|]. right. split; [exact H|].
  rewrite <- Zle_Qle. apply Qfloor_resp_le. lra.
Qed.

Lemma toUint8Clamp_range (x : double) : 0 <= toUint8Clamp x <= 255.
Proof. destruct x as [|[|]| |]; cbn [toUint8Clamp]; lia. Qed.

Lemma toUint8Clamp_mono (x y : double) :
  le x y = true -> toUint8Clamp x <= toUint8Clamp y.
Proof.
  intros H. pose proof (toUint8Clamp_range x). pose proof (toUint8Clamp_range y).
  apply le_spec in H. destruct H as (Nx & Ny & [H|[L H]]).
  - destruct x as [|[|]|a|p]; destruct y as [|[|]|b|q]; try discriminate;
      cbn [toUint8Clamp level] in *; lia.
  - destruct x as [|[|]|a|p]; destruct y as [|[|]|b|q]; try discriminate;
      cbn [toUint8Clamp level value] in *; try lia.
    + assert (roundHalfEven p <= 0); [|lia].
      apply roundHalfEven_upper. exact H.
    + pose proof (roundHalfEven_mono p q H). lia.
Qed.

(** *** Constants and samples *)

Lemma eqb_eq (x y : double) : eqb x y = true -> x = y.
Proof.
  destruct x as [|a|a|[pn pd]]; destruct y as [|b|b|[qn qd]]; try discriminate;
    cbn [eqb Qnum Qden]; intros H; try reflexivity.
  - apply Bool.eqb_prop in H. congruence.
  - apply Bool.eqb_prop in H. congruence.
  - apply andb_prop in H. destruct H as [H1 H2].
    apply Z.eqb_eq in H1. apply Pos.eqb_eq in H2. congruence.
Qed.

Lemma ofZ_sample (gray : Z) :
  0 <= gray <= 255 ->
  ofZ gray = if gray =? 0 then Zero false else Finite (inject_Z gray).
Proof.
  intros H.
  assert (A : forallb (fun g => eqb (ofZ g) (if g =? 0 then Zero false else Finite (inject_Z g)))
                      samples = true) by (vm_compute; reflexivity).
  rewrite forallb_forall in A. apply eqb_eq, A.
  unfold samples. apply in_map_iff. exists (Z.to_nat gray).
  split; [lia|]. apply in_seq. lia.
Qed.

Lemma ofZ_finite (gray : Z) :
  0 <= gray <= 255 -> isFinite (ofZ gray) = true /\ value (ofZ gray) = inject_Z gray.
Proof.
  intros H. rewrite ofZ_sample by exact H.
  destruct (Z.eqb_spec gray 0) as [->|N]; split; reflexivity.
Qed.

Lemma ofZ_mono (g1 g2 : Z) : g1 <= g2 -> le (ofZ g1) (ofZ g2) = true.
Proof. intros H. apply ofQ_mono. rewrite <- Zle_Qle. exact H. Qed.

Lemma ofZ_2 : ofZ 2 = Finite 2.
Proof. vm_compute. reflexivity. Qed.

Lemma ofZ_255 : ofZ 255 = Finite 255.
Proof. vm_compute. reflexivity. Qed.

Lemma ofZ_0 : ofZ 0 = Zero false.
Proof. reflexivity. Qed.

Lemma windowMin_onGrid (ww wl : double) : onGrid (value (windowMin ww wl)).
Proof. apply add_onGrid. Qed.

Lemma windowMax_onGrid (ww wl : double) : onGrid (value (windowMax ww wl)).
Proof. apply add_onGrid. Qed.

Lemma sub_NaN_r (x : double) : sub x NaN = NaN.
Proof. destruct x; reflexivity. Qed.

(** The difference of two computed bounds [m < M] is positive: a positive
    number or +Infinity, never zero. *)
Lemma sub_positive (M m : double) :
  lt m M = true -> onGrid (value m) -> onGrid (value M) ->
  sub M m = Infinity false \/ (isFinite (sub M m) = true /\ (0 < value (sub M m))%Q).
Proof.
  intros H Gm GM. apply lt_spec in H. destruct H as (Nm & NM & H).
  destruct (isFinite M) eqn:FM; destruct (isFinite m) eqn:Fm.
  - destruct H as [H|[_ H]].
    { apply finite_level in FM. apply finite_level in Fm. lia. }
    destruct (sub_finite M m FM Fm) as (N & L & V).
    destruct (ofQ_grid_pos (value M + value (neg m))) as (N' & P).
    + apply onGrid_plus; [exact GM|].
      destruct Gm as [k Ek]. exists (- k). rewrite value_neg, Ek, inject_Z_opp. ring.
    + rewrite value_neg. lra.
    + destruct P as [P|[P1 P2]].
      * left. rewrite <- L in P. rewrite <- N in N'.
        destruct (sub M m) as [|[|]| |]; try discriminate; reflexivity.
      * right. rewrite <- L in P1. rewrite <- N in N'. rewrite <- V in P2.
        split; [apply level_0_finite; assumption | exact P2].
  - destruct m as [|[|]| |]; try discriminate.
    + left. destruct M as [| | |]; try discriminate; reflexivity.
    + exfalso. apply finite_level in FM. cbn [level] in H. lia.
  - destruct M as [|[|]| |]; try discriminate.
    + exfalso. apply finite_level in Fm. cbn [level value] in H. lia.
    + left. destruct m as [| | |]; try discriminate; reflexivity.
  - destruct M as [|[|]| |]; try discriminate; destruct m as [|[|]| |]; try discriminate;
      cbn [level value] in H; try (exfalso; destruct H as [H|[H1 H2]]; [lia| first [lia | lra]]).
    left. reflexivity.
Qed.

Local Ltac clamp_bounds :=
  match goal with
  | |- toUint8Clamp ?a <= toUint8Clamp ?b =>
      pose proof (toUint8Clamp_range a); pose proof (toUint8Clamp_range b)
  end.

(** What the [else] arm meets: either a bound is NaN, and so is the divisor,
    or [windowMin < gray < windowMax] and the divisor is positive. *)
Lemma linear_arm (windowWidth windowLevel : double) (gray : Z) :
  let lo := windowMin windowWidth windowLevel in
  let hi := windowMax windowWidth windowLevel in
  le (ofZ gray) lo = false -> ge (ofZ gray) hi = false ->
  (isNaN lo || isNaN hi = true /\ isNaN (sub hi lo) = true) \/
  (lt lo (ofZ gray) = true /\ lt (ofZ gray) hi = true /\
   (sub hi lo = Infinity false \/
    (isFinite (sub hi lo) = true /\ (0 < value (sub hi lo))%Q))).
Proof.
  intros lo hi H1 H2. unfold ge in H2.
  assert (Gl : onGrid (value lo)) by apply windowMin_onGrid.
  assert (Gh : onGrid (value hi)) by apply windowMax_onGrid.
  clearbody lo hi.
  destruct (isNaN lo) eqn:Nl.
  { left. split; [reflexivity|]. destruct lo; try discriminate.
    rewrite sub_NaN_r. reflexivity. }
  destruct (isNaN hi) eqn:Nh.
  { left. split; [reflexivity|]. destruct hi; try discriminate. reflexivity. }
  right.
  assert (Ng : isNaN (ofZ gray) = false) by apply ofQ_isNaN.
  pose proof (le_false _ _ Ng Nl H1) as L1.
  pose proof (le_false _ _ Nh Ng H2) as L2.
  split; [exact L1|]. split; [exact L2|].
  apply sub_positive; try assumption.
  apply lt_le_trans with (ofZ gray); [exact L1 | apply lt_le, L2].
Qed.

Lemma div_NaN_r (n : double) : div n NaN = NaN.
Proof. destruct n; reflexivity. Qed.

(** Over an infinite divisor the transform writes 0. *)
Lemma over_Infinity (n : double) :
  isNaN n = false ->
  toUint8Clamp (Math_round (mul (div n (Infinity false)) (ofZ 255))) = 0.
Proof.
  intros Nn. rewrite ofZ_255. destruct n as [| |s|q]; try discriminate; reflexivity.
Qed.

Lemma written_range (ww wl : double) (gray : Z) : 0 <= written ww wl gray <= 255.
Proof. apply toUint8Clamp_range. Qed.

Lemma written_mono (ww wl : double) (g1 g2 : Z) :
  0 <= g1 <= 255 -> 0 <= g2 <= 255 -> g1 <= g2 ->
  written ww wl g1 <= written ww wl g2.
Proof.
  intros S1 S2 Hg.
  pose proof (ofZ_mono g1 g2 Hg) as G.
  destruct (ofZ_finite g1 S1) as [F1 _]. destruct (ofZ_finite g2 S2) as [F2 _].
  pose proof (linear_arm ww wl g1) as LA. cbv zeta in LA.
  unfold written, newValue.
  set (lo := windowMin ww wl) in *. set (hi := windowMax ww wl) in *. clearbody lo hi.
  destruct (le (ofZ g1) lo) eqn:A1.
  { clamp_bounds. rewrite ofZ_0 in *. cbn [toUint8Clamp] in *. lia. }
  destruct (ge (ofZ g1) hi) eqn:B1.
  { assert (A2 : le (ofZ g2) lo = false).
    { destruct (le (ofZ g2) lo) eqn:A2; [|reflexivity].
      rewrite (le_trans _ _ _ G A2) in A1. discriminate. }
    assert (B2 : ge (ofZ g2) hi = true) by (unfold ge in *; apply (le_trans _ _ _ B1 G)).
    rewrite A2, B2. lia. }
  destruct (le (ofZ g2) lo) eqn:A2.
  { rewrite (le_trans _ _ _ G A2) in A1. discriminate. }
  destruct (ge (ofZ g2) hi) eqn:B2.
  { clamp_bounds. rewrite ofZ_255 in *.
    change (toUint8Clamp (Finite 255)) with 255 in *. lia. }
  destruct (LA eq_refl eq_refl) as [[_ N]|(L1 & _ & D)].
  { destruct (sub hi lo); try discriminate. rewrite !div_NaN_r. reflexivity. }
  assert (Nl : isNaN lo = false) by (apply lt_spec in L1; tauto).
  pose proof (sub_mono_l _ _ lo F1 F2 Nl G) as M.
  destruct D as [D|[FD PD]].
  - rewrite D. destruct (le_isNaN _ _ M) as [N1 N2].
    rewrite !over_Infinity by assumption. lia.
  - apply toUint8Clamp_mono, Math_round_monotone.
    rewrite ofZ_255. apply mul_mono_l; [reflexivity | reflexivity|].
    apply div_mono_l; assumption.
Qed.

Lemma add_finite_inv (x y : double) :
  isFinite (add x y) = true -> isFinite x = true /\ isFinite y = true.
Proof.
  destruct x as [|[|]| |]; destruct y as [|[|]| |]; cbn [add isFinite Bool.eqb];
    try discriminate; auto.
Qed.

Lemma sub_finite_inv (x y : double) :
  isFinite (sub x y) = true -> isFinite x = true /\ isFinite y = true.
Proof.
  intros H. apply add_finite_inv in H. rewrite isFinite_neg in H. exact H.
Qed.

Lemma ofQ_1 : ofQ 1 = Finite 1.
Proof. vm_compute. reflexivity. Qed.

Lemma ofQ_255 : ofQ 255 = Finite 255.
Proof. vm_compute. reflexivity. Qed.

(** A number between two finite numbers is finite. *)
Lemma between_finite (a x b : double) :
  isFinite a = true -> isFinite b = true -> le a x = true -> le x b = true ->
  isFinite x = true.
Proof.
  intros Fa Fb H1 H2. apply finite_level in Fa. apply finite_level in Fb.
  apply le_spec in H1. apply le_spec in H2.
  destruct H1 as (_ & Nx & H1). destruct H2 as (_ & _ & H2).
  apply level_0_finite; [exact Nx|]. lia.
Qed.

(** [Math.round] of a number in 0..255 is one of the integers 0..255, which
    a [Uint8ClampedArray] stores unchanged. *)
Lemma Math_round_stored (r : double) :
  le (Zero false) r = true -> le r (Finite 255) = true ->
  compare (Math_round r) (ofZ (toUint8Clamp (Math_round r))) = Some Eq.
Proof.
  intros H0 H1.
  assert (Fr : isFinite r = true) by (apply (between_finite (Zero false) r (Finite 255)); auto).
  pose proof (le_values (Zero false) r eq_refl Fr H0) as V0.
  pose proof (le_values r (Finite 255) Fr eq_refl H1) as V1.
  cbn [value] in V0, V1.
  destruct r as [| |s|q]; try discriminate; [reflexivity|].
  cbn [value] in V0, V1. cbn [Math_round].
  set (n := Qfloor (q + (1 # 2))).
  assert (Hn : 0 <= n <= 255).
  { split.
    - change 0 with (Qfloor (inject_Z 0)). apply Qfloor_resp_le.
      change (inject_Z 0) with 0%Q. lra.
    - change 255 with (Qfloor (255 + (1 # 2))). apply Qfloor_resp_le. lra. }
  destruct (Z.eqb_spec n 0) as [E|E]; [reflexivity|].
  cbn [toUint8Clamp]. rewrite roundHalfEven_Z.
  replace (Z.max 0 (Z.min 255 n)) with n by lia.
  rewrite ofZ_sample by exact Hn.
  destruct (Z.eqb_spec n 0) as [E'|_]; [contradiction|].
  cbn [compare value]. f_equal. apply Qeq_alt. reflexivity.
Qed.

(** With a finite divisor the number computed by the transform is already an
    integer in 0..255. *)
Lemma newValue_stored (ww wl : double) (gray : Z) :
  0 <= gray <= 255 ->
  isFinite (sub (windowMax ww wl) (windowMin ww wl)) = true ->
  compare (newValue ww wl gray) (ofZ (written ww wl gray)) = Some Eq.
Proof.
  intros S FD.
  destruct (ofZ_finite gray S) as [Fg Vg].
  pose proof (linear_arm ww wl gray) as LA. cbv zeta in LA.
  unfold written, newValue.
  set (lo := windowMin ww wl) in *. set (hi := windowMax ww wl) in *. clearbody lo hi.
  destruct (le (ofZ gray) lo) eqn:A; [reflexivity|].
  destruct (ge (ofZ gray) hi) eqn:B; [vm_compute; reflexivity|].
  destruct (sub_finite_inv _ _ FD) as [Fh Fl].
  destruct (LA eq_refl eq_refl) as [[_ N]|(L1 & L2 & D)].
  { destruct (sub hi lo); discriminate. }
  destruct D as [D|[_ PD]]; [rewrite D in FD; discriminate|].
  set (num := sub (ofZ gray) lo). set (den := sub hi lo) in *.
  assert (N0 : le (ofQ 0) num = true).
  { apply (ofQ_mono_same _ _ _ _ (same_refl _) (sub_finite _ _ Fg Fl)).
    rewrite value_neg. pose proof (le_values _ _ Fl Fg (lt_le _ _ L1)). lra. }
  assert (N1 : le num den = true).
  { apply sub_mono_l; try assumption.
    - apply finite_level in Fl. tauto.
    - apply lt_le, L2. }
  assert (Fn : isFinite num = true) by (apply (between_finite (ofQ 0) num den); auto).
  pose proof (le_values (ofQ 0) num eq_refl Fn N0) as Vn0.
  pose proof (le_values _ _ Fn FD N1) as Vn1.
  assert (Hz : ~ (value den == 0)%Q) by lra.
  pose proof (div_finite num den Fn FD Hz) as SR.
  set (ratio := div num den) in *.
  assert (R0 : le (ofQ 0) ratio = true).
  { apply (ofQ_mono_same _ _ _ _ (same_refl _) SR).
    apply Qle_shift_div_l; [exact PD|]. change (value (ofQ 0)) with 0%Q in Vn0. lra. }
  assert (R1 : le ratio (ofQ 1) = true).
  { apply (ofQ_mono_same _ _ _ _ SR (same_refl _)).
    apply Qle_shift_div_r; [exact PD|]. lra. }
  assert (Fr : isFinite ratio = true).
  { apply (between_finite (ofQ 0) ratio (ofQ 1)); auto. }
  pose proof (le_values (ofQ 0) ratio eq_refl Fr R0) as Vr0.
  pose proof (le_values ratio (ofQ 1) Fr eq_refl R1) as Vr1.
  rewrite ofQ_1 in Vr1. cbn [value] in Vr0, Vr1. change (value (ofQ 0)) with 0%Q in Vr0.
  rewrite ofZ_255.
  pose proof (mul_finite ratio (Finite 255) Fr eq_refl) as SM. cbn [value] in SM.
  apply Math_round_stored.
  - change (Zero false) with (ofQ 0).
    apply (ofQ_mono_same _ _ _ _ (same_refl _) SM). lra.
  - rewrite <- ofQ_255.
    apply (ofQ_mono_same _ _ _ _ SM (same_refl _)). lra.
Qed.

(** *** A window width of zero or less *)

Lemma neg_antitone (x y : double) : le x y = true -> le (neg y) (neg x) = true.
Proof.
  rewrite !le_spec. intros (Nx & Ny & H).
  rewrite !isNaN_neg, !value_neg. repeat split; try assumption.
  assert (Lx : level (neg x) = - level x) by (destruct x as [|[|]| |]; reflexivity).
  assert (Ly : level (neg y) = - level y) by (destruct y as [|[|]| |]; reflexivity).
  rewrite Lx, Ly. destruct H as [H|[H V]]; [left; lia|]. right. split; [lia | lra].
Qed.

Lemma nonpositive_width_bounds (ww wl : double) :
  le ww (ofZ 0) = true -> isFinite wl = true ->
  le (windowMax ww wl) (windowMin ww wl) = true.
Proof.
  intros Hw Fl. unfold windowMax, windowMin, sub. rewrite ofZ_2.
  apply add_mono_r; [exact Fl|].
  assert (H : le (div ww (Finite 2)) (Zero false) = true).
  { change (Zero false) with (div (ofZ 0) (Finite 2)).
    apply div_mono_l; [reflexivity | reflexivity | exact Hw]. }
  apply le_trans with (Zero false); [exact H|].
  change (Zero false) with (neg (Zero true)).
  apply neg_antitone. apply le_trans with (Zero false); [exact H | reflexivity].
Qed.

(** When the computed bounds are not in order the [else] arm is not reached. *)
Lemma crossed_bounds (ww wl : double) (gray : Z) :
  le (windowMax ww wl) (windowMin ww wl) = true ->
  le (ofZ gray) (windowMin ww wl) = false -> ge (ofZ gray) (windowMax ww wl) = true.
Proof.
  intros H A. unfold ge. destruct (le_isNaN _ _ H) as [Nh Nl].
  apply le_trans with (windowMin ww wl); [exact H|].
  apply lt_le, le_false; [apply ofQ_isNaN | exact Nl | exact A].
Qed.

Lemma zero_width_bounds (ww wl : double) :
  isZero ww = true -> isNaN wl = false ->
  le (windowMax ww wl) (windowMin ww wl) = true.
Proof.
  intros Zw Nl. destruct (isFinite wl) eqn:Fl.
  - apply nonpositive_width_bounds; [|exact Fl].
    apply le_spec. rewrite ofZ_0.
    destruct ww as [| |s|q]; try discriminate; apply isZero_true in Zw;
      cbn [isNaN level value] in *;
      (split; [reflexivity|]; split; [reflexivity|]; right; split; [reflexivity | lra]).
  - unfold windowMax, windowMin, sub. rewrite ofZ_2.
    assert (E : exists s, div ww (Finite 2) = Zero s).
    { destruct ww as [| |s|q]; try discriminate; cbn [div isZero] in *.
      - eexists. reflexivity.
      - rewrite Zw. change (isZero (Finite 2)) with false. cbn. eexists. reflexivity. }
    destruct E as [s ->].
    destruct wl as [|[|]| |]; try discriminate; reflexivity.
Qed.

(** For a positive width and a finite level the computed bounds are in
    order; they may be equal. *)
Lemma positive_width_bounds (ww wl : double) :
  le (ofZ 0) ww = true -> isFinite wl = true ->
  le (windowMin ww wl) (windowMax ww wl) = true.
Proof.
  intros Hw Fl. unfold windowMax, windowMin, sub. rewrite ofZ_2.
  apply add_mono_r; [exact Fl|].
  assert (H : le (Zero false) (div ww (Finite 2)) = true).
  { change (Zero false) with (div (ofZ 0) (Finite 2)).
    apply div_mono_l; [reflexivity | reflexivity | exact Hw]. }
  apply le_trans with (Zero false); [|exact H].
  change (Zero false) with (neg (Zero true)).
  apply neg_antitone. apply le_trans with (Zero false); [reflexivity | exact H].
Qed.

(** The partial division of the linear arm is always defined. *)
Lemma newValueChecked_defined (ww wl : double) (gray : Z) :
  newValueChecked ww wl gray = Some (newValue ww wl gray).
Proof.
  pose proof (linear_arm ww wl gray) as LA. cbv zeta in LA.
  unfold newValueChecked, newValue.
  destruct (le (ofZ gray) (windowMin ww wl)) eqn:A; [reflexivity|].
  destruct (ge (ofZ gray) (windowMax ww wl)) eqn:B; [reflexivity|].
  unfold checkedDiv.
  destruct (LA eq_refl eq_refl) as [[_ N]|(_ & _ & [D|[F P]])].
  - destruct (sub (windowMax ww wl) (windowMin ww wl)); try discriminate. reflexivity.
  - rewrite D. reflexivity.
  - rewrite isZero_false; [reflexivity | exact F | lra].
Qed.

Lemma double_applyWindowLevel_length (ww wl : double) (data : list Z) :
  length (applyWindowLevel data ww wl) = length data.
Proof.
  induction data as [| | | |r g b a rest IH] using raster_ind; try reflexivity.
  simpl. rewrite IH. reflexivity.
Qed.

Lemma double_applyWindowLevel_samples (ww wl : double) (data : list Z) :
  Forall isSample data -> Forall isSample (applyWindowLevel data ww wl).
Proof.
  assert (V : forall r, isSample (written ww wl r)) by (intros r; apply written_range).
  induction data as [| | | |r g b a rest IH] using raster_ind; intros HF; simpl;
    try (repeat constructor; apply V).
  inversion HF as [|? ? _ HF1]. inversion HF1 as [|? ? _ HF2].
  inversion HF2 as [|? ? _ HF3]. inversion HF3 as [|? ? Ha HF4].
  repeat (constructor; [apply V|]). constructor; [exact Ha|]. apply IH, HF4.
Qed.

Local Ltac short_double_raster :=
  match goal with
  | |- applyWindowLevel ?d ?ww ?wl !! ?i = _ =>
      rewrite (lookup_ge_None_2 (applyWindowLevel d ww wl) i)
        by (rewrite double_applyWindowLevel_length; simpl; lia);
      rewrite (lookup_ge_None_2 d i) by (simpl; lia);
      destruct (i mod 4 =? 3)%nat; reflexivity
  end.

(** Sample [i] of the result: alpha slots (i = 3 mod 4) are copied, every
    other slot holds the transformed red sample of its pixel. *)
Lemma double_applyWindowLevel_lookup (ww wl : double) (data : list Z) (i : nat) :
  applyWindowLevel data ww wl !! i =
  if (i mod 4 =? 3)%nat then data !! i
  else match data !! i with
       | Some _ => written ww wl <$> data !! (i - i mod 4)%nat
       | None => None
       end.
Proof.
  revert i.
  induction data as [|r|r g|r g b|r g b a rest IH] using raster_ind; intros i.
  - rewrite !lookup_nil. destruct (i mod 4 =? 3)%nat; reflexivity.
  - destruct i as [|i]; [reflexivity|]. short_double_raster.
  - destruct i as [|[|i]]; [reflexivity..|]. short_double_raster.
  - destruct i as [|[|[|i]]]; [reflexivity..|]. short_double_raster.
  - destruct i as [|[|[|[|i]]]]; [reflexivity..|].
    change (applyWindowLevel (r :: g :: b :: a :: rest) ww wl !! S (S (S (S i))))
      with (applyWindowLevel rest ww wl !! i).
    rewrite IH.
    assert (M : (S (S (S (S i))) mod 4 = i mod 4)%nat).
    { change (S (S (S (S i)))) with (4 + i)%nat.
      rewrite <- (Nat.Div0.add_mod_idemp_l 4 i 4). reflexivity. }
    rewrite M.
    assert (L : forall j, (r :: g :: b :: a :: rest) !! S (S (S (S j))) = rest !! j)
      by reflexivity.
    rewrite L.
    assert (D : (S (S (S (S i))) - i mod 4 = S (S (S (S (i - i mod 4)))))%nat).
    { pose proof (Nat.Div0.mod_le i 4). lia. }
    rewrite D, L. reflexivity.
Qed.

End DoubleFacts.

(** On the full-range window, width 255 and level 127.5, the code writes
    what the formulas give in exact arithmetic, for every sample. *)
Lemma exact_formulas_agree_on_full_range (gray : Z) :
  isSample gray ->
  Double.written (Double.ofZ 255) (Double.ofQ (255 # 2)) gray = newValue 255 (255 # 2) gray.
Proof.
  intros H.
  assert (A : forallb (fun g => Double.written (Double.ofZ 255) (Double.ofQ (255 # 2)) g
                                =? newValue 255 (255 # 2) g)
                      Double.samples = true) by (vm_compute; reflexivity).
  rewrite forallb_forall in A. apply Z.eqb_eq, A.
  unfold Double.samples. apply in_map_iff. exists (Z.to_nat gray).
  unfold isSample in H. split; [lia|]. apply in_seq. lia.
Qed.

(** C1, as amended. For every gray sample in 0..255 and all window
    parameters, with [windowMin] and [windowMax] as the code computes them
    in double arithmetic: the sample written lies in 0..255 and is
    monotonic non-decreasing in the gray sample; it is 0 whenever
    [gray <= windowMin]; it is 255 whenever [gray >= windowMax] and not
    [gray <= windowMin], hence whenever [gray >= windowMax] if
    [windowMin < windowMax]; otherwise the number computed is
    [Math.round (((gray - windowMin) / (windowMax - windowMin)) * 255)],
    each operation rounded to the nearest double, and when
    [windowMax - windowMin] is finite that number is one of the integers
    0..255 and is written as it is. For a positive width and a finite level
    the bounds satisfy [windowMin <= windowMax]. On a whole raster every
    slot of the result is again a sample, red, green and blue of a pixel
    hold the transformed red sample, and alpha is kept. *)
Theorem applyWindowLevel_spec (windowWidth windowLevel : Double.double) :
  let lo := Double.windowMin windowWidth windowLevel in
  let hi := Double.windowMax windowWidth windowLevel in
  (forall gray, isSample gray ->
     0 <= Double.written windowWidth windowLevel gray <= 255 /\
     (Double.le (Double.ofZ gray) lo = true ->
        Double.written windowWidth windowLevel gray = 0) /\
     (Double.le (Double.ofZ gray) lo = false -> Double.ge (Double.ofZ gray) hi = true ->
        Double.written windowWidth windowLevel gray = 255) /\
     (Double.lt lo hi = true -> Double.ge (Double.ofZ gray) hi = true ->
        Double.written windowWidth windowLevel gray = 255) /\
     (Double.le (Double.ofZ gray) lo = false -> Double.ge (Double.ofZ gray) hi = false ->
        Double.newValue windowWidth windowLevel gray =
        Double.Math_round
          (Double.mul (Double.div (Double.sub (Double.ofZ gray) lo) (Double.sub hi lo))
                      (Double.ofZ 255))) /\
     (Double.isFinite (Double.sub hi lo) = true ->
        Double.compare (Double.newValue windowWidth windowLevel gray)
                       (Double.ofZ (Double.written windowWidth windowLevel gray))
        = Some Eq)) /\
  (forall g1 g2, isSample g1 -> isSample g2 -> g1 <= g2 ->
     Double.written windowWidth windowLevel g1 <= Double.written windowWidth windowLevel g2) /\
  (Double.lt (Double.ofZ 0) windowWidth = true -> Double.isFinite windowLevel = true ->
     Double.le lo hi = true) /\
  (forall data, Forall isSample data ->
     length (Double.applyWindowLevel data windowWidth windowLevel) = length data /\
     Forall isSample (Double.applyWindowLevel data windowWidth windowLevel) /\
     forall i x, data !! i = Some x ->
       Double.applyWindowLevel data windowWidth windowLevel !! i =
       if (i mod 4 =? 3)%nat then Some x
       else Double.written windowWidth windowLevel <$> data !! (i - i mod 4)%nat).
Proof.
  intros lo hi.
  assert (Above : forall gray,
            Double.le (Double.ofZ gray) lo = false -> Double.ge (Double.ofZ gray) hi = true ->
            Double.written windowWidth windowLevel gray = 255).
  { intros gray A B. unfold Double.written, Double.newValue. fold lo hi.
    rewrite A, B. vm_compute. reflexivity. }
  split; [|split; [|split]].
  - intros gray S. split; [apply DoubleFacts.written_range|].
    split; [|split; [|split; [|split]]].
    + intros A. unfold Double.written, Double.newValue. fold lo hi. rewrite A. reflexivity.
    + apply Above.
    + intros L B. apply Above; [|exact B].
      unfold Double.ge in B.
      apply DoubleFacts.lt_not_le, (DoubleFacts.lt_le_trans _ _ _ L B).
    + intros A B. unfold Double.newValue. fold lo hi. rewrite A, B. reflexivity.
    + intros F. apply DoubleFacts.newValue_stored; assumption.
  - intros g1 g2 S1 S2. apply DoubleFacts.written_mono; assumption.
  - intros Hw Fl. apply DoubleFacts.positive_width_bounds; [|exact Fl].
    apply DoubleFacts.lt_le, Hw.
  - intros data HF. split; [apply DoubleFacts.double_applyWindowLevel_length|].
    split; [apply DoubleFacts.double_applyWindowLevel_samples; exact HF|].
    intros i x Hx. rewrite DoubleFacts.double_applyWindowLevel_lookup, Hx.
    destruct (i mod 4 =? 3)%nat; reflexivity.
Qed.

Lemma applyWindowLevel_spec_witness :
  Double.written (Double.ofZ 400) (Double.ofZ 50) 100
  <= Double.written (Double.ofZ 400) (Double.ofZ 50) 200 /\
  Double.written (Double.ofZ 400) (Double.ofZ 50) 100 = 159 /\
  Double.applyWindowLevel [100; 7; 7; 255; 0; 0; 0; 9] (Double.ofZ 400) (Double.ofZ 50)
  = [159; 159; 159; 255; 96; 96; 96; 9].
Proof.
  split; [|split; vm_compute; reflexivity].
  apply (proj1 (proj2 (applyWindowLevel_spec (Double.ofZ 400) (Double.ofZ 50))));
    unfold isSample; lia.
Defined.

(** The claim's two clipping rules contradict each other, and its formula
    differs from the code, at a positive width:
    - width 2^-60, level 100, gray 100: the code's two bounds both round to
      100, the first test wins and 0 is written, although
      [gray >= windowMax]; in exact arithmetic gray lies strictly between
      the bounds and the formula gives 128;
    - width 0.1, level 8, gray 8: the code writes 127, the formula in exact
      arithmetic gives 128. *)
Lemma applyWindowLevel_differs_from_exact_formula :
  (Double.lt (Double.ofZ 0) (Double.ofQ (Double.pow2 (-60))) = true /\
   Double.ge (Double.ofZ 100)
             (Double.windowMax (Double.ofQ (Double.pow2 (-60))) (Double.ofZ 100)) = true /\
   Double.written (Double.ofQ (Double.pow2 (-60))) (Double.ofZ 100) 100 = 0 /\
   windowBranch (Double.pow2 (-60)) 100 100 = Linear /\
   newValue (Double.pow2 (-60)) 100 100 = 128) /\
  (Double.lt (Double.ofZ 0) (Double.ofQ (1 # 10)) = true /\
   Double.written (Double.ofQ (1 # 10)) (Double.ofZ 8) 8 = 127 /\
   newValue (1 # 10) 8 8 = 128 /\
   newValue (Double.value (Double.ofQ (1 # 10))) 8 8 = 128).
Proof. vm_compute. repeat split. Qed.

(** C10, as amended. For every gray value and every pair of numbers, a
    width of 0, the infinities and NaN included, the transform never
    divides by zero and writes a sample: the division arm runs only when
    neither [gray <= windowMin] nor [gray >= windowMax] holds of the bounds
    the code computes, and then either [windowMin < gray < windowMax] (in
    which case the arm does run), where the divisor [windowMax - windowMin]
    is positive (a number above 0 or +Infinity), or a bound is NaN, so is
    the divisor, and 0 is written;
    the computation with a partial division is defined everywhere and
    agrees with
    [newValue]; with a width of 0 and a level that is not NaN the division
    arm is not reached. *)
Theorem newValue_never_divides_by_zero (windowWidth windowLevel : Double.double) (gray : Z) :
  let lo := Double.windowMin windowWidth windowLevel in
  let hi := Double.windowMax windowWidth windowLevel in
  Double.newValueChecked windowWidth windowLevel gray
  = Some (Double.newValue windowWidth windowLevel gray) /\
  0 <= Double.written windowWidth windowLevel gray <= 255 /\
  (Double.le (Double.ofZ gray) lo = false -> Double.ge (Double.ofZ gray) hi = false ->
     Double.isZero (Double.sub hi lo) = false /\
     ((Double.lt lo (Double.ofZ gray) = true /\ Double.lt (Double.ofZ gray) hi = true /\
       Double.lt (Double.ofZ 0) (Double.sub hi lo) = true) \/
      (Double.isNaN lo || Double.isNaN hi = true /\
       Double.isNaN (Double.sub hi lo) = true /\
       Double.written windowWidth windowLevel gray = 0))) /\
  (Double.lt lo (Double.ofZ gray) = true -> Double.lt (Double.ofZ gray) hi = true ->
     Double.le (Double.ofZ gray) lo = false /\ Double.ge (Double.ofZ gray) hi = false) /\
  (Double.isZero windowWidth = true -> Double.isNaN windowLevel = false ->
     Double.le (Double.ofZ gray) lo = true \/ Double.ge (Double.ofZ gray) hi = true).
Proof.
  cbv zeta.
  pose proof (DoubleFacts.linear_arm windowWidth windowLevel gray) as LA. cbv zeta in LA.
  pose proof (DoubleFacts.zero_width_bounds windowWidth windowLevel) as ZB.
  pose proof (DoubleFacts.crossed_bounds windowWidth windowLevel gray) as CB.
  split; [apply DoubleFacts.newValueChecked_defined|].
  split; [apply DoubleFacts.written_range|].
  unfold Double.written, Double.newValue.
  set (lo := Double.windowMin windowWidth windowLevel) in *.
  set (hi := Double.windowMax windowWidth windowLevel) in *. clearbody lo hi.
  split.
  - intros A B. rewrite A, B.
    destruct (LA A B) as [[N1 N2]|(L1 & L2 & D)].
    + destruct (Double.sub hi lo); try discriminate.
      split; [reflexivity|]. right. split; [exact N1|]. split; [reflexivity|].
      rewrite DoubleFacts.div_NaN_r. reflexivity.
    + assert (P : Double.isZero (Double.sub hi lo) = false /\
                  Double.lt (Double.ofZ 0) (Double.sub hi lo) = true).
      { destruct D as [D|[F P]].
        - rewrite D. split; reflexivity.
        - split; [apply DoubleFacts.isZero_false; [exact F | lra]|].
          apply DoubleFacts.lt_spec.
          destruct (DoubleFacts.finite_level _ F) as [L N].
          rewrite L, N. repeat split. right. split; [reflexivity | exact P]. }
      destruct P as [P1 P2]. split; [exact P1|]. left. auto.
  - split.
    + intros L1 L2. unfold Double.ge.
      split; apply DoubleFacts.lt_not_le; assumption.
    + intros Zw Nl.
      destruct (Double.le (Double.ofZ gray) lo) eqn:A; [left; reflexivity|right].
      apply CB; [|reflexivity]. apply ZB; assumption.
Qed.

(** With a level that is NaN the division arm runs although neither
    [windowMin < gray] nor [gray < windowMax] holds; the division is
    NaN / NaN and 0 is written. *)
Lemma division_arm_runs_on_NaN :
  Double.le (Double.ofZ 100) (Double.windowMin (Double.ofZ 400) Double.NaN) = false /\
  Double.ge (Double.ofZ 100) (Double.windowMax (Double.ofZ 400) Double.NaN) = false /\
  Double.lt (Double.windowMin (Double.ofZ 400) Double.NaN) (Double.ofZ 100) = false /\
  Double.lt (Double.ofZ 100) (Double.windowMax (Double.ofZ 400) Double.NaN) = false /\
  Double.newValue (Double.ofZ 400) Double.NaN 100 = Double.NaN /\
  Double.written (Double.ofZ 400) Double.NaN 100 = 0.
Proof. vm_compute. repeat split. Qed.

(** ** The stores *)

Lemma jsLength_nil {A : Type} : jsLength (@nil A) = 0.
Proof. reflexivity. Qed.

Lemma jsLength_pos {A : Type} (xs : list A) : xs <> [] -> 1 <= jsLength xs.
Proof. destruct xs; [congruence|]. unfold jsLength. simpl. lia. Qed.

(** Splits the frame list of the goal and of the hypotheses into the empty
    and the non-empty case and leaves linear arithmetic. *)
Local Ltac frames_cases fs :=
  let E := fresh "E" in
  destruct (decide (fs = [])) as [E|E];
  [ rewrite ?E in *; change (jsLength (@nil DICOMFrame)) with 0 in * | pose proof (jsLength_pos fs E) ].

(** Closes the bounds goals once the frame list has been split. *)
Local Ltac bounds_finish :=
  repeat split; intros;
  repeat match goal with
         | H : ?x = ?x -> _ |- _ => specialize (H eq_refl)
         | H : ?a <> [] -> _, E : ?a <> [] |- _ => specialize (H E)
         end;
  solve [lia | congruence].

Module SingleStoreFacts.
Import SingleStore.

(** Every action but a [NEXT_FRAME] on an empty frame list keeps the frame
    index within bounds. *)
Lemma single_frameIndexInBounds_preserved (state : DICOMState) (action : DICOMAction) :
  frameIndexInBounds state ->
  (action <> NEXT_FRAME \/ frames state <> []) ->
  frameIndexInBounds (dicomReducer state action).
Proof.
  unfold frameIndexInBounds. intros (H0 & H1 & H2) Ha.
  destruct action; simpl; try (repeat split; solve [auto | lia]).
  - frames_cases payload; bounds_finish.
  - frames_cases (frames state); bounds_finish.
  - destruct Ha as [Ha|Ha]; [congruence|].
    pose proof (jsLength_pos _ Ha). bounds_finish.
  - frames_cases (frames state); bounds_finish.
Qed.

(** What does hold of every reachable state: with frames the index is within
    bounds, without frames it is 0 or -1. *)
Lemma single_reachable_index_range (state : DICOMState) :
  reachable state ->
  (frames state <> [] ->
     0 <= currentFrameIndex state <= jsLength (frames state) - 1) /\
  (frames state = [] -> -1 <= currentFrameIndex state <= 0).
Proof.
  induction 1 as [|state action _ [IH1 IH2]].
  - simpl. split; [congruence | lia].
  - destruct action; simpl; try (split; assumption).
    + frames_cases payload; bounds_finish.
    + frames_cases (frames state); bounds_finish.
    + frames_cases (frames state); bounds_finish.
    + frames_cases (frames state); bounds_finish.
Qed.

Lemma playbackTick_no_frames (state : DICOMState) :
  frames state = [] -> playbackTick state = state.
Proof.
  intros E. unfold playbackTick, autoPlayEffect. rewrite E, jsLength_nil.
  rewrite orb_true_r. reflexivity.
Qed.

Lemma playbackTick_index (state : DICOMState) :
  isPlaying state = true -> frames state <> [] -> -1 <= currentFrameIndex state ->
  currentFrameIndex (playbackTick state)
  = (currentFrameIndex state + 1) mod jsLength (frames state).
Proof.
  intros Hp Hf H0. pose proof (jsLength_pos _ Hf) as Hl.
  unfold playbackTick, autoPlayEffect. rewrite Hp.
  destruct (jsLength (frames state) =? 0) eqn:E; [lia|]. simpl.
  unfold js_rem. rewrite Z.rem_mod_nonneg by lia.
  pose proof (Z.mod_pos_bound (currentFrameIndex state + 1) (jsLength (frames state))).
  lia.
Qed.

End SingleStoreFacts.

Module CellStoreFacts.
Import CellStore.

Lemma cell_frameIndexInBounds_preserved (state : DICOMState) (action : DICOMAction) :
  frameIndexInBounds state ->
  (action <> NEXT_FRAME \/ frames state <> []) ->
  frameIndexInBounds (dicomReducer state action).
Proof.
  unfold frameIndexInBounds. intros (H0 & H1 & H2) Ha.
  destruct action; simpl; try (repeat split; solve [auto | lia]).
  - frames_cases payload; bounds_finish.
  - frames_cases (frames state); bounds_finish.
  - destruct Ha as [Ha|Ha]; [congruence|].
    pose proof (jsLength_pos _ Ha). bounds_finish.
  - frames_cases (frames state); bounds_finish.
Qed.

Lemma cell_reachable_index_range (state : DICOMState) :
  reachable state ->
  (frames state <> [] ->
     0 <= currentFrameIndex state <= jsLength (frames state) - 1) /\
  (frames state = [] -> -1 <= currentFrameIndex state <= 0).
Proof.
  induction 1 as [|state action _ [IH1 IH2]].
  - simpl. split; [congruence | lia].
  - destruct action; simpl; try (split; assumption).
    + frames_cases payload; bounds_finish.
    + frames_cases (frames state); bounds_finish.
    + frames_cases (frames state); bounds_finish.
    + frames_cases (frames state); bounds_finish.
Qed.

Lemma fourCells_lookup {A : Type} (v x : A) (i : Z) :
  fourCells v !! i = Some x -> x = v /\ 0 <= i <= 3.
Proof.
  unfold fourCells. intros H.
  repeat (rewrite lookup_insert in H; case_decide; [split; [congruence | lia]|]).
  rewrite lookup_empty in H. discriminate.
Qed.

Lemma fourCells_lookup_in {A : Type} (v : A) (i : Z) :
  0 <= i <= 3 -> fourCells v !! i = Some v.
Proof.
  intros Hi. unfold fourCells.
  repeat (rewrite lookup_insert; case_decide; [reflexivity|]).
  lia.
Qed.

End CellStoreFacts.

(** C2. The claim that every state reachable from the initial state keeps
    [currentFrameIndex] within the bounds of the frame list (0 when the list
    is empty) fails on both reducers: [NEXT_FRAME] computes
    [min (currentFrameIndex + 1, frames.length - 1)] with no lower clamp, so
    dispatched on the initial state, whose frame list is empty, it yields a
    reachable state with [currentFrameIndex = -1]. *)
Theorem next_frame_on_empty_list_leaves_bounds :
  (SingleStore.reachable
     (SingleStore.dicomReducer SingleStore.initialState SingleStore.NEXT_FRAME) /\
   SingleStore.frames
     (SingleStore.dicomReducer SingleStore.initialState SingleStore.NEXT_FRAME) = [] /\
   SingleStore.currentFrameIndex
     (SingleStore.dicomReducer SingleStore.initialState SingleStore.NEXT_FRAME) = -1 /\
   ~ SingleStore.frameIndexInBounds
       (SingleStore.dicomReducer SingleStore.initialState SingleStore.NEXT_FRAME)) /\
  (CellStore.reachable
     (CellStore.dicomReducer CellStore.initialState CellStore.NEXT_FRAME) /\
   CellStore.frames
     (CellStore.dicomReducer CellStore.initialState CellStore.NEXT_FRAME) = [] /\
   CellStore.currentFrameIndex
     (CellStore.dicomReducer CellStore.initialState CellStore.NEXT_FRAME) = -1 /\
   ~ CellStore.frameIndexInBounds
       (CellStore.dicomReducer CellStore.initialState CellStore.NEXT_FRAME)).
Proof.
  split.
  - split; [apply SingleStore.reachable_dispatch, SingleStore.reachable_init|].
    split; [reflexivity|]. split; [reflexivity|].
    intros (H & _). apply H. reflexivity.
  - split; [apply CellStore.reachable_dispatch, CellStore.reachable_init|].
    split; [reflexivity|]. split; [reflexivity|].
    intros (H & _). apply H. reflexivity.
Qed.

(** C3. In both reducers [SET_CURRENT_FRAME] is defined for every state and
    every integer payload and stores [max (0, min (payload, frames.length - 1))]:
    the result is within bounds, a payload within bounds is stored as it is,
    and with 10 frames payload 15 gives 9 and payload -3 gives 0. *)
Theorem set_current_frame_clamps :
  (forall (state : SingleStore.DICOMState) (payload : Z),
     SingleStore.currentFrameIndex
       (SingleStore.dicomReducer state (SingleStore.SET_CURRENT_FRAME payload))
     = Z.max 0 (Z.min payload (jsLength (SingleStore.frames state) - 1)) /\
     SingleStore.frames
       (SingleStore.dicomReducer state (SingleStore.SET_CURRENT_FRAME payload))
     = SingleStore.frames state /\
     SingleStore.frameIndexInBounds
       (SingleStore.dicomReducer state (SingleStore.SET_CURRENT_FRAME payload)) /\
     (0 <= payload <= jsLength (SingleStore.frames state) - 1 ->
        SingleStore.currentFrameIndex
          (SingleStore.dicomReducer state (SingleStore.SET_CURRENT_FRAME payload))
        = payload) /\
     (jsLength (SingleStore.frames state) = 10 ->
        SingleStore.currentFrameIndex
          (SingleStore.dicomReducer state (SingleStore.SET_CURRENT_FRAME 15)) = 9 /\
        SingleStore.currentFrameIndex
          (SingleStore.dicomReducer state (SingleStore.SET_CURRENT_FRAME (-3))) = 0)) /\
  (forall (state : CellStore.DICOMState) (payload : Z),
     CellStore.currentFrameIndex
       (CellStore.dicomReducer state (CellStore.SET_CURRENT_FRAME payload))
     = Z.max 0 (Z.min payload (jsLength (CellStore.frames state) - 1)) /\
     CellStore.frames
       (CellStore.dicomReducer state (CellStore.SET_CURRENT_FRAME payload))
     = CellStore.frames state /\
     CellStore.frameIndexInBounds
       (CellStore.dicomReducer state (CellStore.SET_CURRENT_FRAME payload)) /\
     (0 <= payload <= jsLength (CellStore.frames state) - 1 ->
        CellStore.currentFrameIndex
          (CellStore.dicomReducer state (CellStore.SET_CURRENT_FRAME payload))
        = payload) /\
     (jsLength (CellStore.frames state) = 10 ->
        CellStore.currentFrameIndex
          (CellStore.dicomReducer state (CellStore.SET_CURRENT_FRAME 15)) = 9 /\
        CellStore.currentFrameIndex
          (CellStore.dicomReducer state (CellStore.SET_CURRENT_FRAME (-3))) = 0)).
Proof.
  split; intros state payload.
  - split; [reflexivity|]. split; [reflexivity|]. split; [|split].
    + unfold SingleStore.frameIndexInBounds. simpl.
      frames_cases (SingleStore.frames state); bounds_finish.
    + simpl. lia.
    + simpl. lia.
  - split; [reflexivity|]. split; [reflexivity|]. split; [|split].
    + unfold CellStore.frameIndexInBounds. simpl.
      frames_cases (CellStore.frames state); bounds_finish.
    + simpl. lia.
    + simpl. lia.
Qed.

Lemma set_current_frame_clamps_witness :
  jsLength tenFrames = 10 /\
  SingleStore.currentFrameIndex
    (SingleStore.dicomReducer
       (SingleStore.dicomReducer SingleStore.initialState (SingleStore.SET_FRAMES tenFrames))
       (SingleStore.SET_CURRENT_FRAME 15)) = 9 /\
  CellStore.currentFrameIndex
    (CellStore.dicomReducer
       (CellStore.dicomReducer CellStore.initialState (CellStore.SET_FRAMES tenFrames))
       (CellStore.SET_CURRENT_FRAME (-3))) = 0.
Proof.
  split; [reflexivity|]. split.
  - apply (proj1 set_current_frame_clamps
             (SingleStore.dicomReducer SingleStore.initialState
                (SingleStore.SET_FRAMES tenFrames)) 15).
    reflexivity.
  - apply (proj2 set_current_frame_clamps
             (CellStore.dicomReducer CellStore.initialState
                (CellStore.SET_FRAMES tenFrames)) (-3)).
    reflexivity.
Defined.

(** C4, as amended. [RESET_VIEW] restores the window to the defaults of the
    store it runs in: in the per-cell store [windowWidth = 400],
    [windowLevel = 50] and [cellWindowLevels] becomes exactly the four entries
    0..3, each [{ windowWidth: 400, windowLevel: 50 }], with no entry at any
    other index; in the single-select
    store [windowWidth = 1.0] and [windowLevel = 1.0], its initial values.
    Nothing else in the state changes. *)
Theorem reset_view_restores_store_defaults :
  (forall state : CellStore.DICOMState,
     CellStore.windowWidth (CellStore.dicomReducer state CellStore.RESET_VIEW) = 400%Q /\
     CellStore.windowLevel (CellStore.dicomReducer state CellStore.RESET_VIEW) = 50%Q /\
     (forall i c,
        CellStore.cellWindowLevels (CellStore.dicomReducer state CellStore.RESET_VIEW) !! i
        = Some c ->
        c = {| CellStore.cellWindowWidth := 400; CellStore.cellWindowLevel := 50 |}) /\
     (forall i, 0 <= i <= 3 ->
        CellStore.cellWindowLevels (CellStore.dicomReducer state CellStore.RESET_VIEW) !! i
        = Some {| CellStore.cellWindowWidth := 400; CellStore.cellWindowLevel := 50 |}) /\
     (forall i, ~ 0 <= i <= 3 ->
        CellStore.cellWindowLevels (CellStore.dicomReducer state CellStore.RESET_VIEW) !! i
        = None) /\
     CellStore.frames (CellStore.dicomReducer state CellStore.RESET_VIEW)
     = CellStore.frames state /\
     CellStore.currentFrameIndex (CellStore.dicomReducer state CellStore.RESET_VIEW)
     = CellStore.currentFrameIndex state /\
     CellStore.selectedSeriesForCells (CellStore.dicomReducer state CellStore.RESET_VIEW)
     = CellStore.selectedSeriesForCells state /\
     CellStore.cellFrames (CellStore.dicomReducer state CellStore.RESET_VIEW)
     = CellStore.cellFrames state) /\
  (forall state : SingleStore.DICOMState,
     SingleStore.windowWidth (SingleStore.dicomReducer state SingleStore.RESET_VIEW)
     = SingleStore.windowWidth SingleStore.initialState /\
     SingleStore.windowLevel (SingleStore.dicomReducer state SingleStore.RESET_VIEW)
     = SingleStore.windowLevel SingleStore.initialState /\
     SingleStore.windowWidth (SingleStore.dicomReducer state SingleStore.RESET_VIEW) = 1%Q /\
     SingleStore.windowLevel (SingleStore.dicomReducer state SingleStore.RESET_VIEW) = 1%Q /\
     SingleStore.frames (SingleStore.dicomReducer state SingleStore.RESET_VIEW)
     = SingleStore.frames state /\
     SingleStore.currentFrameIndex (SingleStore.dicomReducer state SingleStore.RESET_VIEW)
     = SingleStore.currentFrameIndex state).
Proof.
  split; intros state.
  - split; [reflexivity|]. split; [reflexivity|]. split; [|split; [|split]].
    + intros i c H. simpl in H. apply CellStoreFacts.fourCells_lookup in H. apply H.
    + intros i Hi. simpl. apply CellStoreFacts.fourCells_lookup_in, Hi.
    + intros i Hi. simpl.
      destruct (CellStore.fourCells CellStore.defaultCellWindowLevel !! i) as [c|] eqn:E;
        [|reflexivity].
      apply CellStoreFacts.fourCells_lookup in E. tauto.
    + repeat split.
  - repeat split.
Qed.

Lemma reset_view_restores_store_defaults_witness :
  CellStore.cellWindowLevels
    (CellStore.dicomReducer
       (CellStore.dicomReducer CellStore.initialState
          (CellStore.SET_CELL_WINDOW_LEVEL 2 (200 # 1) (30 # 1)))
       CellStore.RESET_VIEW) !! 2
  = Some {| CellStore.cellWindowWidth := 400; CellStore.cellWindowLevel := 50 |}.
Proof.
  apply (proj1 reset_view_restores_store_defaults
           (CellStore.dicomReducer CellStore.initialState
              (CellStore.SET_CELL_WINDOW_LEVEL 2 (200 # 1) (30 # 1)))).
  lia.
Defined.

(** C4 as stated fails on the single-select store: after [RESET_VIEW] its
    window is 1.0/1.0, not 400/50. *)
Lemma reset_view_single_store_is_not_400_50 :
  ~ ((SingleStore.windowWidth
        (SingleStore.dicomReducer SingleStore.initialState SingleStore.RESET_VIEW)
      == 400)%Q /\
     (SingleStore.windowLevel
        (SingleStore.dicomReducer SingleStore.initialState SingleStore.RESET_VIEW)
      == 50)%Q).
Proof. simpl. intros [H _]. discriminate H. Qed.

(** C6. [SET_GRID_SIZE] stores the payload clamped into the range the store
    supports, whatever the payload: 1..4 in the single-select store, 1..2 in
    the per-cell store; 99 gives the maximum, a payload below 1 gives 1, a
    payload within the range is stored as it is. *)
Theorem set_grid_size_clamps :
  (forall (state : SingleStore.DICOMState) (payload : Z),
     SingleStore.gridSize
       (SingleStore.dicomReducer state (SingleStore.SET_GRID_SIZE payload))
     = Z.max 1 (Z.min 4 payload) /\
     1 <= SingleStore.gridSize
            (SingleStore.dicomReducer state (SingleStore.SET_GRID_SIZE payload)) <= 4 /\
     (1 <= payload <= 4 ->
        SingleStore.gridSize
          (SingleStore.dicomReducer state (SingleStore.SET_GRID_SIZE payload)) = payload) /\
     (4 < payload ->
        SingleStore.gridSize
          (SingleStore.dicomReducer state (SingleStore.SET_GRID_SIZE payload)) = 4) /\
     (payload < 1 ->
        SingleStore.gridSize
          (SingleStore.dicomReducer state (SingleStore.SET_GRID_SIZE payload)) = 1) /\
     SingleStore.gridSize
       (SingleStore.dicomReducer state (SingleStore.SET_GRID_SIZE 99)) = 4) /\
  (forall (state : CellStore.DICOMState) (payload : Z),
     CellStore.gridSize
       (CellStore.dicomReducer state (CellStore.SET_GRID_SIZE payload))
     = Z.max 1 (Z.min 2 payload) /\
     1 <= CellStore.gridSize
            (CellStore.dicomReducer state (CellStore.SET_GRID_SIZE payload)) <= 2 /\
     (1 <= payload <= 2 ->
        CellStore.gridSize
          (CellStore.dicomReducer state (CellStore.SET_GRID_SIZE payload)) = payload) /\
     (2 < payload ->
        CellStore.gridSize
          (CellStore.dicomReducer state (CellStore.SET_GRID_SIZE payload)) = 2) /\
     (payload < 1 ->
        CellStore.gridSize
          (CellStore.dicomReducer state (CellStore.SET_GRID_SIZE payload)) = 1) /\
     CellStore.gridSize
       (CellStore.dicomReducer state (CellStore.SET_GRID_SIZE 99)) = 2).
Proof.
  split; intros state payload; simpl; repeat split; lia.
Qed.

Lemma set_grid_size_clamps_witness :
  SingleStore.gridSize
    (SingleStore.dicomReducer SingleStore.initialState (SingleStore.SET_GRID_SIZE 7)) = 4 /\
  CellStore.gridSize
    (CellStore.dicomReducer CellStore.initialState (CellStore.SET_GRID_SIZE (-5))) = 1.
Proof.
  split.
  - destruct (proj1 set_grid_size_clamps SingleStore.initialState 7)
      as (_ & _ & _ & H & _).
    apply H. lia.
  - destruct (proj2 set_grid_size_clamps CellStore.initialState (-5))
      as (_ & _ & _ & _ & H & _).
    apply H. lia.
Defined.

(** C5. One tick of the playback timer, for a state that is playing, has
    at least one frame and a frame index of at least -1 (every reachable
    state has one, and with frames it lies within 0..frameCount-1), sets
    [currentFrameIndex] to [(currentFrameIndex + 1) mod frameCount] and
    changes neither the frames nor the playing flag; with 5 frames and index
    4 the tick gives 0. With no frames the tick leaves the state as it is. *)
Theorem playback_tick_wraps :
  (forall state : SingleStore.DICOMState,
     SingleStore.isPlaying state = true ->
     SingleStore.frames state <> [] ->
     -1 <= SingleStore.currentFrameIndex state ->
     SingleStore.currentFrameIndex (SingleStore.playbackTick state)
     = (SingleStore.currentFrameIndex state + 1) mod jsLength (SingleStore.frames state) /\
     SingleStore.frames (SingleStore.playbackTick state) = SingleStore.frames state /\
     SingleStore.isPlaying (SingleStore.playbackTick state) = true) /\
  (forall state : SingleStore.DICOMState,
     SingleStore.reachable state ->
     -1 <= SingleStore.currentFrameIndex state /\
     (SingleStore.frames state <> [] ->
        0 <= SingleStore.currentFrameIndex state <= jsLength (SingleStore.frames state) - 1)) /\
  (forall state : SingleStore.DICOMState,
     SingleStore.isPlaying state = true ->
     jsLength (SingleStore.frames state) = 5 ->
     SingleStore.currentFrameIndex state = 4 ->
     SingleStore.currentFrameIndex (SingleStore.playbackTick state) = 0) /\
  (forall state : SingleStore.DICOMState,
     SingleStore.frames state = [] ->
     SingleStore.playbackTick state = state).
Proof.
  split; [|split; [|split]].
  - intros state Hp Hf H0. split; [apply SingleStoreFacts.playbackTick_index; assumption|].
    unfold SingleStore.playbackTick.
    destruct (SingleStore.autoPlayEffect _ _ _ _); [|auto]. simpl. auto.
  - intros state Hr.
    destruct (SingleStoreFacts.single_reachable_index_range state Hr) as [H1 H2].
    split; [|exact H1].
    destruct (decide (SingleStore.frames state = [])) as [E|E].
    + specialize (H2 E). lia.
    + specialize (H1 E). lia.
  - intros state Hp Hl Hc.
    assert (Hf : SingleStore.frames state <> []).
    { intros E. rewrite E in Hl. discriminate Hl. }
    rewrite SingleStoreFacts.playbackTick_index by (assumption || lia).
    rewrite Hl, Hc. reflexivity.
  - apply SingleStoreFacts.playbackTick_no_frames.
Qed.

Lemma playback_tick_wraps_witness :
  SingleStore.currentFrameIndex
    (SingleStore.playbackTick
       (SingleStore.dicomReducer
          (SingleStore.dicomReducer
             (SingleStore.dicomReducer SingleStore.initialState
                (SingleStore.SET_FRAMES fiveFrames))
             (SingleStore.SET_CURRENT_FRAME 4))
          (SingleStore.SET_PLAYING true))) = 0.
Proof.
  destruct playback_tick_wraps as (_ & _ & H & _).
  apply H; reflexivity.
Defined.

(** ** The uniform grid viewer *)

Lemma omap_all_None {A B : Type} (f : A -> option B) (xs : list A) :
  (forall x, f x = None) -> omap f xs = [].
Proof.
  intros H. induction xs as [|x xs IH]; [reflexivity|].
  simpl. rewrite H. exact IH.
Qed.


Lemma js_index_None {A : Type} (xs : list A) (k : Z) :
  ~ (0 <= k < jsLength xs) -> js_index xs k = None.
Proof.
  intros Hk. unfold js_index, jsLength in *.
  destruct (k <? 0) eqn:E; [reflexivity|].
  apply lookup_ge_None_2. lia.
Qed.








(** *** The canvases *)

Module GridCanvasFacts.
Import GridCanvas.









Lemma settled (target : Element -> option Composite) (g : Grid) (e : Element)
    (c : Composite) :
  settlesTo target g -> decoding g = [] -> target e = Some c -> painted g !! e = Some c.
Proof.
  intros [_ H2] Hd Ht. destruct (H2 e c Ht) as [[c' Hin]|Hp]; [|exact Hp].
  rewrite Hd in Hin. apply elem_of_nil in Hin. contradiction.
Qed.





End GridCanvasFacts.









(** ** Reassigning the series of a grid cell *)

Module CellGridFacts.
Import CellStore CellGrid.


Lemma loadSeriesForCell_resume_cell (state : DICOMState) (l : PendingLoad)
    (fs : list DICOMFrame) :
  selectedSeriesForCells (loadSeriesForCell_resume state l fs) !! pendingCell l
  = Some {| seriesUid := pendingSeriesUid l; frameIndex := pendingFrameIndex l |} /\
  cellFrames (loadSeriesForCell_resume state l fs) !! pendingCell l = Some fs.
Proof.
  unfold loadSeriesForCell_resume. simpl. rewrite !lookup_insert_eq. split; reflexivity.
Qed.


End CellGridFacts.

Module CellDisplayFacts.
Import CellStore CellGrid.

Lemma js_index_Some_bounds {A : Type} (xs : list A) (k : Z) (x : A) :
  js_index xs k = Some x -> 0 <= k < jsLength xs.
Proof.
  unfold js_index, jsLength. destruct (k <? 0) eqn:E; [discriminate|].
  intros H. apply lookup_lt_Some in H. lia.
Qed.

Lemma frameIndexOf_Some (c : CellSeries) : frameIndexOf (Some c) = frameIndex c.
Proof. unfold frameIndexOf. destruct (Z.eqb_spec (frameIndex c) 0); congruence. Qed.

(** The render and the loading loop test the same things; together they
    amount to one lookup. *)
Lemma loadGridCell_closed_form (state : DICOMState) (i : Z) :
  loadGridCell state i =
  match selectedSeriesForCells state !! i with
  | Some c =>
      if truthyString (seriesUid c) then
        (fun frame =>
           {| imageDataUrl := imageDataUrlOf frame;
              ww := cellWindowWidth (default defaultCellWindowLevel (cellWindowLevels state !! i));
              wl := cellWindowLevel (default defaultCellWindowLevel (cellWindowLevels state !! i)) |})
        <$> js_index (default [] (cellFrames state !! i)) (frameIndex c)
      else None
  | None => None
  end.
Proof.
  unfold loadGridCell, renderedFrame.
  destruct (selectedSeriesForCells state !! i) as [c|]; [|reflexivity].
  rewrite frameIndexOf_Some. cbn [hasSeries].
  destruct (truthyString (seriesUid c)); [|reflexivity].
  set (buf := default [] (cellFrames state !! i)).
  destruct (js_index buf (frameIndex c)) as [frame|] eqn:Ej.
  - pose proof (js_index_Some_bounds _ _ _ Ej) as Hb.
    replace (frameIndex c <? jsLength buf) with true by lia.
    replace (0 <? jsLength buf) with true by lia.
    reflexivity.
  - destruct (frameIndex c <? jsLength buf); reflexivity.
Qed.

Lemma renderedFrame_closed_form (state : DICOMState) (i : Z) :
  renderedFrame state i =
  match selectedSeriesForCells state !! i with
  | Some c =>
      if truthyString (seriesUid c)
      then js_index (default [] (cellFrames state !! i)) (frameIndex c)
      else None
  | None => None
  end.
Proof.
  unfold renderedFrame.
  destruct (selectedSeriesForCells state !! i) as [c|]; [|reflexivity].
  rewrite frameIndexOf_Some. cbn [hasSeries].
  destruct (truthyString (seriesUid c)); [|reflexivity].
  set (buf := default [] (cellFrames state !! i)).
  destruct (js_index buf (frameIndex c)) as [frame|] eqn:Ej.
  - pose proof (js_index_Some_bounds _ _ _ Ej) as Hb.
    replace (frameIndex c <? jsLength buf) with true by lia. reflexivity.
  - destruct (frameIndex c <? jsLength buf); reflexivity.
Qed.

End CellDisplayFacts.

Module CellCanvasFacts.
Import CellStore CellGrid.





End CellCanvasFacts.




(** ** Composites racing for the single viewer's canvas *)

Module Viewer2DFacts.
Import Viewer2D.

(** A decode that completes repaints the canvas with its own request. *)
Lemma onload_repaints (v : Viewer) (k : nat) (r : Request) :
  decoding v !! k = Some r ->
  canvas (step v (OnLoad k)) = Some (draw r) /\
  decoding (step v (OnLoad k)) = delete k (decoding v).
Proof. intros H. simpl. rewrite H. split; reflexivity. Qed.

End Viewer2DFacts.

(** C9, as amended. [loadAndDisplayImage] carries no request token: every
    decode that completes repaints the canvas with its own request, so of
    two requests issued one after the other on a mounted canvas with no
    decode in flight, the canvas ends up showing the one whose decode
    completed last. When the decodes complete in issuance order that is the
    later-issued request; when the later-issued decode completes first, the
    earlier request is painted over it. *)
Theorem last_completed_decode_wins (v : Viewer2D.Viewer) (r1 r2 : Viewer2D.Request) :
  Viewer2D.canvasMounted v = true ->
  Viewer2D.decoding v = [] ->
  Viewer2D.canvas
    (Viewer2D.run v [Viewer2D.LoadAndDisplayImage r1; Viewer2D.LoadAndDisplayImage r2;
                     Viewer2D.OnLoad 0; Viewer2D.OnLoad 0])
  = Some (Viewer2D.draw r2) /\
  Viewer2D.canvas
    (Viewer2D.run v [Viewer2D.LoadAndDisplayImage r1; Viewer2D.LoadAndDisplayImage r2;
                     Viewer2D.OnLoad 1; Viewer2D.OnLoad 0])
  = Some (Viewer2D.draw r1) /\
  Viewer2D.decoding
    (Viewer2D.run v [Viewer2D.LoadAndDisplayImage r1; Viewer2D.LoadAndDisplayImage r2;
                     Viewer2D.OnLoad 0; Viewer2D.OnLoad 0])
  = [] /\
  Viewer2D.decoding
    (Viewer2D.run v [Viewer2D.LoadAndDisplayImage r1; Viewer2D.LoadAndDisplayImage r2;
                     Viewer2D.OnLoad 1; Viewer2D.OnLoad 0])
  = [] /\
  (forall (v' : Viewer2D.Viewer) (k : nat) (r : Viewer2D.Request),
     Viewer2D.decoding v' !! k = Some r ->
     Viewer2D.canvas (Viewer2D.step v' (Viewer2D.OnLoad k)) = Some (Viewer2D.draw r)).
Proof.
  intros Hm Hd. unfold Viewer2D.run. simpl. rewrite Hm. simpl. rewrite Hd. simpl.
  repeat split. intros v' k r H. apply Viewer2DFacts.onload_repaints, H.
Qed.

Lemma last_completed_decode_wins_witness :
  Viewer2D.canvasMounted idleViewer = true /\
  Viewer2D.decoding idleViewer = [] /\
  Viewer2D.canvas
    (Viewer2D.run idleViewer
       [Viewer2D.LoadAndDisplayImage request_400_50;
        Viewer2D.LoadAndDisplayImage request_200_30;
        Viewer2D.OnLoad 0; Viewer2D.OnLoad 0])
  = Some (Viewer2D.draw request_200_30).
Proof.
  split; [reflexivity|]. split; [reflexivity|].
  apply (last_completed_decode_wins idleViewer request_400_50 request_200_30);
    reflexivity.
Defined.

(** C9 as stated fails: with (400,50) issued first and (200,30) second, if
    the decode of (200,30) completes first and that of (400,50) last, the
    canvas is left showing (400,50). *)
Lemma stale_composite_overwrites_newer :
  ~ (Viewer2D.drawnWindow <$>
       Viewer2D.canvas
         (Viewer2D.run idleViewer
            [Viewer2D.LoadAndDisplayImage request_400_50;
             Viewer2D.LoadAndDisplayImage request_200_30;
             Viewer2D.OnLoad 1; Viewer2D.OnLoad 0])
     = Some (Some (200%Q, 30%Q))).
Proof. vm_compute. discriminate. Qed.

(** * Further properties of the embedded code *)

(** ** Window/level transform: degenerate and full-range windows *)

Lemma linearMapping_closed_form (ww wl : Q) (gray : Z) :
  (linearMapping ww wl gray == (inject_Z gray - wl + ww / 2) / ww * 255)%Q.
Proof.
  unfold linearMapping, windowMin, windowMax.
  assert (E1 : (wl + ww / 2 - (wl - ww / 2) == ww)%Q) by field.
  assert (E2 : (inject_Z gray - (wl - ww / 2) == inject_Z gray - wl + ww / 2)%Q) by ring.
  rewrite E1, E2. reflexivity.
Qed.

(** X1. With a finite window level and a window width of 0 or less the
    transform is a plain threshold at the [windowMin] the code computes: the
    linear arm is never reached and every sample becomes 0 (at or below
    [windowMin]) or 255 (above it). *)
Theorem nonpositive_width_thresholds (windowWidth windowLevel : Double.double) (gray : Z) :
  Double.le windowWidth (Double.ofZ 0) = true -> Double.isFinite windowLevel = true ->
  (Double.le (Double.ofZ gray) (Double.windowMin windowWidth windowLevel) = true \/
   Double.ge (Double.ofZ gray) (Double.windowMax windowWidth windowLevel) = true) /\
  Double.written windowWidth windowLevel gray
  = (if Double.le (Double.ofZ gray) (Double.windowMin windowWidth windowLevel)
     then 0 else 255).
Proof.
  intros Hw Fl.
  pose proof (DoubleFacts.nonpositive_width_bounds _ _ Hw Fl) as B.
  unfold Double.written, Double.newValue.
  destruct (Double.le (Double.ofZ gray) (Double.windowMin windowWidth windowLevel)) eqn:A.
  - split; [left; reflexivity | reflexivity].
  - pose proof (DoubleFacts.crossed_bounds _ _ _ B A) as C. rewrite C.
    split; [right; reflexivity | vm_compute; reflexivity].
Qed.

Lemma nonpositive_width_thresholds_witness :
  Double.written (Double.ofZ 0) (Double.ofZ 100) 100 = 0 /\
  Double.written (Double.ofZ 0) (Double.ofZ 100) 101 = 255 /\
  Double.written (Double.ofQ (- (3 # 2) * Double.pow2 (-46)))
                 (Double.ofQ (100 - Double.pow2 (-46))) 100 = 0.
Proof.
  split; [|split].
  - destruct (nonpositive_width_thresholds (Double.ofZ 0) (Double.ofZ 100) 100) as [_ H];
      [reflexivity | reflexivity | exact H].
  - destruct (nonpositive_width_thresholds (Double.ofZ 0) (Double.ofZ 100) 101) as [_ H];
      [reflexivity | reflexivity | exact H].
  - destruct (nonpositive_width_thresholds
                (Double.ofQ (- (3 # 2) * Double.pow2 (-46)))
                (Double.ofQ (100 - Double.pow2 (-46))) 100) as [_ H];
      [vm_compute; reflexivity | vm_compute; reflexivity | rewrite H; vm_compute; reflexivity].
Defined.

(** X2. The full-range window (width 255, level 127.5) maps every sample to
    itself, so [applyWindowLevel] with it only copies the red sample of each
    pixel to green and blue: a raster whose pixels are already gray
    (red = green = blue) comes back unchanged. *)
Theorem full_range_window_is_identity :
  (forall gray, isSample gray -> newValue 255 (255 # 2) gray = gray) /\
  (forall raster : list Z,
     Forall isSample raster ->
     (forall i, (i mod 4 <> 3)%nat -> (i < length raster)%nat ->
        raster !! i = raster !! (i - i mod 4)%nat) ->
     applyWindowLevel raster 255 (255 # 2) = raster).
Proof.
  assert (S1 : forall gray, isSample gray -> newValue 255 (255 # 2) gray = gray).
  { intros gray [H0 H1]. unfold newValue.
    assert (Hc : (255 / 2 == 255 # 2)%Q) by reflexivity.
    destruct (windowBranch 255 (255 # 2) gray) eqn:E.
    - apply windowBranch_Below in E. unfold windowMin in E. rewrite Hc in E.
      assert (inject_Z gray <= 0)%Q by lra.
      assert (gray <= 0) by (rewrite Zle_Qle; exact H). lia.
    - apply windowBranch_Above in E. unfold windowMax in E. destruct E as [_ E].
      rewrite Hc in E.
      assert (inject_Z 255 <= inject_Z gray)%Q by (change (inject_Z 255) with 255%Q; lra).
      assert (255 <= gray) by (rewrite Zle_Qle; exact H). lia.
    - unfold Math_round.
      assert (Q1 : (linearMapping 255 (255 # 2) gray + (1 # 2) == inject_Z gray + (1 # 2))%Q).
      { rewrite linearMapping_closed_form. field. }
      rewrite Q1.
      assert (F : Qfloor (inject_Z gray + (1 # 2)) = gray).
      { apply Z.le_antisymm.
        - assert (Qfloor (inject_Z gray + (1 # 2)) < gray + 1); [|lia].
          rewrite Zlt_Qlt.
          apply Qle_lt_trans with (inject_Z gray + (1 # 2))%Q; [apply Qfloor_le|].
          rewrite inject_Z_plus. change (inject_Z 1) with 1%Q. lra.
        - rewrite <- (Qfloor_Z gray) at 1. apply Qfloor_resp_le. lra. }
      exact F. }
  split; [exact S1|].
  intros raster HF Hgray. apply list_eq. intros i.
  rewrite applyWindowLevel_lookup.
  destruct (i mod 4 =? 3)%nat eqn:Ei; [reflexivity|].
  destruct (raster !! i) as [x|] eqn:Ex; [|reflexivity].
  apply Nat.eqb_neq in Ei.
  assert (Hi : (i < length raster)%nat) by (apply lookup_lt_Some in Ex; exact Ex).
  pose proof (Hgray i Ei Hi) as Hg. rewrite Ex in Hg. rewrite <- Hg. simpl.
  assert (Hx : isSample x).
  { rewrite Forall_forall in HF. apply HF. apply list_elem_of_lookup. eauto. }
  rewrite S1 by exact Hx. rewrite toUint8Clamped_id by exact Hx. reflexivity.
Qed.

Lemma full_range_window_is_identity_witness :
  applyWindowLevel [10; 10; 10; 255; 200; 200; 200; 128] 255 (255 # 2)
  = [10; 10; 10; 255; 200; 200; 200; 128].
Proof.
  apply (proj2 full_range_window_is_identity).
  - repeat constructor; unfold isSample; lia.
  - intros i Hm Hi. simpl in Hi.
    do 8 (destruct i as [|i]; [first [reflexivity | exfalso; apply Hm; reflexivity]|]).
    lia.
Defined.

(** ** The reducers: invariants and navigation *)

(** X4. In both reducers every action keeps [currentFrameIndex] within the
    bounds of the frame list, except [NEXT_FRAME] on an empty list; and
    [SET_FRAMES] puts the index back within bounds from any state. *)
Theorem frame_index_bounds_kept :
  (forall (state : SingleStore.DICOMState) (action : SingleStore.DICOMAction),
     SingleStore.frameIndexInBounds state ->
     action <> SingleStore.NEXT_FRAME \/ SingleStore.frames state <> [] ->
     SingleStore.frameIndexInBounds (SingleStore.dicomReducer state action)) /\
  (forall (state : CellStore.DICOMState) (action : CellStore.DICOMAction),
     CellStore.frameIndexInBounds state ->
     action <> CellStore.NEXT_FRAME \/ CellStore.frames state <> [] ->
     CellStore.frameIndexInBounds (CellStore.dicomReducer state action)) /\
  (forall (state : SingleStore.DICOMState) (payload : list DICOMFrame),
     SingleStore.frameIndexInBounds
       (SingleStore.dicomReducer state (SingleStore.SET_FRAMES payload))) /\
  (forall (state : CellStore.DICOMState) (payload : list DICOMFrame),
     CellStore.frameIndexInBounds
       (CellStore.dicomReducer state (CellStore.SET_FRAMES payload))).
Proof.
  split; [exact SingleStoreFacts.single_frameIndexInBounds_preserved|].
  split; [exact CellStoreFacts.cell_frameIndexInBounds_preserved|].
  split; intros state payload.
  - unfold SingleStore.frameIndexInBounds. simpl. frames_cases payload; bounds_finish.
  - unfold CellStore.frameIndexInBounds. simpl. frames_cases payload; bounds_finish.
Qed.

Lemma frame_index_bounds_kept_witness :
  SingleStore.frameIndexInBounds
    (SingleStore.dicomReducer
       (SingleStore.dicomReducer SingleStore.initialState (SingleStore.SET_FRAMES tenFrames))
       SingleStore.NEXT_FRAME).
Proof.
  apply (proj1 frame_index_bounds_kept).
  - apply (proj1 (proj2 (proj2 frame_index_bounds_kept))).
  - right. discriminate.
Defined.

Lemma single_reachable_parameters (state : SingleStore.DICOMState) :
  SingleStore.reachable state ->
  1 <= SingleStore.gridSize state <= 4 /\
  ((1 # 10) <= SingleStore.playSpeed state)%Q /\
  (SingleStore.playSpeed state <= 5)%Q.
Proof.
  induction 1 as [|state action _ (IH1 & IH2 & IH3)].
  - simpl. split; [lia|]. split; discriminate.
  - destruct action; simpl; try (split; [assumption|split; assumption]).
    + split; [lia|]. split; assumption.
    + split; [assumption|]. split.
      * apply Q.le_max_l.
      * apply Q.max_lub; [discriminate | apply Q.le_min_l].
Qed.

Lemma cell_reachable_gridSize (state : CellStore.DICOMState) :
  CellStore.reachable state -> 1 <= CellStore.gridSize state <= 2.
Proof.
  induction 1 as [|state action _ IH].
  - simpl. lia.
  - destruct action; simpl; try assumption. lia.
Qed.

(** X5. In every reachable state the grid size is within the range its
    store supports (1..4 in the single-select store, 1..2 in the per-cell
    store) and the play speed is within 0.1..5. *)
Theorem reachable_view_parameters_in_range :
  (forall state : SingleStore.DICOMState,
     SingleStore.reachable state ->
     1 <= SingleStore.gridSize state <= 4 /\
     ((1 # 10) <= SingleStore.playSpeed state)%Q /\
     (SingleStore.playSpeed state <= 5)%Q) /\
  (forall state : CellStore.DICOMState,
     CellStore.reachable state -> 1 <= CellStore.gridSize state <= 2).
Proof.
  split; [exact single_reachable_parameters | exact cell_reachable_gridSize].
Qed.

Lemma reachable_view_parameters_in_range_witness :
  (SingleStore.playSpeed
     (SingleStore.dicomReducer SingleStore.initialState (SingleStore.SET_PLAY_SPEED 99))
   <= 5)%Q /\
  CellStore.gridSize
    (CellStore.dicomReducer CellStore.initialState (CellStore.SET_GRID_SIZE 3)) <= 2.
Proof.
  split.
  - apply (proj1 reachable_view_parameters_in_range).
    apply SingleStore.reachable_dispatch, SingleStore.reachable_init.
  - apply (proj2 reachable_view_parameters_in_range).
    apply CellStore.reachable_dispatch, CellStore.reachable_init.
Defined.

(** X6. On a non-empty frame list with the index within bounds,
    [NEXT_FRAME] moves one frame forward and stops at the last frame (it
    does not wrap), [PREV_FRAME] moves one frame back and stops at frame 0,
    and each undoes the other away from the two ends. *)
Theorem next_prev_frame_navigation :
  (forall state : SingleStore.DICOMState,
     SingleStore.frames state <> [] ->
     0 <= SingleStore.currentFrameIndex state <= jsLength (SingleStore.frames state) - 1 ->
     SingleStore.currentFrameIndex (SingleStore.dicomReducer state SingleStore.NEXT_FRAME)
     = (if SingleStore.currentFrameIndex state =? jsLength (SingleStore.frames state) - 1
        then SingleStore.currentFrameIndex state
        else SingleStore.currentFrameIndex state + 1) /\
     SingleStore.currentFrameIndex (SingleStore.dicomReducer state SingleStore.PREV_FRAME)
     = (if SingleStore.currentFrameIndex state =? 0 then 0
        else SingleStore.currentFrameIndex state - 1) /\
     (SingleStore.currentFrameIndex state < jsLength (SingleStore.frames state) - 1 ->
      SingleStore.currentFrameIndex
        (SingleStore.dicomReducer
           (SingleStore.dicomReducer state SingleStore.NEXT_FRAME) SingleStore.PREV_FRAME)
      = SingleStore.currentFrameIndex state) /\
     (0 < SingleStore.currentFrameIndex state ->
      SingleStore.currentFrameIndex
        (SingleStore.dicomReducer
           (SingleStore.dicomReducer state SingleStore.PREV_FRAME) SingleStore.NEXT_FRAME)
      = SingleStore.currentFrameIndex state)) /\
  (forall state : CellStore.DICOMState,
     CellStore.frames state <> [] ->
     0 <= CellStore.currentFrameIndex state <= jsLength (CellStore.frames state) - 1 ->
     CellStore.currentFrameIndex (CellStore.dicomReducer state CellStore.NEXT_FRAME)
     = (if CellStore.currentFrameIndex state =? jsLength (CellStore.frames state) - 1
        then CellStore.currentFrameIndex state
        else CellStore.currentFrameIndex state + 1) /\
     CellStore.currentFrameIndex (CellStore.dicomReducer state CellStore.PREV_FRAME)
     = (if CellStore.currentFrameIndex state =? 0 then 0
        else CellStore.currentFrameIndex state - 1) /\
     (CellStore.currentFrameIndex state < jsLength (CellStore.frames state) - 1 ->
      CellStore.currentFrameIndex
        (CellStore.dicomReducer
           (CellStore.dicomReducer state CellStore.NEXT_FRAME) CellStore.PREV_FRAME)
      = CellStore.currentFrameIndex state) /\
     (0 < CellStore.currentFrameIndex state ->
      CellStore.currentFrameIndex
        (CellStore.dicomReducer
           (CellStore.dicomReducer state CellStore.PREV_FRAME) CellStore.NEXT_FRAME)
      = CellStore.currentFrameIndex state)).
Proof.
  split; intros state Hf Hb; simpl.
  - destruct (Z.eqb_spec (SingleStore.currentFrameIndex state)
                (jsLength (SingleStore.frames state) - 1));
      destruct (Z.eqb_spec (SingleStore.currentFrameIndex state) 0);
      repeat split; intros; lia.
  - destruct (Z.eqb_spec (CellStore.currentFrameIndex state)
                (jsLength (CellStore.frames state) - 1));
      destruct (Z.eqb_spec (CellStore.currentFrameIndex state) 0);
      repeat split; intros; lia.
Qed.

Lemma next_prev_frame_navigation_witness :
  SingleStore.currentFrameIndex
    (SingleStore.dicomReducer
       (SingleStore.dicomReducer
          (SingleStore.dicomReducer SingleStore.initialState (SingleStore.SET_FRAMES fiveFrames))
          (SingleStore.SET_CURRENT_FRAME 4))
       SingleStore.NEXT_FRAME) = 4.
Proof.
  destruct (proj1 next_prev_frame_navigation
              (SingleStore.dicomReducer
                 (SingleStore.dicomReducer SingleStore.initialState
                    (SingleStore.SET_FRAMES fiveFrames))
                 (SingleStore.SET_CURRENT_FRAME 4)))
    as (H & _).
  - discriminate.
  - vm_compute. split; discriminate.
  - exact H.
Defined.

(** ** The frame slider and the playback timer *)

(** X7. Every value the frame slider of [Controls] can produce, 0 up to
    [max (0, frames.length - 1)], is stored unchanged by the
    [SET_CURRENT_FRAME] it is wired to, the empty frame list included. *)
Theorem frame_slider_value_is_stored (state : SingleStore.DICOMState) (value : Z) :
  0 <= value <= Controls.frameSliderMax (SingleStore.frames state) ->
  SingleStore.currentFrameIndex
    (SingleStore.dicomReducer state (SingleStore.SET_CURRENT_FRAME value)) = value.
Proof.
  unfold Controls.frameSliderMax. simpl. intros H.
  frames_cases (SingleStore.frames state); lia.
Qed.

Lemma frame_slider_value_is_stored_witness :
  SingleStore.currentFrameIndex
    (SingleStore.dicomReducer SingleStore.initialState (SingleStore.SET_CURRENT_FRAME 0)) = 0.
Proof. apply frame_slider_value_is_stored. vm_compute. split; discriminate. Defined.

(** X8. In a reachable state that is playing and has frames, the auto-play
    effect starts a timer whose period [1000 / playSpeed] is defined (the
    play speed is not 0) and lies between 200 ms and 10 s. *)
Theorem playback_timer_period_in_range (state : SingleStore.DICOMState) :
  SingleStore.reachable state ->
  SingleStore.isPlaying state = true ->
  SingleStore.frames state <> [] ->
  exists timer,
    SingleStore.autoPlayEffect (SingleStore.isPlaying state) (SingleStore.frames state)
      (SingleStore.currentFrameIndex state) (SingleStore.playSpeed state) = Some timer /\
    (SingleStore.period timer == 1000 / SingleStore.playSpeed state)%Q /\
    (0 < SingleStore.playSpeed state)%Q /\
    (200 <= SingleStore.period timer)%Q /\
    (SingleStore.period timer <= 10000)%Q.
Proof.
  intros Hr Hp Hf.
  destruct (single_reachable_parameters state Hr) as (_ & Hlo & Hhi).
  pose proof (jsLength_pos _ Hf) as Hl.
  unfold SingleStore.autoPlayEffect. rewrite Hp.
  destruct (jsLength (SingleStore.frames state) =? 0) eqn:E; [lia|]. simpl.
  eexists. split; [reflexivity|]. simpl.
  assert (Hpos : (0 < SingleStore.playSpeed state)%Q) by lra.
  split; [reflexivity|]. split; [exact Hpos|]. split.
  - apply Qle_shift_div_l; [exact Hpos | lra].
  - apply Qle_shift_div_r; [exact Hpos | lra].
Qed.

Lemma playback_timer_period_in_range_witness :
  exists timer,
    SingleStore.autoPlayEffect true fiveFrames 0 1 = Some timer /\
    (200 <= SingleStore.period timer)%Q.
Proof.
  destruct (playback_timer_period_in_range
              (SingleStore.dicomReducer
                 (SingleStore.dicomReducer SingleStore.initialState
                    (SingleStore.SET_FRAMES fiveFrames))
                 (SingleStore.SET_PLAYING true)))
    as (timer & H1 & _ & _ & H2 & _).
  - do 2 apply SingleStore.reachable_dispatch. apply SingleStore.reachable_init.
  - reflexivity.
  - discriminate.
  - exists timer. split; [exact H1 | exact H2].
Defined.

Lemma playbackTick_keeps_playing (state : SingleStore.DICOMState) :
  SingleStore.frames (SingleStore.playbackTick state) = SingleStore.frames state /\
  SingleStore.isPlaying (SingleStore.playbackTick state) = SingleStore.isPlaying state.
Proof.
  unfold SingleStore.playbackTick.
  destruct (SingleStore.autoPlayEffect _ _ _ _); split; reflexivity.
Qed.

Lemma playbackTick_iter_index (state : SingleStore.DICOMState) (k : nat) :
  SingleStore.isPlaying state = true ->
  SingleStore.frames state <> [] ->
  0 <= SingleStore.currentFrameIndex state <= jsLength (SingleStore.frames state) - 1 ->
  SingleStore.frames (Nat.iter k SingleStore.playbackTick state) = SingleStore.frames state /\
  SingleStore.isPlaying (Nat.iter k SingleStore.playbackTick state) = true /\
  SingleStore.currentFrameIndex (Nat.iter k SingleStore.playbackTick state)
  = (SingleStore.currentFrameIndex state + Z.of_nat k) mod jsLength (SingleStore.frames state).
Proof.
  intros Hp Hf Hb. pose proof (jsLength_pos _ Hf) as Hl.
  induction k as [|k (IH1 & IH2 & IH3)].
  - simpl. split; [reflexivity|]. split; [exact Hp|].
    rewrite Z.add_0_r, Z.mod_small by lia. reflexivity.
  - rewrite !Nat.iter_succ.
    destruct (playbackTick_keeps_playing (Nat.iter k SingleStore.playbackTick state))
      as [K1 K2].
    split; [rewrite K1; exact IH1|]. split; [rewrite K2; exact IH2|].
    rewrite SingleStoreFacts.playbackTick_index.
    + rewrite IH1, IH3, Z.add_mod_idemp_l by lia. f_equal. lia.
    + exact IH2.
    + rewrite IH1. exact Hf.
    + rewrite IH3.
      pose proof (Z.mod_pos_bound (SingleStore.currentFrameIndex state + Z.of_nat k)
                    (jsLength (SingleStore.frames state))).
      lia.
Qed.

(** X9. Playback visits every frame and loops: from a playing state with
    frames and the index within bounds, [k] timer ticks lead to frame
    [(currentFrameIndex + k) mod frameCount]; [frameCount] ticks lead back to
    the frame playback started from, and every frame is reached within fewer
    than [frameCount] ticks. *)
Theorem playback_cycles_through_all_frames (state : SingleStore.DICOMState) :
  SingleStore.isPlaying state = true ->
  SingleStore.frames state <> [] ->
  0 <= SingleStore.currentFrameIndex state <= jsLength (SingleStore.frames state) - 1 ->
  (forall k : nat,
     SingleStore.currentFrameIndex (Nat.iter k SingleStore.playbackTick state)
     = (SingleStore.currentFrameIndex state + Z.of_nat k)
       mod jsLength (SingleStore.frames state)) /\
  SingleStore.currentFrameIndex
    (Nat.iter (length (SingleStore.frames state)) SingleStore.playbackTick state)
  = SingleStore.currentFrameIndex state /\
  (forall j, 0 <= j < jsLength (SingleStore.frames state) ->
     exists k : nat,
       (k < length (SingleStore.frames state))%nat /\
       SingleStore.currentFrameIndex (Nat.iter k SingleStore.playbackTick state) = j).
Proof.
  intros Hp Hf Hb. pose proof (jsLength_pos _ Hf) as Hl.
  assert (K : forall k : nat,
     SingleStore.currentFrameIndex (Nat.iter k SingleStore.playbackTick state)
     = (SingleStore.currentFrameIndex state + Z.of_nat k)
       mod jsLength (SingleStore.frames state)).
  { intros k. apply playbackTick_iter_index; assumption. }
  split; [exact K|]. split.
  - rewrite K. fold (jsLength (SingleStore.frames state)).
    rewrite <- Z.add_mod_idemp_r, Z.mod_same, Z.add_0_r, Z.mod_small by lia.
    reflexivity.
  - intros j Hj.
    pose proof (Z.mod_pos_bound (j - SingleStore.currentFrameIndex state)
                  (jsLength (SingleStore.frames state))) as Hm.
    exists (Z.to_nat ((j - SingleStore.currentFrameIndex state)
                      mod jsLength (SingleStore.frames state))).
    split.
    + unfold jsLength in *. lia.
    + rewrite K, Z2Nat.id by lia.
      rewrite Z.add_mod_idemp_r by lia.
      replace (SingleStore.currentFrameIndex state + (j - SingleStore.currentFrameIndex state))
        with j by lia.
      apply Z.mod_small. lia.
Qed.

Lemma playback_cycles_through_all_frames_witness :
  SingleStore.currentFrameIndex
    (Nat.iter 7 SingleStore.playbackTick
       (SingleStore.dicomReducer
          (SingleStore.dicomReducer
             (SingleStore.dicomReducer SingleStore.initialState
                (SingleStore.SET_FRAMES fiveFrames))
             (SingleStore.SET_CURRENT_FRAME 4))
          (SingleStore.SET_PLAYING true))) = 1.
Proof.
  destruct (playback_cycles_through_all_frames
              (SingleStore.dicomReducer
                 (SingleStore.dicomReducer
                    (SingleStore.dicomReducer SingleStore.initialState
                       (SingleStore.SET_FRAMES fiveFrames))
                    (SingleStore.SET_CURRENT_FRAME 4))
                 (SingleStore.SET_PLAYING true)))
    as (H & _).
  - reflexivity.
  - discriminate.
  - vm_compute. split; discriminate.
  - rewrite H. reflexivity.
Defined.

(** ** The uniform grid viewer: which cells are filled *)

(** X10. [updateAllImages], the path taken on a window/level change or a
    resize, issues exactly the composites that the loading effect
    [loadGridImages] issues, for the same cells in the same order, whatever
    the [imageIds] state holds. *)
Theorem update_path_issues_the_load_path_composites
    (frames : list DICOMFrame) (imageIds : list string)
    (currentFrameIndex gridSize : Z) (windowWidth windowLevel : Q) :
  GridViewerUpdates.updateAllImages frames imageIds currentFrameIndex gridSize
    windowWidth windowLevel
  = GridViewer.loadGridImages frames imageIds currentFrameIndex gridSize
      windowWidth windowLevel.
Proof.
  unfold GridViewerUpdates.updateAllImages, GridViewer.loadGridImages.
  destruct ((jsLength imageIds =? 0) || (jsLength frames =? 0)) eqn:E; [|reflexivity].
  apply omap_all_None. intros i.
  unfold GridViewerUpdates.updateCell.
  apply orb_true_iff in E. destruct E as [E|E]; apply Z.eqb_eq in E.
  - rewrite (js_index_None imageIds) by lia.
    destruct (_ && _); reflexivity.
  - unfold GridViewer.canvasRef, GridViewer.renderedFrame.
    rewrite (js_index_None frames) by lia.
    rewrite andb_false_r. reflexivity.
Qed.




(** ** The per-cell grid viewer: what a cell shows *)

(** X12. A cell of the per-cell grid gets a composite exactly when it has an
    entry with a non-empty series uid whose frame index lies within the
    cell's own frame buffer; the composite is then that frame with the cell's
    own window/level, 400/50 when the cell has no window entry. A cell gets a
    canvas exactly when it gets a composite, and in the initial state all
    cells are blank. *)
Theorem cell_composite_characterised (state : CellStore.DICOMState) (i : Z) :
  (forall c : Composite,
     CellGrid.loadGridCell state i = Some c <->
     exists (cell : CellStore.CellSeries) (frame : DICOMFrame),
       CellStore.selectedSeriesForCells state !! i = Some cell /\
       CellStore.seriesUid cell <> "" /\
       0 <= CellStore.frameIndex cell
         < jsLength (default [] (CellStore.cellFrames state !! i)) /\
       default [] (CellStore.cellFrames state !! i)
         !! Z.to_nat (CellStore.frameIndex cell) = Some frame /\
       c = {| imageDataUrl := imageDataUrlOf frame;
              ww := CellStore.cellWindowWidth
                      (default CellStore.defaultCellWindowLevel
                         (CellStore.cellWindowLevels state !! i));
              wl := CellStore.cellWindowLevel
                      (default CellStore.defaultCellWindowLevel
                         (CellStore.cellWindowLevels state !! i)) |}) /\
  (CellGrid.renderedFrame state i = None <-> CellGrid.loadGridCell state i = None) /\
  CellGrid.loadGridCell CellStore.initialState i = None.
Proof.
  split; [|split].
  - intros c. rewrite CellDisplayFacts.loadGridCell_closed_form. split.
    + destruct (CellStore.selectedSeriesForCells state !! i) as [cell|]; [|discriminate].
      destruct (truthyString (CellStore.seriesUid cell)) eqn:Et; [|discriminate].
      destruct (js_index _ (CellStore.frameIndex cell)) as [frame|] eqn:Ej; [|discriminate].
      intros H. injection H as <-.
      exists cell, frame. split; [reflexivity|]. split.
      { intros E. rewrite E in Et. discriminate. }
      split; [eapply CellDisplayFacts.js_index_Some_bounds; exact Ej|].
      split; [|reflexivity].
      unfold js_index in Ej. destruct (_ <? 0); [discriminate | exact Ej].
    + intros (cell & frame & Hs & Hu & Hb & Hl & ->). rewrite Hs.
      destruct (CellStore.seriesUid cell) eqn:Eu; [congruence|]. cbn [truthyString].
      unfold js_index. replace (CellStore.frameIndex cell <? 0) with false by lia.
      rewrite Hl. reflexivity.
  - rewrite CellDisplayFacts.loadGridCell_closed_form,
            CellDisplayFacts.renderedFrame_closed_form.
    destruct (CellStore.selectedSeriesForCells state !! i) as [cell|]; [|tauto].
    destruct (truthyString (CellStore.seriesUid cell)); [|tauto].
    destruct (js_index _ _); simpl; split; congruence.
  - rewrite CellDisplayFacts.loadGridCell_closed_form.
    destruct (CellStore.selectedSeriesForCells CellStore.initialState !! i) as [cell|] eqn:E;
      [|reflexivity].
    apply CellStoreFacts.fourCells_lookup in E. destruct E as [-> _]. reflexivity.
Qed.



(** X14. [RESET_VIEW] changes no cell's frame and gives every cell that
    shows one the window 400/50, the cells outside 0..3 included (they lose
    their window entry and fall back to the default). *)
Theorem reset_view_rewindows_every_cell (state : CellStore.DICOMState) (i : Z) :
  CellGrid.loadGridCell (CellStore.dicomReducer state CellStore.RESET_VIEW) i
  = (fun c => {| imageDataUrl := imageDataUrl c; ww := 400; wl := 50 |})
    <$> CellGrid.loadGridCell state i /\
  CellGrid.renderedFrame (CellStore.dicomReducer state CellStore.RESET_VIEW) i
  = CellGrid.renderedFrame state i.
Proof.
  rewrite !CellDisplayFacts.loadGridCell_closed_form,
          !CellDisplayFacts.renderedFrame_closed_form.
  cbn [CellStore.dicomReducer CellStore.selectedSeriesForCells CellStore.cellFrames
       CellStore.cellWindowLevels].
  split; [|reflexivity].
  assert (W : default CellStore.defaultCellWindowLevel
                (CellStore.fourCells CellStore.defaultCellWindowLevel !! i)
              = CellStore.defaultCellWindowLevel).
  { destruct (CellStore.fourCells CellStore.defaultCellWindowLevel !! i) as [w|] eqn:E;
      [|reflexivity].
    apply CellStoreFacts.fourCells_lookup in E. destruct E as [-> _]. reflexivity. }
  rewrite W.
  destruct (CellStore.selectedSeriesForCells state !! i) as [cell|]; [|reflexivity].
  destruct (truthyString (CellStore.seriesUid cell)); [|reflexivity].
  destruct (js_index _ _); reflexivity.
Qed.

(** X15. Loads of different cells do not race: when the fetches of two
    pending [loadSeriesForCell] calls for different cells resolve, the store
    ends up the same whichever resolves first. For the same cell the call
    that resolves last decides the cell's series and frames. *)
Theorem cell_loads_commute (API_BASE_URL : string) (state : CellStore.DICOMState)
    (l1 l2 : CellGrid.PendingLoad) (f1 f2 : list DICOMFrame) :
  (CellGrid.pendingCell l1 <> CellGrid.pendingCell l2 ->
   CellGrid.run API_BASE_URL {| CellGrid.store := state; CellGrid.pending := [l1; l2] |}
     [CellGrid.FetchResolved 0 f1; CellGrid.FetchResolved 0 f2]
   = CellGrid.run API_BASE_URL {| CellGrid.store := state; CellGrid.pending := [l1; l2] |}
       [CellGrid.FetchResolved 1 f2; CellGrid.FetchResolved 0 f1]) /\
  (CellGrid.pendingCell l1 = CellGrid.pendingCell l2 ->
   CellStore.selectedSeriesForCells
     (CellGrid.store
        (CellGrid.run API_BASE_URL
           {| CellGrid.store := state; CellGrid.pending := [l1; l2] |}
           [CellGrid.FetchResolved 1 f2; CellGrid.FetchResolved 0 f1]))
     !! CellGrid.pendingCell l1
   = Some {| CellStore.seriesUid := CellGrid.pendingSeriesUid l1;
             CellStore.frameIndex := CellGrid.pendingFrameIndex l1 |} /\
   CellStore.cellFrames
     (CellGrid.store
        (CellGrid.run API_BASE_URL
           {| CellGrid.store := state; CellGrid.pending := [l1; l2] |}
           [CellGrid.FetchResolved 1 f2; CellGrid.FetchResolved 0 f1]))
     !! CellGrid.pendingCell l1
   = Some f1).
Proof.
  split.
  - intros Hne. unfold CellGrid.run. simpl. f_equal.
    unfold CellGrid.loadSeriesForCell_resume. simpl. f_equal.
    + apply insert_insert_ne. congruence.
    + apply insert_insert_ne. congruence.
  - intros He. unfold CellGrid.run. simpl.
    rewrite !lookup_insert_eq. split; reflexivity.
Qed.

Lemma cell_loads_commute_witness :
  let l1 := {| CellGrid.pendingCell := 0; CellGrid.pendingSeriesUid := "A";
               CellGrid.pendingFrameIndex := 0; CellGrid.pendingUrl := "u/A" |} in
  let l2 := {| CellGrid.pendingCell := 1; CellGrid.pendingSeriesUid := "B";
               CellGrid.pendingFrameIndex := 0; CellGrid.pendingUrl := "u/B" |} in
  CellGrid.run "u" {| CellGrid.store := CellStore.initialState; CellGrid.pending := [l1; l2] |}
    [CellGrid.FetchResolved 0 fiveFrames; CellGrid.FetchResolved 0 tenFrames]
  = CellGrid.run "u" {| CellGrid.store := CellStore.initialState; CellGrid.pending := [l1; l2] |}
      [CellGrid.FetchResolved 1 tenFrames; CellGrid.FetchResolved 0 fiveFrames].
Proof.
  intros l1 l2.
  apply (proj1 (cell_loads_commute "u" CellStore.initialState l1 l2 fiveFrames tenFrames)).
  discriminate.
Defined.

(** ** The provider of the single-select store *)

Module SingleProviderFacts.
Import SingleStore SingleProvider.

Lemma findSeries_Some (s : DICOMSession) (seriesUid : string) (found : DICOMSeries) :
  findSeries s seriesUid = Some found -> uid found = seriesUid /\ found ∈ series s.
Proof.
  unfold findSeries. intros H. apply List.find_some in H. destruct H as [Hin Hb].
  apply bool_decide_eq_true in Hb. split; [exact Hb|].
  apply list_elem_of_In. exact Hin.
Qed.

Lemma findSeries_None (s : DICOMSession) (seriesUid : string) :
  findSeries s seriesUid = None -> forall x, x ∈ series s -> uid x <> seriesUid.
Proof.
  unfold findSeries. intros H x Hx.
  apply list_elem_of_In in Hx.
  pose proof (List.find_none _ _ H x Hx) as Hb. simpl in Hb.
  apply bool_decide_eq_false in Hb. exact Hb.
Qed.

Lemma run_dispatches (p : Provider) (actions : list DICOMAction) :
  run p (Dispatch <$> actions)
  = {| store := dispatchAll (store p) actions; pending := pending p |}.
Proof.
  revert p. induction actions as [|a actions IH]; intros p.
  - destruct p; reflexivity.
  - simpl. unfold run in IH. rewrite IH. reflexivity.
Qed.

End SingleProviderFacts.

(** X16. [loadSeries] with a session: the request for the series is sent and
    the error is cleared; the [SET_ERROR (null)] that follows
    [SET_LOADING (true)] lowers the loading flag again, so [isLoading] is
    false while the fetch is pending. When the fetch resolves the frame list
    is the fetched one, the frame index is 0, and the selected series is the
    first series of the session with that uid (the previous selection if
    there is none). When it fails the error is the rejection's message, or
    "Failed to load series", and frames, index and selection are untouched. *)
Theorem loadSeries_outcome (p : SingleProvider.Provider) (s : DICOMSession)
    (seriesUid : string) :
  SingleStore.session (SingleProvider.store p) = Some s ->
  SingleProvider.pending (SingleProvider.step p (SingleProvider.LoadSeries seriesUid))
  = SingleProvider.pending p ++
    [{| SingleProvider.request := SingleProvider.GetSeries (session_id s) seriesUid;
        SingleProvider.closure := SingleProvider.store p |}] /\
  SingleStore.isLoading
    (SingleProvider.store (SingleProvider.step p (SingleProvider.LoadSeries seriesUid)))
  = false /\
  SingleStore.error
    (SingleProvider.store (SingleProvider.step p (SingleProvider.LoadSeries seriesUid)))
  = None /\
  SingleStore.frames
    (SingleProvider.store (SingleProvider.step p (SingleProvider.LoadSeries seriesUid)))
  = SingleStore.frames (SingleProvider.store p) /\
  (forall fetched : list DICOMFrame,
     let settled :=
       SingleProvider.step (SingleProvider.step p (SingleProvider.LoadSeries seriesUid))
         (SingleProvider.SeriesResolved (length (SingleProvider.pending p)) fetched) in
     SingleStore.frames (SingleProvider.store settled) = fetched /\
     SingleStore.currentFrameIndex (SingleProvider.store settled) = 0 /\
     SingleStore.selectedSeries (SingleProvider.store settled)
     = match SingleProvider.findSeries s seriesUid with
       | Some found => Some found
       | None => SingleStore.selectedSeries (SingleProvider.store p)
       end /\
     SingleStore.error (SingleProvider.store settled) = None /\
     SingleStore.isLoading (SingleProvider.store settled) = false /\
     SingleProvider.pending settled = SingleProvider.pending p) /\
  (forall found, SingleProvider.findSeries s seriesUid = Some found ->
     uid found = seriesUid /\ found ∈ series s) /\
  (forall message : option string,
     let failed :=
       SingleProvider.step (SingleProvider.step p (SingleProvider.LoadSeries seriesUid))
         (SingleProvider.Rejected (length (SingleProvider.pending p)) message) in
     SingleStore.error (SingleProvider.store failed)
     = Some (default "Failed to load series" message) /\
     SingleStore.isLoading (SingleProvider.store failed) = false /\
     SingleStore.frames (SingleProvider.store failed)
     = SingleStore.frames (SingleProvider.store p) /\
     SingleStore.currentFrameIndex (SingleProvider.store failed)
     = SingleStore.currentFrameIndex (SingleProvider.store p) /\
     SingleStore.selectedSeries (SingleProvider.store failed)
     = SingleStore.selectedSeries (SingleProvider.store p)).
Proof.
  intros Hs. cbn [SingleProvider.step].
  unfold SingleProvider.loadSeries_start. rewrite Hs.
  cbn [SingleProvider.store SingleProvider.pending].
  split; [reflexivity|]. split; [reflexivity|]. split; [reflexivity|].
  split; [reflexivity|]. split; [|split].
  - intros fetched. cbn zeta. cbn [SingleProvider.step SingleProvider.pending].
    rewrite list_lookup_middle by reflexivity.
    cbn [SingleProvider.request]. unfold SingleProvider.settle.
    cbn [SingleProvider.store SingleProvider.pending].
    rewrite delete_middle, app_nil_r.
    unfold SingleProvider.loadSeries_resolved. cbn [SingleProvider.closure].
    rewrite Hs.
    destruct (SingleProvider.findSeries s seriesUid); repeat split.
  - apply SingleProviderFacts.findSeries_Some.
  - intros message. cbn zeta. cbn [SingleProvider.step SingleProvider.pending].
    rewrite list_lookup_middle by reflexivity.
    unfold SingleProvider.settle, SingleProvider.rejected.
    cbn [SingleProvider.request SingleProvider.store]. repeat split.
Qed.

Lemma loadSeries_outcome_witness :
  SingleStore.isLoading
    (SingleProvider.store
       (SingleProvider.step
          {| SingleProvider.store :=
               SingleStore.dicomReducer SingleStore.initialState
                 (SingleStore.SET_SESSION sampleSession);
             SingleProvider.pending := [] |}
          (SingleProvider.LoadSeries "A"))) = false.
Proof.
  destruct (loadSeries_outcome
              {| SingleProvider.store :=
                   SingleStore.dicomReducer SingleStore.initialState
                     (SingleStore.SET_SESSION sampleSession);
                 SingleProvider.pending := [] |}
              sampleSession "A" eq_refl) as (_ & H & _).
  exact H.
Defined.

(** X17. [loadFrame] with a session, a selected series and an index within
    the frame list: nothing is dispatched until the fetch resolves; then the
    frame list becomes the list the call's closure holds with the fetched
    frame at that index, whatever was dispatched in the meantime, the list
    keeps its length, and the current frame index is reset to 0 (the refresh
    goes through [SET_FRAMES]). *)
Theorem loadFrame_outcome (p : SingleProvider.Provider) (s : DICOMSession)
    (selected : DICOMSeries) (frameIndex : Z) (data : DICOMFrame)
    (meanwhile : list SingleStore.DICOMAction) :
  SingleStore.session (SingleProvider.store p) = Some s ->
  SingleStore.selectedSeries (SingleProvider.store p) = Some selected ->
  0 <= frameIndex < jsLength (SingleStore.frames (SingleProvider.store p)) ->
  SingleProvider.step p (SingleProvider.LoadFrame frameIndex)
  = {| SingleProvider.store := SingleProvider.store p;
       SingleProvider.pending := SingleProvider.pending p ++
         [{| SingleProvider.request :=
               SingleProvider.GetFrame (session_id s) (uid selected) frameIndex;
             SingleProvider.closure := SingleProvider.store p |}] |} /\
  (let settled :=
     SingleProvider.run p
       (SingleProvider.LoadFrame frameIndex
        :: (SingleProvider.Dispatch <$> meanwhile)
        ++ [SingleProvider.FrameResolved (length (SingleProvider.pending p)) data]) in
   SingleStore.frames (SingleProvider.store settled)
   = <[Z.to_nat frameIndex := data]> (SingleStore.frames (SingleProvider.store p)) /\
   SingleStore.frames (SingleProvider.store settled) !! Z.to_nat frameIndex = Some data /\
   (forall j, j <> Z.to_nat frameIndex ->
      SingleStore.frames (SingleProvider.store settled) !! j
      = SingleStore.frames (SingleProvider.store p) !! j) /\
   jsLength (SingleStore.frames (SingleProvider.store settled))
   = jsLength (SingleStore.frames (SingleProvider.store p)) /\
   SingleStore.currentFrameIndex (SingleProvider.store settled) = 0 /\
   SingleProvider.pending settled = SingleProvider.pending p).
Proof.
  intros Hs Hsel Hb.
  assert (St : SingleProvider.step p (SingleProvider.LoadFrame frameIndex)
    = {| SingleProvider.store := SingleProvider.store p;
         SingleProvider.pending := SingleProvider.pending p ++
           [{| SingleProvider.request :=
                 SingleProvider.GetFrame (session_id s) (uid selected) frameIndex;
               SingleProvider.closure := SingleProvider.store p |}] |}).
  { cbn [SingleProvider.step]. unfold SingleProvider.loadFrame_start.
    rewrite Hs, Hsel. reflexivity. }
  split; [exact St|]. cbn zeta.
  unfold SingleProvider.run. cbn [foldl]. rewrite St, foldl_app.
  fold (SingleProvider.run
          {| SingleProvider.store := SingleProvider.store p;
             SingleProvider.pending := SingleProvider.pending p ++
               [{| SingleProvider.request :=
                     SingleProvider.GetFrame (session_id s) (uid selected) frameIndex;
                   SingleProvider.closure := SingleProvider.store p |}] |}
          (SingleProvider.Dispatch <$> meanwhile)).
  rewrite SingleProviderFacts.run_dispatches.
  cbn [foldl SingleProvider.step SingleProvider.store SingleProvider.pending].
  rewrite list_lookup_middle by reflexivity. cbn [SingleProvider.request].
  unfold SingleProvider.loadFrame_resolved, jsArraySet. cbn [SingleProvider.closure].
  replace (frameIndex <? 0) with false by lia.
  replace (frameIndex <? jsLength (SingleStore.frames (SingleProvider.store p)))
    with true by lia.
  cbn [fmap option_fmap option_map]. unfold SingleProvider.settle.
  cbn [SingleProvider.store SingleProvider.pending].
  rewrite delete_middle, app_nil_r.
  unfold SingleProvider.dispatchAll. cbn [foldl SingleStore.dicomReducer
    SingleStore.frames SingleStore.currentFrameIndex].
  split; [reflexivity|]. split; [|split; [|split; [|split; reflexivity]]].
  - apply list_lookup_insert_eq. unfold jsLength in Hb. lia.
  - intros j Hj. apply list_lookup_insert_ne. congruence.
  - unfold jsLength. rewrite length_insert. reflexivity.
Qed.

Lemma loadFrame_outcome_witness :
  let p := {| SingleProvider.store :=
                SingleStore.dicomReducer
                  (SingleStore.dicomReducer
                     (SingleStore.dicomReducer
                        (SingleStore.dicomReducer SingleStore.initialState
                           (SingleStore.SET_SESSION sampleSession))
                        (SingleStore.SET_SELECTED_SERIES
                           {| uid := "A"; series_desc := ""; modality := "CT";
                              patient_name := ""; patient_id := ""; study_desc := "";
                              frame_count := 5; examples := [] |}))
                     (SingleStore.SET_FRAMES fiveFrames))
                  (SingleStore.SET_CURRENT_FRAME 3);
              SingleProvider.pending := [] |} in
  SingleStore.currentFrameIndex (SingleProvider.store p) = 3 /\
  SingleStore.currentFrameIndex
    (SingleProvider.store
       (SingleProvider.run p
          [SingleProvider.LoadFrame 3;
           SingleProvider.FrameResolved 0 (sampleFrame 3 "AAAA")])) = 0.
Proof.
  intros p. split; [reflexivity|].
  destruct (loadFrame_outcome p sampleSession
              {| uid := "A"; series_desc := ""; modality := "CT";
                 patient_name := ""; patient_id := ""; study_desc := "";
                 frame_count := 5; examples := [] |}
              3 (sampleFrame 3 "AAAA") [] eq_refl eq_refl)
    as (_ & _ & _ & _ & _ & H & _).
  - vm_compute. split; [discriminate | reflexivity].
  - exact H.
Defined.

(** X18. [uploadFiles]: while the upload is pending the error is cleared and
    [isLoading] is false again (lowered by [SET_ERROR (null)]). When it
    succeeds the session is the response and the error is cleared, while the
    frame list, the selected series and the frame index of the previous
    session stay as they were. When it fails the session is unchanged and the
    error is the rejection's message, or "Failed to upload files". *)
Theorem uploadFiles_outcome (p : SingleProvider.Provider) (files : list string) :
  SingleStore.isLoading
    (SingleProvider.store (SingleProvider.step p (SingleProvider.UploadFiles files)))
  = false /\
  SingleStore.error
    (SingleProvider.store (SingleProvider.step p (SingleProvider.UploadFiles files)))
  = None /\
  (forall data : DICOMSession,
     let settled :=
       SingleProvider.step (SingleProvider.step p (SingleProvider.UploadFiles files))
         (SingleProvider.UploadResolved (length (SingleProvider.pending p)) data) in
     SingleStore.session (SingleProvider.store settled) = Some data /\
     SingleStore.error (SingleProvider.store settled) = None /\
     SingleStore.frames (SingleProvider.store settled)
     = SingleStore.frames (SingleProvider.store p) /\
     SingleStore.selectedSeries (SingleProvider.store settled)
     = SingleStore.selectedSeries (SingleProvider.store p) /\
     SingleStore.currentFrameIndex (SingleProvider.store settled)
     = SingleStore.currentFrameIndex (SingleProvider.store p) /\
     SingleProvider.pending settled = SingleProvider.pending p) /\
  (forall message : option string,
     let failed :=
       SingleProvider.step (SingleProvider.step p (SingleProvider.UploadFiles files))
         (SingleProvider.Rejected (length (SingleProvider.pending p)) message) in
     SingleStore.session (SingleProvider.store failed)
     = SingleStore.session (SingleProvider.store p) /\
     SingleStore.error (SingleProvider.store failed)
     = Some (default "Failed to upload files" message) /\
     SingleStore.isLoading (SingleProvider.store failed) = false).
Proof.
  cbn [SingleProvider.step]. unfold SingleProvider.uploadFiles_start.
  cbn [SingleProvider.store SingleProvider.pending].
  split; [reflexivity|]. split; [reflexivity|]. split.
  - intros data. cbn zeta. cbn [SingleProvider.step SingleProvider.pending].
    rewrite list_lookup_middle by reflexivity.
    unfold SingleProvider.settle. cbn [SingleProvider.store SingleProvider.pending].
    rewrite delete_middle, app_nil_r. repeat split.
  - intros message. cbn zeta. cbn [SingleProvider.step SingleProvider.pending].
    rewrite list_lookup_middle by reflexivity.
    unfold SingleProvider.settle, SingleProvider.rejected.
    cbn [SingleProvider.request SingleProvider.store]. repeat split.
Qed.

(** X19. Without a session nothing is fetched and nothing dispatched:
    [loadSeries], [loadFrame] and [loadSeriesForCell] return at once and
    leave the provider as it is; so does [loadFrame] without a selected
    series. *)
Theorem no_session_no_request :
  (forall (p : SingleProvider.Provider) (seriesUid : string),
     SingleStore.session (SingleProvider.store p) = None ->
     SingleProvider.step p (SingleProvider.LoadSeries seriesUid) = p) /\
  (forall (p : SingleProvider.Provider) (frameIndex : Z),
     SingleStore.session (SingleProvider.store p) = None \/
     SingleStore.selectedSeries (SingleProvider.store p) = None ->
     SingleProvider.step p (SingleProvider.LoadFrame frameIndex) = p) /\
  (forall (API_BASE_URL : string) (p : CellGrid.Provider) (cellIndex : Z)
          (seriesUid : string) (frameIndex : Z),
     CellStore.session (CellGrid.store p) = None ->
     CellGrid.step API_BASE_URL p (CellGrid.LoadSeriesForCell cellIndex seriesUid frameIndex)
     = p).
Proof.
  split; [|split].
  - intros p seriesUid H. cbn [SingleProvider.step].
    unfold SingleProvider.loadSeries_start. rewrite H. reflexivity.
  - intros p frameIndex H. cbn [SingleProvider.step].
    unfold SingleProvider.loadFrame_start.
    destruct H as [H|H]; rewrite H; [reflexivity|].
    destruct (SingleStore.session (SingleProvider.store p)); reflexivity.
  - intros api p cellIndex seriesUid frameIndex H. cbn [CellGrid.step].
    unfold CellGrid.loadSeriesForCell_start. rewrite H. reflexivity.
Qed.

Lemma no_session_no_request_witness :
  SingleProvider.step
    {| SingleProvider.store := SingleStore.initialState; SingleProvider.pending := [] |}
    (SingleProvider.LoadSeries "A")
  = {| SingleProvider.store := SingleStore.initialState; SingleProvider.pending := [] |}.
Proof. apply (proj1 no_session_no_request). reflexivity. Defined.

(** ** [GridControls] *)

Module GridControlsFacts.
Import CellStore GridControls.

Lemma truthyString_true (s : string) : truthyString s = true <-> s <> "".
Proof. destruct s; simpl; split; congruence. Qed.

Lemma four_keys_sorted {A : Type} (m : gmap Z A) :
  (forall k, is_Some (m !! k) <-> 0 <= k <= 3) ->
  merge_sort Z.le (elements (dom m)) = [0; 1; 2; 3].
Proof.
  intros H. apply (Sorted_unique Z.le).
  - apply Sorted_merge_sort. apply _.
  - repeat constructor; lia.
  - rewrite merge_sort_Permutation. apply NoDup_Permutation.
    + apply NoDup_elements.
    + repeat (constructor;
                [intros Hx; rewrite ?elem_of_cons, ?elem_of_nil in Hx; lia|]).
      constructor.
    + intros k. rewrite elem_of_elements, elem_of_dom, H.
      rewrite !elem_of_cons, elem_of_nil. lia.
Qed.

Lemma objectValues_four {A : Type} (m : gmap Z A) :
  (forall k, is_Some (m !! k) <-> 0 <= k <= 3) ->
  exists v0 v1 v2 v3,
    m !! 0 = Some v0 /\ m !! 1 = Some v1 /\ m !! 2 = Some v2 /\ m !! 3 = Some v3 /\
    objectValues m = [v0; v1; v2; v3].
Proof.
  intros H. unfold objectValues. rewrite (four_keys_sorted m H).
  destruct (proj2 (H 0) ltac:(lia)) as [v0 E0].
  destruct (proj2 (H 1) ltac:(lia)) as [v1 E1].
  destruct (proj2 (H 2) ltac:(lia)) as [v2 E2].
  destruct (proj2 (H 3) ltac:(lia)) as [v3 E3].
  exists v0, v1, v2, v3. repeat (split; [assumption|]).
  simpl. rewrite E0, E1, E2, E3. reflexivity.
Qed.

Lemma elem_of_selectedSeriesUids (sel : gmap Z CellSeries) (c : Z) (u : string) :
  (forall k, is_Some (sel !! k) <-> 0 <= k <= 3) ->
  u ∈ selectedSeriesUids sel c <->
  exists j cell, j <> c /\ sel !! j = Some cell /\ seriesUid cell <> "" /\ u = seriesUid cell.
Proof.
  intros H.
  destruct (objectValues_four sel H) as (v0 & v1 & v2 & v3 & E0 & E1 & E2 & E3 & Ev).
  unfold selectedSeriesUids. rewrite Ev. cbn [fmap list_fmap imap].
  rewrite list_elem_of_omap. split.
  - intros ([n w] & Hin & Hf). cbn [fst snd] in Hf.
    destruct (bool_decide (Z.of_nat n <> c) && truthyString w) eqn:Eb; [|discriminate].
    injection Hf as <-. apply andb_true_iff in Eb. destruct Eb as [Eb1 Eb2].
    apply bool_decide_eq_true in Eb1. apply truthyString_true in Eb2.
    rewrite !elem_of_cons, elem_of_nil in Hin.
    destruct Hin as [Hin|[Hin|[Hin|[Hin|Hin]]]]; [| | | |contradiction];
      injection Hin as -> ->.
    + exists 0, v0. auto.
    + exists 1, v1. auto.
    + exists 2, v2. auto.
    + exists 3, v3. auto.
  - intros (j & cell & Hj & Hs & Hu & ->).
    assert (Hr : 0 <= j <= 3) by (apply H; eauto).
    exists (Z.to_nat j, seriesUid cell). split.
    + rewrite !elem_of_cons, elem_of_nil.
      assert (j = 0 \/ j = 1 \/ j = 2 \/ j = 3) as [-> | [-> | [-> | ->]]] by lia.
      * left. replace cell with v0 by congruence. reflexivity.
      * right; left. replace cell with v1 by congruence. reflexivity.
      * right; right; left. replace cell with v2 by congruence. reflexivity.
      * right; right; right; left. replace cell with v3 by congruence. reflexivity.
    + cbn [fst snd]. rewrite Z2Nat.id by lia.
      rewrite bool_decide_eq_true_2 by exact Hj.
      rewrite (proj2 (truthyString_true _) Hu). reflexivity.
Qed.

End GridControlsFacts.

(** X20. With the four cells 0..3 in the map, the select box of a cell
    offers exactly the series of the session that no other cell has chosen:
    a series chosen in another cell is left out, the cell's own choice and
    every unchosen series stay in, in the session's order. Without a session
    the list is empty. *)
Theorem available_series_exclude_other_cells (s : DICOMSession)
    (selectedSeriesForCells : gmap Z CellStore.CellSeries) (currentCellIndex : Z) :
  (forall k, is_Some (selectedSeriesForCells !! k) <-> 0 <= k <= 3) ->
  (forall x : DICOMSeries,
     x ∈ GridControls.getAvailableSeries (Some s) selectedSeriesForCells currentCellIndex <->
     x ∈ series s /\
     forall j cell, j <> currentCellIndex -> selectedSeriesForCells !! j = Some cell ->
       CellStore.seriesUid cell <> "" -> uid x <> CellStore.seriesUid cell) /\
  GridControls.getAvailableSeries (Some s) selectedSeriesForCells currentCellIndex
    `sublist_of` series s /\
  GridControls.getAvailableSeries None selectedSeriesForCells currentCellIndex = [].
Proof.
  intros H. split; [|split; [|reflexivity]].
  - intros x. unfold GridControls.getAvailableSeries.
    rewrite list_elem_of_filter.
    rewrite (GridControlsFacts.elem_of_selectedSeriesUids _ _ _ H).
    split.
    + intros [Hn Hx]. split; [exact Hx|].
      intros j cell Hj Hs Hu E. apply Hn. exists j, cell. auto.
    + intros [Hx Hn]. split; [|exact Hx].
      intros (j & cell & Hj & Hs & Hu & E). exact (Hn j cell Hj Hs Hu E).
  - unfold GridControls.getAvailableSeries. apply sublist_filter.
Qed.

Lemma available_series_exclude_other_cells_witness :
  let a := {| uid := "A"; series_desc := ""; modality := "CT"; patient_name := "";
              patient_id := ""; study_desc := ""; frame_count := 5; examples := [] |} in
  let b := {| uid := "B"; series_desc := ""; modality := "MR"; patient_name := "";
              patient_id := ""; study_desc := ""; frame_count := 3; examples := [] |} in
  let s := {| session_id := "s1"; series := [a; b]; invalid_files := [];
              total_series := 2 |} in
  ~ a ∈ GridControls.getAvailableSeries (Some s)
          (CellStore.selectedSeriesForCells cellAssignedState) 1.
Proof.
  intros a b s Hin.
  destruct (available_series_exclude_other_cells s
              (CellStore.selectedSeriesForCells cellAssignedState) 1) as (H & _).
  - intros k. unfold cellAssignedState. simpl. unfold CellStore.fourCells.
    rewrite !lookup_insert. repeat case_decide; subst;
      try (split; [intros _; lia | intros _; eexists; reflexivity]).
    rewrite lookup_empty. split; [intros [? ?]; discriminate | lia].
  - apply H in Hin. destruct Hin as [_ Hn].
    apply (Hn 0 {| CellStore.seriesUid := "A"; CellStore.frameIndex := 2 |});
      [lia | reflexivity | discriminate | reflexivity].
Defined.

(** X21. Moving the frame slider of a cell that has an entry calls
    [onSeriesChange] with the cell's current series uid and the parsed value,
    0 for an unparsable one and never negative. Wired to
    [loadSeriesForCell] with a session, that fetches the whole series again:
    the store is unchanged until the fetch resolves, and then the cell has the
    same series, the chosen frame index and the fetched frames. A cell
    without an entry calls nothing. *)
Theorem cell_frame_change_refetches_series (API_BASE_URL : string)
    (p : CellGrid.Provider) (s : DICOMSession) (cellIndex : Z)
    (current : CellStore.CellSeries) (parsed : option Z) :
  CellStore.session (CellGrid.store p) = Some s ->
  CellStore.selectedSeriesForCells (CellGrid.store p) !! cellIndex = Some current ->
  GridControls.handleFrameChange (CellStore.selectedSeriesForCells (CellGrid.store p))
    CellGrid.LoadSeriesForCell cellIndex parsed
  = Some (CellGrid.LoadSeriesForCell cellIndex (CellStore.seriesUid current)
            (Z.max 0 (default 0 parsed))) /\
  0 <= Z.max 0 (default 0 parsed) /\
  CellGrid.store
    (CellGrid.step API_BASE_URL p
       (CellGrid.LoadSeriesForCell cellIndex (CellStore.seriesUid current)
          (Z.max 0 (default 0 parsed))))
  = CellGrid.store p /\
  (forall fetched : list DICOMFrame,
     let settled :=
       CellGrid.run API_BASE_URL p
         [CellGrid.LoadSeriesForCell cellIndex (CellStore.seriesUid current)
            (Z.max 0 (default 0 parsed));
          CellGrid.FetchResolved (length (CellGrid.pending p)) fetched] in
     CellStore.selectedSeriesForCells (CellGrid.store settled) !! cellIndex
     = Some {| CellStore.seriesUid := CellStore.seriesUid current;
               CellStore.frameIndex := Z.max 0 (default 0 parsed) |} /\
     CellStore.cellFrames (CellGrid.store settled) !! cellIndex = Some fetched) /\
  (forall (sel : gmap Z CellStore.CellSeries),
     sel !! cellIndex = None ->
     GridControls.handleFrameChange sel CellGrid.LoadSeriesForCell cellIndex parsed = None).
Proof.
  intros Hs Hc. unfold GridControls.handleFrameChange. rewrite Hc.
  split; [reflexivity|]. split; [lia|].
  cbn [CellGrid.step]. unfold CellGrid.loadSeriesForCell_start. rewrite Hs.
  split; [reflexivity|]. split.
  - intros fetched. cbn zeta. unfold CellGrid.run. cbn [foldl CellGrid.step].
    unfold CellGrid.loadSeriesForCell_start. rewrite Hs.
    cbn [CellGrid.pending CellGrid.store].
    rewrite list_lookup_middle by reflexivity.
    cbn [CellGrid.store].
    apply CellGridFacts.loadSeriesForCell_resume_cell.
  - intros sel Hn. rewrite Hn. reflexivity.
Qed.

Lemma cell_frame_change_refetches_series_witness :
  GridControls.handleFrameChange
    (CellStore.selectedSeriesForCells (CellGrid.store cellAssignedProvider))
    CellGrid.LoadSeriesForCell 0 (Some (-4))
  = Some (CellGrid.LoadSeriesForCell 0 "A" 0).
Proof.
  destruct (cell_frame_change_refetches_series "http://localhost:8000"
              cellAssignedProvider sampleSession 0
              {| CellStore.seriesUid := "A"; CellStore.frameIndex := 2 |} (Some (-4))
              eq_refl eq_refl) as (H & _).
  exact H.
Defined.

(** X22. Editing the width box of a cell stores the parsed width (0 for an
    unparsable input) and keeps the cell's level, editing the level box keeps
    the width; a cell without a window entry counts as 400/50. With the
    callback wired to [SET_CELL_WINDOW_LEVEL], no other cell's window and no
    cell's series or frames change. *)
Theorem cell_window_edit_keeps_other_field (state : CellStore.DICOMState)
    (cellIndex : Z) (parsed : option Q) :
  CellStore.cellWindowLevels
    (GridControls.handleWindowLevelChange (CellStore.cellWindowLevels state)
       (fun i w l => CellStore.dicomReducer state (CellStore.SET_CELL_WINDOW_LEVEL i w l))
       cellIndex GridControls.FieldWindowWidth parsed) !! cellIndex
  = Some {| CellStore.cellWindowWidth := default 0%Q parsed;
            CellStore.cellWindowLevel :=
              CellStore.cellWindowLevel
                (default CellStore.defaultCellWindowLevel
                   (CellStore.cellWindowLevels state !! cellIndex)) |} /\
  CellStore.cellWindowLevels
    (GridControls.handleWindowLevelChange (CellStore.cellWindowLevels state)
       (fun i w l => CellStore.dicomReducer state (CellStore.SET_CELL_WINDOW_LEVEL i w l))
       cellIndex GridControls.FieldWindowLevel parsed) !! cellIndex
  = Some {| CellStore.cellWindowWidth :=
              CellStore.cellWindowWidth
                (default CellStore.defaultCellWindowLevel
                   (CellStore.cellWindowLevels state !! cellIndex));
            CellStore.cellWindowLevel := default 0%Q parsed |} /\
  (forall (field : GridControls.WindowField) (j : Z),
     j <> cellIndex ->
     CellStore.cellWindowLevels
       (GridControls.handleWindowLevelChange (CellStore.cellWindowLevels state)
          (fun i w l => CellStore.dicomReducer state (CellStore.SET_CELL_WINDOW_LEVEL i w l))
          cellIndex field parsed) !! j
     = CellStore.cellWindowLevels state !! j) /\
  (forall field : GridControls.WindowField,
     CellStore.selectedSeriesForCells
       (GridControls.handleWindowLevelChange (CellStore.cellWindowLevels state)
          (fun i w l => CellStore.dicomReducer state (CellStore.SET_CELL_WINDOW_LEVEL i w l))
          cellIndex field parsed)
     = CellStore.selectedSeriesForCells state /\
     CellStore.cellFrames
       (GridControls.handleWindowLevelChange (CellStore.cellWindowLevels state)
          (fun i w l => CellStore.dicomReducer state (CellStore.SET_CELL_WINDOW_LEVEL i w l))
          cellIndex field parsed)
     = CellStore.cellFrames state).
Proof.
  unfold GridControls.handleWindowLevelChange. simpl.
  split; [apply lookup_insert_eq|]. split; [apply lookup_insert_eq|]. split.
  - intros field j Hj. destruct field; simpl; apply lookup_insert_ne; congruence.
  - intros field. destruct field; split; reflexivity.
Qed.

(** ** [MetadataPanel] *)

(** X23. The example files of the metadata panel: a series without
    examples has no section; otherwise the first five examples are listed in
    order, and the note "... and N more files" appears exactly when there are
    more than five, with N the number left out, so listed and left out add up
    to the number of examples. *)
Theorem example_files_listing (examples : list string) :
  (MetadataPanel.exampleFiles examples = None <-> examples = []) /\
  (forall shown note,
     MetadataPanel.exampleFiles examples = Some (shown, note) ->
     shown `prefix_of` examples /\
     1 <= jsLength shown <= 5 /\
     (note = None <-> jsLength examples <= 5) /\
     jsLength shown + default 0 note = jsLength examples /\
     (forall n, note = Some n -> 1 <= n)).
Proof.
  unfold MetadataPanel.exampleFiles. split.
  - destruct examples; simpl; split; congruence || (unfold jsLength; simpl; try discriminate).
  - intros shown note H.
    destruct (0 <? jsLength examples) eqn:E0; [|discriminate].
    injection H as <- <-.
    assert (Hl : jsLength (take 5 examples) = Z.min 5 (jsLength examples)).
    { unfold jsLength. rewrite length_take. lia. }
    split; [apply prefix_take|].
    destruct (5 <? jsLength examples) eqn:E5; simpl.
    + split; [lia|]. split; [split; [discriminate | lia]|].
      split; [lia|]. intros n Hn. injection Hn as <-. lia.
    + split; [lia|]. split; [split; [lia | reflexivity]|].
      split; [lia|]. intros n Hn. discriminate.
Qed.

Lemma example_files_listing_witness :
  MetadataPanel.exampleFiles ["a"; "b"; "c"; "d"; "e"; "f"; "g"]
  = Some (["a"; "b"; "c"; "d"; "e"], Some 2) /\
  jsLength ["a"; "b"; "c"; "d"; "e"] + default 0 (Some 2) = 7.
Proof.
  split; [reflexivity|].
  destruct (example_files_listing ["a"; "b"; "c"; "d"; "e"; "f"; "g"]) as [_ H].
  destruct (H ["a"; "b"; "c"; "d"; "e"] (Some 2) eq_refl) as (_ & _ & _ & K & _).
  exact K.
Defined.

(** ** The single viewer: effects and resize *)



(** X25. A resize after a decode has completed repaints the canvas with the
    image of that last completed decode and the window/level props of the
    current render (no transform when either is 0), and leaves the decodes
    still in flight alone; before any decode has completed a resize does
    nothing. *)
Theorem resize_redraws_last_completed_image (v : Viewer2D.Viewer) (k : nat)
    (r : Viewer2D.Request) (windowWidth windowLevel : Q) :
  Viewer2D.canvasMounted v = true ->
  Viewer2D.decoding v !! k = Some r ->
  Viewer2D.canvas
    (Viewer2DEffects.handleResize (Viewer2D.step v (Viewer2D.OnLoad k))
       windowWidth windowLevel)
  = Some {| Viewer2D.drawnImage := Viewer2D.requestUrl r;
            Viewer2D.drawnWindow :=
              if truthyNumber windowWidth && truthyNumber windowLevel
              then Some (windowWidth, windowLevel) else None |} /\
  Viewer2D.decoding
    (Viewer2DEffects.handleResize (Viewer2D.step v (Viewer2D.OnLoad k))
       windowWidth windowLevel)
  = delete k (Viewer2D.decoding v) /\
  (forall v' : Viewer2D.Viewer,
     Viewer2D.currentImage v' = None ->
     Viewer2DEffects.handleResize v' windowWidth windowLevel = v').
Proof.
  intros Hm Hk. cbn [Viewer2D.step]. rewrite Hk.
  unfold Viewer2DEffects.handleResize.
  cbn [Viewer2D.currentImage Viewer2D.canvasMounted]. rewrite Hm.
  split; [reflexivity|]. split; [reflexivity|].
  intros v' H. rewrite H. reflexivity.
Qed.

Lemma resize_redraws_last_completed_image_witness :
  Viewer2D.drawnWindow <$>
    Viewer2D.canvas
      (Viewer2DEffects.handleResize
         (Viewer2D.run idleViewer
            [Viewer2D.LoadAndDisplayImage request_400_50;
             Viewer2D.LoadAndDisplayImage request_200_30;
             Viewer2D.OnLoad 1; Viewer2D.OnLoad 0])
         200 30)
  = Some (Some (200%Q, 30%Q)).
Proof.
  pose proof (resize_redraws_last_completed_image
                (Viewer2D.run idleViewer
                   [Viewer2D.LoadAndDisplayImage request_400_50;
                    Viewer2D.LoadAndDisplayImage request_200_30;
                    Viewer2D.OnLoad 1])
                0 request_400_50 200 30 eq_refl eq_refl) as (H & _).
  change (Viewer2D.run idleViewer
            [Viewer2D.LoadAndDisplayImage request_400_50;
             Viewer2D.LoadAndDisplayImage request_200_30;
             Viewer2D.OnLoad 1; Viewer2D.OnLoad 0])
    with (Viewer2D.step
            (Viewer2D.run idleViewer
               [Viewer2D.LoadAndDisplayImage request_400_50;
                Viewer2D.LoadAndDisplayImage request_200_30;
                Viewer2D.OnLoad 1])
            (Viewer2D.OnLoad 0)).
  rewrite H. reflexivity.
Defined.

(** ** Upload progress *)

Lemma Math_round_inject_Z (n : Z) : Math_round (inject_Z n) = n.
Proof.
  unfold Math_round. apply Z.le_antisymm.
  - assert (Qfloor (inject_Z n + (1 # 2)) < n + 1); [|lia].
    rewrite Zlt_Qlt.
    apply Qle_lt_trans with (inject_Z n + (1 # 2))%Q; [apply Qfloor_le|].
    rewrite inject_Z_plus. change (inject_Z 1) with 1%Q. lra.
  - rewrite <- (Qfloor_Z n) at 1. apply Qfloor_resp_le. lra.
Qed.

(** X26. With a known total, the progress dispatched during an upload is a
    whole percentage between 0 and 100 that never decreases as more bytes
    are loaded: 0 when nothing is loaded and 100 when everything is. *)
Theorem upload_percent_in_range (loaded total : Z) :
  0 <= loaded <= total -> 0 < total ->
  UploadProgress.onUploadProgress loaded (Some total)
  = Some (UploadProgress.percentCompleted loaded total) /\
  0 <= UploadProgress.percentCompleted loaded total <= 100 /\
  UploadProgress.percentCompleted 0 total = 0 /\
  UploadProgress.percentCompleted total total = 100 /\
  (forall more, loaded <= more ->
     UploadProgress.percentCompleted loaded total
     <= UploadProgress.percentCompleted more total).
Proof.
  intros Hl Ht.
  assert (HtQ : (0 < inject_Z total)%Q).
  { change 0%Q with (inject_Z 0). rewrite <- Zlt_Qlt. exact Ht. }
  assert (Bound : forall a, 0 <= a <= total ->
            (0 <= inject_Z (a * 100) / inject_Z total)%Q /\
            (inject_Z (a * 100) / inject_Z total <= 100)%Q).
  { intros a Ha. split.
    - apply Qle_shift_div_l; [exact HtQ|]. rewrite Qmult_0_l.
      change 0%Q with (inject_Z 0). rewrite <- Zle_Qle. lia.
    - apply Qle_shift_div_r; [exact HtQ|].
      change 100%Q with (inject_Z 100). rewrite <- inject_Z_mult, <- Zle_Qle. lia. }
  assert (Range : forall a, 0 <= a <= total ->
            0 <= UploadProgress.percentCompleted a total <= 100).
  { intros a Ha. destruct (Bound a Ha) as [B0 B1].
    unfold UploadProgress.percentCompleted. split.
    - rewrite <- (Math_round_inject_Z 0). apply Math_round_mono. exact B0.
    - rewrite <- (Math_round_inject_Z 100). apply Math_round_mono. exact B1. }
  split.
  { unfold UploadProgress.onUploadProgress.
    replace (total =? 0) with false by lia. reflexivity. }
  split; [apply Range; exact Hl|]. split; [|split].
  - apply Z.le_antisymm; [|apply Range; lia].
    unfold UploadProgress.percentCompleted.
    rewrite <- (Math_round_inject_Z 0) at 2. apply Math_round_mono.
    unfold Qdiv. change (inject_Z (0 * 100)) with 0%Q. rewrite Qmult_0_l. apply Qle_refl.
  - apply Z.le_antisymm; [apply Range; lia|].
    unfold UploadProgress.percentCompleted.
    rewrite <- (Math_round_inject_Z 100) at 1. apply Math_round_mono.
    apply Qle_shift_div_l; [exact HtQ|].
    change (inject_Z 100) with 100%Q.
    change 100%Q with (inject_Z 100) at 1. rewrite <- inject_Z_mult, <- Zle_Qle. lia.
  - intros more Hm. unfold UploadProgress.percentCompleted. apply Math_round_mono.
    unfold Qdiv. apply Qmult_le_compat_r.
    + rewrite <- Zle_Qle. lia.
    + apply Qlt_le_weak, Qinv_lt_0_compat, HtQ.
Qed.

Lemma upload_percent_in_range_witness :
  UploadProgress.onUploadProgress 1 (Some 3) = Some 33.
Proof.
  destruct (upload_percent_in_range 1 3) as (H & _); [lia | lia |].
  rewrite H. reflexivity.
Defined.

(** X27. Without a total (missing or 0) the progress is estimated from the
    bytes loaded: nothing is dispatched while nothing is loaded; otherwise
    the estimate is a whole number between 0 and 90 that never decreases as
    more bytes are loaded, so it stays below 100 until the upload completes. *)
Theorem upload_estimate_is_capped (loaded : Z) :
  UploadProgress.onUploadProgress loaded None
  = UploadProgress.onUploadProgress loaded (Some 0) /\
  (loaded <= 0 -> UploadProgress.onUploadProgress loaded None = None) /\
  (0 < loaded ->
   UploadProgress.onUploadProgress loaded None
   = Some (UploadProgress.estimatedProgress loaded) /\
   0 <= UploadProgress.estimatedProgress loaded <= 90 /\
   (forall more, loaded <= more ->
      UploadProgress.estimatedProgress loaded <= UploadProgress.estimatedProgress more)).
Proof.
  split; [reflexivity|]. split.
  - intros H. unfold UploadProgress.onUploadProgress.
    replace (0 <? loaded) with false by lia. reflexivity.
  - intros H. split.
    + unfold UploadProgress.onUploadProgress.
      replace (0 <? loaded) with true by lia. reflexivity.
    + assert (Mono : forall a b, a <= b ->
                Math_round (inject_Z a / 1000000 * 10)
                <= Math_round (inject_Z b / 1000000 * 10)).
      { intros a b Hab. apply Math_round_mono.
        apply Qmult_le_compat_r; [|discriminate].
        unfold Qdiv. apply Qmult_le_compat_r; [|discriminate].
        rewrite <- Zle_Qle. exact Hab. }
      unfold UploadProgress.estimatedProgress. split.
      * split; [|lia].
        assert (0 <= Math_round (inject_Z loaded / 1000000 * 10)); [|lia].
        change 0 with (Math_round (inject_Z 0 / 1000000 * 10)). apply Mono. lia.
      * intros more Hm. pose proof (Mono loaded more Hm). lia.
Qed.

Lemma upload_estimate_is_capped_witness :
  UploadProgress.onUploadProgress 50000000 None = Some 90.
Proof.
  destruct (upload_estimate_is_capped 50000000) as (_ & _ & H).
  destruct (H ltac:(lia)) as (E & _). rewrite E. reflexivity.
Defined.

(** ** The store variant with upload progress *)

(** X28. In the store variant with upload progress, where [SET_ERROR] no
    longer lowers the loading flag, [loadSeries] raises [isLoading] and never
    lowers it: the flag is still true after the fetch has resolved (frames
    stored, index 0) and after it has failed (error stored). *)
Theorem progress_variant_loadSeries_leaves_loading_on (p : ProgressStore.Provider)
    (s : DICOMSession) (seriesUid : string) :
  ProgressStore.session (ProgressStore.store p) = Some s ->
  ProgressStore.isLoading
    (ProgressStore.store (ProgressStore.step p (ProgressStore.LoadSeries seriesUid)))
  = true /\
  (forall fetched : list DICOMFrame,
     let settled :=
       ProgressStore.step (ProgressStore.step p (ProgressStore.LoadSeries seriesUid))
         (ProgressStore.SeriesResolved (length (ProgressStore.pending p)) fetched) in
     ProgressStore.isLoading (ProgressStore.store settled) = true /\
     ProgressStore.frames (ProgressStore.store settled) = fetched /\
     ProgressStore.currentFrameIndex (ProgressStore.store settled) = 0 /\
     ProgressStore.error (ProgressStore.store settled) = None /\
     ProgressStore.pending settled = ProgressStore.pending p) /\
  (forall message : option string,
     let failed :=
       ProgressStore.step (ProgressStore.step p (ProgressStore.LoadSeries seriesUid))
         (ProgressStore.SeriesRejected (length (ProgressStore.pending p)) message) in
     ProgressStore.isLoading (ProgressStore.store failed) = true /\
     ProgressStore.error (ProgressStore.store failed)
     = Some (default "Failed to load series" message) /\
     ProgressStore.frames (ProgressStore.store failed)
     = ProgressStore.frames (ProgressStore.store p)).
Proof.
  intros Hs. cbn [ProgressStore.step]. rewrite Hs.
  cbn [ProgressStore.store ProgressStore.pending].
  split; [reflexivity|]. split.
  - intros fetched. cbn zeta. cbn [ProgressStore.step ProgressStore.pending].
    rewrite list_lookup_middle by reflexivity.
    cbn [ProgressStore.store ProgressStore.pending].
    rewrite delete_middle, app_nil_r, Hs.
    destruct (ProgressStore.findSeries s seriesUid); repeat split.
  - intros message. cbn zeta. cbn [ProgressStore.step ProgressStore.pending].
    rewrite list_lookup_middle by reflexivity.
    cbn [ProgressStore.store]. repeat split.
Qed.

Lemma progress_variant_loadSeries_leaves_loading_on_witness :
  ProgressStore.isLoading
    (ProgressStore.store
       (ProgressStore.run
          {| ProgressStore.store :=
               ProgressStore.dicomReducer ProgressStore.initialState
                 (ProgressStore.SET_SESSION sampleSession);
             ProgressStore.pending := []; ProgressStore.timers := 0 |}
          [ProgressStore.LoadSeries "A"; ProgressStore.SeriesResolved 0 fiveFrames]))
  = true.
Proof.
  destruct (progress_variant_loadSeries_leaves_loading_on
              {| ProgressStore.store :=
                   ProgressStore.dicomReducer ProgressStore.initialState
                     (ProgressStore.SET_SESSION sampleSession);
                 ProgressStore.pending := []; ProgressStore.timers := 0 |}
              sampleSession "A" eq_refl) as (_ & H & _).
  destruct (H fiveFrames) as (K & _). exact K.
Defined.

(** X29. [uploadFiles] in the variant with upload progress: while the upload
    is pending [isLoading] is true, the progress is 0 and the error is
    cleared. On success the session is the response, the progress is 100 and
    [isLoading] stays true until the 500 ms timer fires, which lowers it. On
    failure [isLoading] is lowered at once, the session is unchanged and the
    error is the classified message, which for an axios error is never empty
    and is the time-out message whenever the code is ECONNABORTED. *)
Theorem progress_variant_upload_outcome (p : ProgressStore.Provider) :
  ProgressStore.isLoading
    (ProgressStore.store (ProgressStore.step p ProgressStore.UploadFiles)) = true /\
  ProgressStore.uploadProgress
    (ProgressStore.store (ProgressStore.step p ProgressStore.UploadFiles)) = 0 /\
  ProgressStore.error
    (ProgressStore.store (ProgressStore.step p ProgressStore.UploadFiles)) = None /\
  (forall data : DICOMSession,
     let settled :=
       ProgressStore.step (ProgressStore.step p ProgressStore.UploadFiles)
         (ProgressStore.UploadResolved (length (ProgressStore.pending p)) data) in
     ProgressStore.session (ProgressStore.store settled) = Some data /\
     ProgressStore.uploadProgress (ProgressStore.store settled) = 100 /\
     ProgressStore.isLoading (ProgressStore.store settled) = true /\
     ProgressStore.isLoading
       (ProgressStore.store (ProgressStore.step settled ProgressStore.TimerFired))
     = false /\
     ProgressStore.uploadProgress
       (ProgressStore.store (ProgressStore.step settled ProgressStore.TimerFired))
     = 100) /\
  (forall e : ProgressStore.UploadError,
     let failed :=
       ProgressStore.step (ProgressStore.step p ProgressStore.UploadFiles)
         (ProgressStore.UploadRejected (length (ProgressStore.pending p)) e) in
     ProgressStore.isLoading (ProgressStore.store failed) = false /\
     ProgressStore.error (ProgressStore.store failed)
     = Some (ProgressStore.uploadErrorMessage e) /\
     ProgressStore.session (ProgressStore.store failed)
     = ProgressStore.session (ProgressStore.store p)) /\
  (forall code message status dataMessage hasRequest,
     ProgressStore.uploadErrorMessage
       (ProgressStore.AxiosError code message status dataMessage hasRequest) <> "" /\
     (code = Some "ECONNABORTED" ->
      ProgressStore.uploadErrorMessage
        (ProgressStore.AxiosError code message status dataMessage hasRequest)
      = "Upload timed out. Please try again with smaller files or check your connection.")).
Proof.
  cbn [ProgressStore.step ProgressStore.store ProgressStore.pending].
  split; [reflexivity|]. split; [reflexivity|]. split; [reflexivity|].
  split; [|split].
  - intros data. cbn zeta. cbn [ProgressStore.step ProgressStore.pending].
    rewrite list_lookup_middle by reflexivity. repeat split.
  - intros e. cbn zeta. cbn [ProgressStore.step ProgressStore.pending].
    rewrite list_lookup_middle by reflexivity. repeat split.
  - intros code message status dataMessage hasRequest. split.
    + unfold ProgressStore.uploadErrorMessage.
      destruct (bool_decide (code = Some "ECONNABORTED") || includes "timeout" message);
        [discriminate|].
      destruct (bool_decide (status = Some 524)); [discriminate|].
      destruct status as [n|].
      * destruct (n =? 0); [destruct hasRequest; discriminate | discriminate].
      * destruct hasRequest; discriminate.
    + intros ->. unfold ProgressStore.uploadErrorMessage.
      rewrite bool_decide_eq_true_2 by reflexivity. reflexivity.
Qed.
